(** * MyOS: the client-side repository, reconciliation and view derivations

    A shallow embedding of the logic of [src/App.tsx] (both revisions of the
    component that the file holds), of [types.ts] and of the gateway wrapper
    [services/geminiService.ts], followed by the properties the
    specification states about them.

    Conventions of the embedding.
    - A JavaScript string is a Rocq [string]; its characters stand for
      UTF-16 code units below 256, and [length] is the JavaScript [length].
    - A JavaScript number that the code only uses as an integer (timestamps,
      day numbers, indices) is a [Z].
    - An optional field ([f?: T]) is an [option]; [None] is [undefined].
    - A plain object used as a dictionary ([Record<string, T>]) is an
      association list in insertion order holding its own properties;
      [Obj.entries] applies the enumeration order of the language
      (array-index keys first, ascending, then insertion order).  Keys are
      taken not to collide with the members of [Object.prototype].
    - React state is passed explicitly: a handler takes the values its
      closure captured and returns the new collections together with the
      notices ([alert]) it raised.  The asynchronous handler takes both the
      state it captured and the state its updates apply to; the transition
      system of the events takes every handler as one step. *)

From Stdlib Require Import ZArith Lia Bool List Ascii String Permutation Sorted.
From stdpp Require Import base tactics option list sorting gmap strings pretty.
Import ListNotations.

Local Open Scope string_scope.
Local Open Scope Z_scope.
Local Open Scope list_scope.

(* ===================================================================== *)
(** ** JavaScript strings *)
(* ===================================================================== *)

Module JS.

(** [Boolean(s)] for a string: every string but the empty one is truthy. *)
Definition truthy (s : string) : bool :=
  match s with EmptyString => false | String _ _ => true end.

(** [Boolean(v)] for [string | undefined]. *)
Definition truthy_opt (v : option string) : bool :=
  match v with Some s => truthy s | None => false end.

(** [a || b] where [a : string | undefined] and [b : string]. *)
Definition or_else (a : option string) (b : string) : string :=
  match a with
  | Some s => if truthy s then s else b
  | None => b
  end.

(** [xs.includes(x)] on an array of strings. *)
Definition includes (x : string) (xs : list string) : bool :=
  existsb (String.eqb x) xs.

(** [xs[0]]: [undefined] on the empty array. *)
Definition first (xs : list string) : option string :=
  match xs with [] => None | x :: _ => Some x end.

(** *** Code units *)

(** The one-character string holding a double quote. *)
Definition dquote : string := String (ascii_of_N 34) EmptyString.

Definition chars (s : string) : list ascii := list_ascii_of_string s.
Definition str (l : list ascii) : string := string_of_list_ascii l.

(** [WhiteSpace] and [LineTerminator] code units (below 256): what
    [trim], [\s] and [parseInt] skip. *)
Definition is_white (c : ascii) : bool :=
  let n := N_of_ascii c in
  ((n =? 9) || (n =? 10) || (n =? 11) || (n =? 12) || (n =? 13)
   || (n =? 32) || (n =? 160))%N.

Fixpoint skip_white (l : list ascii) : list ascii :=
  match l with
  | [] => []
  | c :: l' => if is_white c then skip_white l' else l
  end.

(** A run of code units that does not begin with white space. *)
Definition clean_head (l : list ascii) : Prop :=
  match l with [] => True | c :: _ => is_white c = false end.

(** [s.trim()] *)
Definition trim (s : string) : string :=
  str (rev (skip_white (rev (skip_white (chars s))))).

(** [s.toLowerCase()] *)
Definition lower (c : ascii) : ascii :=
  let n := N_of_ascii c in
  if (((65 <=? n) && (n <=? 90))
      || ((192 <=? n) && (n <=? 222) && negb (n =? 215)))%N
  then ascii_of_N (n + 32) else c.
Definition toLowerCase (s : string) : string := str (List.map lower (chars s)).

Fixpoint is_prefix (p l : list ascii) : bool :=
  match p, l with
  | [], _ => true
  | _ :: _, [] => false
  | a :: p', b :: l' => Ascii.eqb a b && is_prefix p' l'
  end.

Fixpoint has_sub (sub l : list ascii) : bool :=
  is_prefix sub l ||
  match l with
  | [] => false
  | _ :: l' => has_sub sub l'
  end.

(** [s.startsWith(p)], [s.endsWith(p)], [s.includes(p)] *)
Definition startsWith (s p : string) : bool := is_prefix (chars p) (chars s).
Definition endsWith (s p : string) : bool :=
  is_prefix (rev (chars p)) (rev (chars s)).
Definition str_includes (s p : string) : bool := has_sub (chars p) (chars s).

(** The relative index of [slice]: negative counts from the end, and the
    result is clamped to the string. *)
Definition clamp (len : nat) (i : Z) : nat :=
  if (i <? 0)%Z then Z.to_nat (Z.max (Z.of_nat len + i) 0)
  else Nat.min (Z.to_nat i) len.

(** [s.slice(a, b)] and [s.slice(a)] *)
Definition slice (s : string) (a b : Z) : string :=
  let len := String.length s in
  let from := clamp len a in
  let to := clamp len b in
  str (firstn (to - from) (skipn from (chars s))).
Definition slice_from (s : string) (a : Z) : string :=
  str (skipn (clamp (String.length s) a) (chars s)).

(** [s.split(c)] for a one-character separator. *)
Fixpoint split_chars (c : ascii) (l : list ascii) : list (list ascii) :=
  match l with
  | [] => [[]]
  | x :: l' =>
      let r := split_chars c l' in
      if Ascii.eqb x c then [] :: r
      else match r with
           | h :: t => (x :: h) :: t
           | [] => [[x]]
           end
  end.
Definition split (c : ascii) (s : string) : list string :=
  List.map str (split_chars c (chars s)).

(** [parseInt(s, 10)]: leading white space, an optional sign, then the
    longest run of decimal digits; [None] is [NaN]. *)
Definition digit (c : ascii) : option Z :=
  let n := N_of_ascii c in
  if ((48 <=? n) && (n <=? 57))%N then Some (Z.of_N n - 48) else None.

Fixpoint digit_run (l : list ascii) (acc : Z) : Z :=
  match l with
  | [] => acc
  | c :: l' =>
      match digit c with
      | Some d => digit_run l' (10 * acc + d)
      | None => acc
      end
  end.

Definition unsigned_int (l : list ascii) : option Z :=
  match l with
  | [] => None
  | c :: _ => match digit c with
              | Some _ => Some (digit_run l 0)
              | None => None
              end
  end.

Definition parseInt (s : string) : option Z :=
  match skip_white (chars s) with
  | [] => None
  | c :: l' =>
      if Ascii.eqb c "-" then Z.opp <$> unsigned_int l'
      else if Ascii.eqb c "+" then unsigned_int l'
      else unsigned_int (c :: l')
  end.

(** [parseInt(v, 10)] where [v] may be [undefined]. *)
Definition parseInt_opt (v : option string) : option Z :=
  match v with Some s => parseInt s | None => None end.

(** [String(n)] for an integer (below the range where the language
    switches to exponent notation). *)
Definition of_int (n : Z) : string := pretty n.

(** [s.padStart(2, '0')] *)
Definition padStart2 (s : string) : string :=
  match String.length s with
  | O => "00"
  | S O => "0" +:+ s
  | _ => s
  end.

End JS.

(* ===================================================================== *)
(** ** Plain objects used as dictionaries *)
(* ===================================================================== *)

Module Obj.

Section Dict.
Context {V : Type}.

(** Own properties in insertion order. *)
Definition t := list (string * V).

(** [o[k]] *)
Fixpoint get (k : string) (o : t) : option V :=
  match o with
  | [] => None
  | (k', v) :: o' => if String.eqb k k' then Some v else get k o'
  end.

(** [o[k] = v] for a key other than "__proto__" (which names no
    property: assigning to it replaces the prototype, or does nothing):
    an existing key keeps its place, a new key goes last. *)
Fixpoint set (k : string) (v : V) (o : t) : t :=
  match o with
  | [] => [(k, v)]
  | (k', v') :: o' =>
      if String.eqb k k' then (k, v) :: o' else (k', v') :: set k v o'
  end.

(** The names every plain object inherits from [Object.prototype]. *)
Definition prototype_members : list string :=
  ["constructor"; "__defineGetter__"; "__defineSetter__"; "hasOwnProperty";
   "__lookupGetter__"; "__lookupSetter__"; "isPrototypeOf";
   "propertyIsEnumerable"; "toString"; "valueOf"; "__proto__";
   "toLocaleString"].

Definition on_prototype (k : string) : bool := JS.includes k prototype_members.

(** What reading [o[k]] finds: the own property; where there is none,
    the built-in that [Object.prototype] holds under that name (a
    function, or for "__proto__" the prototype itself: truthy, and with
    no [includes], no [push]); else [undefined]. *)
Inductive Lookup :=
| Own (v : V)
| Proto
| Absent.

Definition lookup (k : string) (o : t) : Lookup :=
  match get k o with
  | Some v => Own v
  | None => if on_prototype k then Proto else Absent
  end.

End Dict.
Arguments t : clear implicits.
Arguments Lookup : clear implicits.
Arguments Proto {V}.
Arguments Absent {V}.

(** Digits of a canonical numeric string. *)
Fixpoint digits (s : string) (acc : N) : option N :=
  match s with
  | EmptyString => Some acc
  | String c s' =>
      let n := N_of_ascii c in
      if ((48 <=? n) && (n <=? 57))%N
      then digits s' (10 * acc + (n - 48))%N
      else None
  end.

(** A property key is an array index when it is the canonical decimal
    spelling of an integer below 2^32 - 1. *)
Definition array_index (k : string) : option N :=
  match k with
  | EmptyString => None
  | String _ _ =>
      match digits k 0%N with
      | Some n =>
          if ((n <=? 4294967294)%N && String.eqb (pretty n) k)%bool
          then Some n else None
      | None => None
      end
  end.

Section Enumerate.
Context {V : Type}.

Fixpoint insert_index (n : N) (e : string * V) (l : list (N * (string * V)))
  : list (N * (string * V)) :=
  match l with
  | [] => [(n, e)]
  | (m, e') :: l' =>
      if (n <=? m)%N then (n, e) :: l else (m, e') :: insert_index n e l'
  end.

Fixpoint index_part (o : t V) : list (N * (string * V)) :=
  match o with
  | [] => []
  | e :: o' =>
      match array_index (fst e) with
      | Some n => insert_index n e (index_part o')
      | None => index_part o'
      end
  end.

Fixpoint name_part (o : t V) : t V :=
  match o with
  | [] => []
  | e :: o' =>
      match array_index (fst e) with
      | Some _ => name_part o'
      | None => e :: name_part o'
      end
  end.

(** [Object.entries(o)] *)
Definition entries (o : t V) : list (string * V) :=
  List.map snd (index_part o) ++ name_part o.

(** [Object.keys(o)] and [Object.values(o)] *)
Definition keys (o : t V) : list string := List.map fst (entries o).
Definition values (o : t V) : list V := List.map snd (entries o).

End Enumerate.

End Obj.

(* ===================================================================== *)
(** ** Data model ([types.ts]) *)
(* ===================================================================== *)

Inductive Status := pending | completed.

Inductive MemoryType := note | plan | inspiration.

Module Item.
Record t := mk {
  title : string;
  category : string;
  description : string;
  location : option string;
  rating : option Z;
  actionItem : option string;
  targetDate : option string;
  status : option Status
}.

(** [{ ...item, status: s }] *)
Definition with_status (s : Status) (i : t) : t :=
  mk (title i) (category i) (description i) (location i) (rating i)
     (actionItem i) (targetDate i) (Some s).
End Item.
Abbreviation StructuredItem := Item.t.

(** What the [rootCategory] of a Memory holds at run time: a string, or
    [undefined] (stored when the category list was empty), both written
    as the option they are; or the built-in that the validation of
    [handleProcessInput] found on [Object.prototype] under that name. *)
Inductive Category :=
| Plain (c : option string)
| Builtin (name : string).
#[warning="-uniform-inheritance"]
Coercion Plain : option >-> Category.

Module Memory.
Record t := mk {
  id : string;
  originalText : string;
  rootCategory : Category;
  project : string;
  subProject : option string;
  type : MemoryType;
  structuredContent : list StructuredItem;
  createdAt : Z;
  tags : list string;
  attachedImage : option string
}.

(** [{ ...mem, structuredContent: c }] *)
Definition with_structuredContent (c : list StructuredItem) (m : t) : t :=
  mk (id m) (originalText m) (rootCategory m) (project m) (subProject m)
     (type m) c (createdAt m) (tags m) (attachedImage m).

(** [{ ...m, rootCategory: c }] *)
Definition with_rootCategory (c : string) (m : t) : t :=
  mk (id m) (originalText m) (Some c) (project m) (subProject m)
     (type m) (structuredContent m) (createdAt m) (tags m) (attachedImage m).

(** [{ ...m, project: p }] *)
Definition with_project (p : string) (m : t) : t :=
  mk (id m) (originalText m) (rootCategory m) p (subProject m)
     (type m) (structuredContent m) (createdAt m) (tags m) (attachedImage m).
End Memory.
Abbreviation Memory := Memory.t.

Module Task.
Record t := mk {
  id : string;
  title : string;
  day : Z;
  status : Status;
  feedback : option string
}.

(** [{ ...t, status: s }] *)
Definition with_status (s : Status) (x : t) : t :=
  mk (id x) (title x) (day x) s (feedback x).
End Task.
Abbreviation Task := Task.t.

Module ProcessingResult.
Record t := mk {
  rootCategory : string;
  project : string;
  subProject : string;
  type : MemoryType;
  tags : list string;
  items : list StructuredItem
}.
End ProcessingResult.
Abbreviation ProcessingResult := ProcessingResult.t.

Module PlanningResult.
Record t := mk {
  planName : string;
  tasks : list (Z * string)   (* { day, title } *)
}.
End PlanningResult.
Abbreviation PlanningResult := PlanningResult.t.

(** The sentinels of the data model. *)
Definition General : string := "General".
Definition ManualProjectCreation : string := "Manual Project Creation".

(* ===================================================================== *)
(** ** Hierarchy deriver and reconciliation ([App.tsx]) *)
(* ===================================================================== *)

(** How a piece of synchronous code ends.  [Untraced]: the code goes on,
    on objects the embedding does not represent (a plain object whose
    prototype was replaced, a built-in written to or used as a key), and
    nothing is said of what it does. *)
Inductive Completion (A : Type) :=
| Returns (a : A)
| Throws                (* a TypeError *)
| Untraced.
Arguments Returns {A} a.
Arguments Throws {A}.
Arguments Untraced {A}.

Definition and_then {A B} (c : Completion A) (f : A -> Completion B)
  : Completion B :=
  match c with
  | Returns a => f a
  | Throws => Throws
  | Untraced => Untraced
  end.

(** [hierarchy[cat] = []] in the first loop of [getProjectHierarchy]:
    for "__proto__" it makes the array the prototype of the hierarchy. *)
Definition hierarchy_init (hierarchy : Obj.t (list string)) (cat : string)
  : Completion (Obj.t (list string)) :=
  if String.eqb cat "__proto__" then Untraced
  else Returns (Obj.set cat [] hierarchy).

(** The body of [memories.forEach] in [getProjectHierarchy].  A category
    that is no own key but a name of the prototype is found there:
    [!hierarchy[cat]] is false and [hierarchy[cat].includes] is not a
    function.  A root category that is a built-in is used as a key by its
    text, which the engine defines. *)
Definition hierarchy_step (hierarchy : Obj.t (list string)) (m : Memory)
  : Completion (Obj.t (list string)) :=
  match Memory.rootCategory m with
  | Plain (Some cat) =>
      if (JS.truthy cat && JS.truthy (Memory.project m)
          && negb (String.eqb (Memory.project m) General))%bool
      then
        match Obj.lookup cat hierarchy with
        | Obj.Absent => Returns (Obj.set cat [Memory.project m] hierarchy)
        | Obj.Own projs =>
            if JS.includes (Memory.project m) projs then Returns hierarchy
            else Returns (Obj.set cat (projs ++ [Memory.project m]) hierarchy)
        | Obj.Proto => Throws
        end
      else Returns hierarchy
  | Plain None => Returns hierarchy
  | Builtin _ =>
      if (JS.truthy (Memory.project m)
          && negb (String.eqb (Memory.project m) General))%bool
      then Untraced else Returns hierarchy
  end.

Definition getProjectHierarchy (availableCategories : list string)
    (memories : list Memory) : Completion (Obj.t (list string)) :=
  fold_left (fun acc m => and_then acc (fun h => hierarchy_step h m))
    memories
    (fold_left (fun acc cat => and_then acc (fun h => hierarchy_init h cat))
               availableCategories (Returns [])).

(** [isProjectNameGloballyUnique] *)
Definition isProjectNameGloballyUnique (memories : list Memory)
    (name : string) : bool :=
  if String.eqb name General then true
  else negb (JS.includes name (List.map Memory.project memories)).

(** [projectToCategoryMap[p] = cat]: a string assigned to "__proto__" is
    dropped. *)
Definition index_put (acc : gmap string string) (p cat : string)
  : gmap string string :=
  if String.eqb p "__proto__" then acc else <[p := cat]> acc.

(** The reverse index built in [handleProcessInput]:
    [Object.entries(hierarchy).forEach(([cat, projs]) =>
       projs.forEach(p => projectToCategoryMap[p] = cat))]; the map holds
    its own properties. *)
Definition projectToCategoryMap (hierarchy : Obj.t (list string))
  : gmap string string :=
  fold_left
    (fun acc e => fold_left (fun acc' p => index_put acc' p (fst e)) (snd e) acc)
    (Obj.entries hierarchy) ∅.

(** [projectToCategoryMap[p]] *)
Definition index_get (map : gmap string string) (p : string)
  : Obj.Lookup string :=
  match map !! p with
  | Some c => Obj.Own c
  | None => if Obj.on_prototype p then Obj.Proto else Obj.Absent
  end.

(** [availableCategories.includes(finalCategory)] *)
Definition is_available (availableCategories : list string)
    (finalCategory : Category) : bool :=
  match finalCategory with
  | Plain (Some c) => JS.includes c availableCategories
  | _ => false
  end.

(** The validation of the returned pair in [handleProcessInput].  The
    category is [undefined] only when [availableCategories] is empty; for
    a project name found on the prototype of the map it is the built-in
    found there. *)
Definition reconcile (availableCategories : list string)
    (map : gmap string string) (rootCategory : Category) (project : string)
  : Category * string :=
  if String.eqb project General then
    (if is_available availableCategories rootCategory
     then rootCategory else Plain (JS.first availableCategories),
     project)
  else
    match index_get map project with
    | Obj.Own c =>
        if JS.truthy c then (Plain (Some c), project)
        else
          (if is_available availableCategories rootCategory
           then rootCategory else Plain (JS.first availableCategories),
           General)
    | Obj.Proto => (Builtin project, project)
    | Obj.Absent =>
        (if is_available availableCategories rootCategory
         then rootCategory else Plain (JS.first availableCategories),
         General)
    end.

(* ===================================================================== *)
(** ** The host: calendar, collation and JSON *)
(* ===================================================================== *)

(** What a [Date] shows in the local time zone. *)
Record LocalDate := {
  getFullYear : Z;
  getMonth : Z;       (* 0 .. 11 *)
  getDate : Z         (* 1 .. 31 *)
}.

(** The services of the browser that the code calls and that are not part
    of the repository.  A [Date] is its time value ([getTime()], in
    milliseconds). *)
Class Host := {
  (** the local calendar fields of a time value *)
  local : Z -> LocalDate;
  (** [d.setHours(0,0,0,0)]: the local midnight that starts the day of [d] *)
  setHours0 : Z -> Z;
  (** [JSON.parse(s) as ProcessingResult]; [None] when it throws *)
  JSON_parse_processing : string -> option ProcessingResult;
  (** [JSON.parse(s) as PlanningResult]; [None] when it throws *)
  JSON_parse_planning : string -> option PlanningResult;
  (** [a.localeCompare(b)] *)
  localeCompare : string -> string -> Z
}.

(** [formatDate]: [`${year}.${month}.${day}`] with month and day padded. *)
Definition format_fields (d : LocalDate) : string :=
  JS.of_int (getFullYear d) +:+ "." +:+
  JS.padStart2 (JS.of_int (getMonth d + 1)) +:+ "." +:+
  JS.padStart2 (JS.of_int (getDate d)).

Definition formatDate `{Host} (ts : Z) : string := format_fields (local ts).

(* ===================================================================== *)
(** ** The gateway wrapper ([services/geminiService.ts]) *)
(* ===================================================================== *)

(** How a promise settles. *)
Inductive Outcome (A : Type) :=
| Resolved (value : A)
| Rejected (error : string).
Arguments Resolved {A} value.
Arguments Rejected {A} error.

(** [s.replace(/\s*```$/, '')] *)
Definition strip_fence_end (l : list ascii) : list ascii :=
  match rev l with
  | "`"%char :: "`"%char :: "`"%char :: r => rev (JS.skip_white r)
  | _ => l
  end.

(** [cleanJson] *)
Definition cleanJson (text : string) : string :=
  if negb (JS.truthy text) then "{}"
  else
    let clean := JS.trim text in
    if JS.startsWith clean "```json" then
      JS.str (strip_fence_end (JS.skip_white (skipn 7 (JS.chars clean))))
    else if JS.startsWith clean "```" then
      JS.str (strip_fence_end (JS.skip_white (skipn 3 (JS.chars clean))))
    else clean.

(** [processInput], from the settlement of [ai.models.generateContent]
    on: [reply] is [response.text] when the request resolved.  The request
    (prompt, schema, hierarchy) leaves the program and is not modelled. *)
Definition processInput `{Host} (reply : Outcome (option string))
  : Outcome ProcessingResult :=
  match reply with
  | Rejected error => Rejected error
  | Resolved jsonText =>
      match jsonText with
      | Some text =>
          if JS.truthy text then
            match JSON_parse_processing (cleanJson text) with
            | Some result => Resolved result
            | None => Rejected "Failed to parse AI response."
            end
          else Rejected "No response from AI"
      | None => Rejected "No response from AI"
      end
  end.

(** [generatePlan], likewise. *)
Definition generatePlan `{Host} (reply : Outcome (option string))
  : Outcome PlanningResult :=
  match reply with
  | Rejected error => Rejected error
  | Resolved jsonText =>
      match jsonText with
      | Some text =>
          if JS.truthy text then
            match JSON_parse_planning (cleanJson text) with
            | Some planning => Resolved planning
            | None => Rejected "SyntaxError"
            end
          else Rejected "No response from AI"
      | None => Rejected "No response from AI"
      end
  end.

(* ===================================================================== *)
(** ** The repository and its handlers ([App.tsx]) *)
(* ===================================================================== *)

(** [App.tsx] holds two revisions of the component: [RevA] is lines 1-650
    (with persistence), [RevB] lines 651-2160.  The handlers agree but for
    the points where a definition below takes the revision. *)
Inductive Revision := RevA | RevB.

(** The three collections held by the component. *)
Record Repo := {
  memories : list Memory;
  tasks : list Task;
  availableCategories : list string
}.

(** The defaults of [useState] in [RevA] when the storage is empty, and
    the state of [RevB] once its mock data is in place. *)
Definition defaultCategories : list string :=
  ["Travel"; "Learning"; "Inspiration"; "Work"; "Life"].

Definition initialRepoA : Repo :=
  {| memories := []; tasks := []; availableCategories := defaultCategories |}.

Definition initialRepoB (now1 now2 : Z) : Repo :=
  {| memories :=
       [ Memory.mk "mock1" "Mock" (Some "Travel") "Korea Trip" (Some "Seoul")
           note
           [ Item.mk "Gyeongbokgung Palace" "Sightseeing"
               "Wear Hanbok for free entry." (Some "Seoul") (Some 5) None
               (Some "2025.10.15") (Some pending) ]
           now1 [] None;
         Memory.mk "mock2" "Mock" (Some "Learning") "General" (Some "General")
           note
           [ Item.mk "Learn to rest" "Health" "Taking breaks is productive."
               None None None None (Some pending) ]
           now2 [] None ];
     tasks :=
       [ Task.mk "1" "Day 1: Check flights" 1 pending None;
         Task.mk "2" "Day 1: Pack luggage" 1 completed None ];
     availableCategories := defaultCategories |}.

(** [status === 'pending' ? 'completed' : 'pending'] *)
Definition flip (s : Status) : Status :=
  match s with pending => completed | completed => pending end.

(** The new status of an item in [handleTaskComplete].  [RevA] compares
    the field itself with ['pending']; [RevB] first defaults a missing
    field to ['pending']. *)
Definition toggled_status (rev : Revision) (s : option Status) : Status :=
  match rev, s with
  | _, Some st => flip st
  | RevA, None => pending
  | RevB, None => completed
  end.

(** [a[i]] for a numeric index that may be [NaN] ([None]), negative or
    out of range. *)
Definition at_index {A} (l : list A) (i : option Z) : option A :=
  match i with
  | Some z => if (z <? 0)%Z then None else l !! Z.to_nat z
  | None => None
  end.

(** The callback of [prev.map] in the memory branch of
    [handleTaskComplete]. *)
Definition toggle_in_memory (rev : Revision) (memId : string) (idx : option Z)
    (mem : Memory) : Memory :=
  if String.eqb (Memory.id mem) memId then
    let newContent := Memory.structuredContent mem in
    match at_index newContent idx, idx with
    | Some item, Some z =>
        Memory.with_structuredContent
          (<[Z.to_nat z := Item.with_status
                             (toggled_status rev (Item.status item)) item]>
             newContent) mem
    | _, _ => Memory.with_structuredContent newContent mem
    end
  else mem.

Definition handleTaskComplete (rev : Revision) (id : string)
    (isMemoryItem : bool) (r : Repo) : Repo :=
  if isMemoryItem then
    match JS.split "_" id with
    | memId :: rest =>
        let idx := JS.parseInt_opt (head rest) in
        {| memories := List.map (toggle_in_memory rev memId idx) (memories r);
           tasks := tasks r;
           availableCategories := availableCategories r |}
    | [] => r
    end
  else
    {| memories := memories r;
       tasks := List.map (fun t => if String.eqb (Task.id t) id
                                   then Task.with_status (flip (Task.status t)) t
                                   else t) (tasks r);
       availableCategories := availableCategories r |}.

(** [xs.filter((_, idx) => idx !== itemIndex)], counting from [i]. *)
Fixpoint filter_index {A} (itemIndex : Z) (i : nat) (xs : list A) : list A :=
  match xs with
  | [] => []
  | x :: xs' =>
      if (Z.of_nat i =? itemIndex)%Z then filter_index itemIndex (S i) xs'
      else x :: filter_index itemIndex (S i) xs'
  end.

(** The predicate of the final [filter] in [handleDeleteMemoryItem]. *)
Definition keeps (mem : Memory) : bool :=
  (negb (Nat.eqb (length (Memory.structuredContent mem)) 0)
   || String.eqb (Memory.originalText mem) ManualProjectCreation)%bool.

Definition delete_in_memory (memoryId : string) (itemIndex : Z) (mem : Memory)
  : Memory :=
  if String.eqb (Memory.id mem) memoryId
  then Memory.with_structuredContent
         (filter_index itemIndex 0 (Memory.structuredContent mem)) mem
  else mem.

Definition handleDeleteMemoryItem (memoryId : string) (itemIndex : Z)
    (prev : list Memory) : list Memory :=
  List.filter keeps (List.map (delete_in_memory memoryId itemIndex) prev).

(** [a[i] = x] on a copy of [a]: in range it replaces, at [a.length] it
    appends; further out the array would get holes, which the embedding
    does not represent ([None]). *)
Definition array_set {A} (i : nat) (x : A) (a : list A) : option (list A) :=
  if (i <? length a)%nat then Some (<[i := x]> a)
  else if (i =? length a)%nat then Some (a ++ [x])
  else None.

Definition handleUpdateMemoryItem (memoryId : string) (itemIndex : nat)
    (updatedItem : StructuredItem) (prev : list Memory)
  : option (list Memory) :=
  mapM (fun mem =>
          if String.eqb (Memory.id mem) memoryId then
            newContent ← array_set itemIndex updatedItem
                            (Memory.structuredContent mem);
            Some (Memory.with_structuredContent newContent mem)
          else Some mem) prev.

(** A handler returns the collections and the [alert]s it raised. *)
Definition Handled : Type := Repo * list string.

Definition handleAddCategory (tempCategoryName : string) (r : Repo) : Repo :=
  if negb (JS.truthy (JS.trim tempCategoryName)) then r
  else if JS.includes (JS.trim tempCategoryName) (availableCategories r) then r
  else {| memories := memories r;
          tasks := tasks r;
          availableCategories :=
            availableCategories r ++ [JS.trim tempCategoryName] |}.

Definition handleDeleteCategory (rev : Revision) (cat : string) (r : Repo)
  : Handled :=
  if (length (availableCategories r) <=? 1)%nat then
    (r, [match rev with
         | RevA => "Keep at least one category."
         | RevB => "You must have at least one category."
         end])
  else
    ({| memories := memories r;
        tasks := tasks r;
        availableCategories :=
          List.filter (fun c => negb (String.eqb c cat))
                      (availableCategories r) |}, []).

Definition handleUpdateCategoryName (oldName newName : string) (r : Repo)
  : Repo :=
  if (negb (JS.truthy (JS.trim newName)) || String.eqb newName oldName)%bool
  then r
  else
    {| memories :=
         List.map (fun m =>
                     match Memory.rootCategory m with
                     | Plain (Some c) =>
                         if String.eqb c oldName
                         then Memory.with_rootCategory newName m
                         else m
                     | _ => m
                     end) (memories r);
       tasks := tasks r;
       availableCategories :=
         List.map (fun c => if String.eqb c oldName then newName else c)
                  (availableCategories r) |}.

(** [handleAddProject(targetCategory?)].  [clock] gives the successive
    readings of [Date.now()]. *)
Definition handleAddProject `{Host} (rev : Revision)
    (targetCategory : option string)
    (tempProjectName newProjectName newProjectCategory : string)
    (clock : nat -> Z) (r : Repo) : Handled :=
  let cat := JS.or_else targetCategory newProjectCategory in
  let name := if JS.truthy_opt targetCategory
              then tempProjectName else newProjectName in
  let trimmedName := JS.trim name in
  if negb (JS.truthy trimmedName) then (r, [])
  else if negb (isProjectNameGloballyUnique (memories r) trimmedName) then
    (r, [match rev with
         | RevA => "Project exists."
         | RevB => "Project " +:+ JS.dquote +:+ trimmedName +:+ JS.dquote +:+
                   " already exists in another category. Project names must be unique."
         end])
  else
    let newMem :=
      Memory.mk (JS.of_int (clock 0%nat)) ManualProjectCreation (Some cat)
        trimmedName (Some "General") note
        [ Item.mk "Project Initialized" "System"
            (match rev with
             | RevA => "Start adding memories."
             | RevB => "Start adding memories to this project."
             end)
            None None None (Some (formatDate (clock 2%nat))) (Some pending) ]
        (clock 1%nat) [] None in
    ({| memories := newMem :: memories r;
        tasks := tasks r;
        availableCategories := availableCategories r |}, []).

Definition handleDeleteProject (projectName : string) (prev : list Memory)
  : list Memory :=
  List.filter (fun m => negb (String.eqb (Memory.project m) projectName)) prev.

Definition handleUpdateProjectName (rev : Revision) (oldName newName : string)
    (r : Repo) : Handled :=
  if (negb (JS.truthy (JS.trim newName)) || String.eqb newName oldName)%bool
  then (r, [])
  else if negb (isProjectNameGloballyUnique (memories r) (JS.trim newName))
  then (r, [match rev with
            | RevA => "Project exists."
            | RevB => "Project name already exists."
            end])
  else
    ({| memories :=
          List.map (fun m => if String.eqb (Memory.project m) oldName
                             then Memory.with_project (JS.trim newName) m
                             else m) (memories r);
        tasks := tasks r;
        availableCategories := availableCategories r |}, []).

(** The planning branch of [handleProcessInput]: the tasks made of a plan. *)
Definition plan_tasks (clock : nat -> Z) (p : PlanningResult) : list Task :=
  imap (fun idx t =>
          Task.mk (JS.of_int (clock idx) +:+ JS.of_int (Z.of_nat idx))
                  ("Day " +:+ JS.of_int (fst t) +:+ ": " +:+ snd t)
                  (fst t) pending None)
       (PlanningResult.tasks p).

(** The classification branch of [handleProcessInput]: the Memory made of
    a gateway result, after validation against the hierarchy.  [captured]
    is the state the handler was created with: [hierarchy] was computed
    from it before the call, and [availableCategories] is read from it
    after. *)
Definition new_memory (captured : Repo) (hierarchy : Obj.t (list string))
    (inputText : string) (selectedImage : option string) (clock : nat -> Z)
    (result : ProcessingResult) : Memory :=
  let final :=
    reconcile (availableCategories captured) (projectToCategoryMap hierarchy)
      (Some (ProcessingResult.rootCategory result))
      (ProcessingResult.project result) in
  Memory.mk (JS.of_int (clock 0%nat)) inputText (fst final) (snd final)
    (Some (ProcessingResult.subProject result))
    (ProcessingResult.type result)
    (List.map (Item.with_status pending) (ProcessingResult.items result))
    (clock 1%nat)
    (ProcessingResult.tags result)
    (if JS.truthy_opt selectedImage then selectedImage else None).

(** The test that routes an input to the planner. *)
Definition isGoal (inputText : string) : bool :=
  (JS.str_includes (JS.toLowerCase inputText) "want to"
   || JS.str_includes (JS.toLowerCase inputText) "plan to"
   || JS.str_includes (JS.toLowerCase inputText) "days")%bool.

Definition goes_to_planner (inputText : string)
    (selectedImage : option string) : bool :=
  (isGoal inputText && (String.length inputText <? 100)%nat
   && negb (JS.str_includes inputText "/")
   && negb (JS.truthy_opt selectedImage))%bool.

(** The guard that opens [handleProcessInput]; only [RevA] knows
    [isCompressingImage]. *)
Definition ignores (rev : Revision) (inputText : string)
    (selectedImage : option string) (isCompressingImage : bool) : bool :=
  ((negb (JS.truthy (JS.trim inputText)) && negb (JS.truthy_opt selectedImage))
   || match rev with RevA => isCompressingImage | RevB => false end)%bool.

(** What the [try] block of [handleProcessInput] does once the hierarchy
    is derived and the awaited call of its branch has settled. *)
Definition settled (inputText : string) (selectedImage : option string)
    (clock : nat -> Z) (failure : string)
    (planning : Outcome PlanningResult)
    (processing : Outcome ProcessingResult)
    (captured : Repo) (hierarchy : Obj.t (list string)) (prev : Repo)
  : Handled :=
  if goes_to_planner inputText selectedImage then
    match planning with
    | Resolved p =>
        ({| memories := memories prev;
            tasks := tasks prev ++ plan_tasks clock p;
            availableCategories := availableCategories prev |}, [])
    | Rejected _ => (prev, [failure])
    end
  else
    match processing with
    | Resolved result =>
        ({| memories :=
              new_memory captured hierarchy inputText selectedImage clock
                         result
              :: memories prev;
            tasks := tasks prev;
            availableCategories := availableCategories prev |}, [])
    | Rejected _ => (prev, [failure])
    end.

(** [handleProcessInput].  [planning] and [processing] are the
    settlements of the two awaited gateway calls; the branch taken
    consumes one of them.  [captured] is the state in the closure of the
    handler, [prev] the state that the functional updates
    ([setMemories(prev => ...)], [setTasks(prev => ...)]) receive once the
    call has settled.  The hierarchy is derived first, inside the [try]:
    when that throws, no call is made and the [catch] raises the notice.
    Where the derivation is not traced, the handler is traced only when
    the call of its branch fails: the [catch] runs whether the derivation
    threw or the call did. *)
Definition handleProcessInput (rev : Revision) (inputText : string)
    (selectedImage : option string) (isCompressingImage : bool)
    (clock : nat -> Z)
    (planning : Outcome PlanningResult)
    (processing : Outcome ProcessingResult) (captured prev : Repo)
  : Completion Handled :=
  let failure := match rev with
                 | RevA => "Processing failed. Check API key or input size."
                 | RevB => "Failed to process input. Please try again."
                 end in
  if ignores rev inputText selectedImage isCompressingImage
  then Returns (prev, [])
  else
    match getProjectHierarchy (availableCategories captured)
                              (memories captured) with
    | Returns hierarchy =>
        Returns (settled inputText selectedImage clock failure planning
                   processing captured hierarchy prev)
    | Throws => Returns (prev, [failure])
    | Untraced =>
        match (if goes_to_planner inputText selectedImage
               then match planning with
                    | Resolved _ => true
                    | Rejected _ => false
                    end
               else match processing with
                    | Resolved _ => true
                    | Rejected _ => false
                    end) with
        | true => Untraced
        | false => Returns (prev, [failure])
        end
    end.

(** *** The repository as a transition system *)

(** The events that reach the handlers, with the arguments the component
    passes along. *)
Inductive Event :=
| ProcessInput (inputText : string) (selectedImage : option string)
    (isCompressingImage : bool) (clock : nat -> Z)
    (planning : Outcome PlanningResult) (processing : Outcome ProcessingResult)
| TaskComplete (id : string) (isMemoryItem : bool)
| DeleteMemoryItem (memoryId : string) (itemIndex : Z)
| UpdateMemoryItem (memoryId : string) (itemIndex : nat)
    (updatedItem : StructuredItem)
| AddCategory (tempCategoryName : string)
| DeleteCategory (cat : string)
| UpdateCategoryName (oldName newName : string)
| AddProject (targetCategory : option string)
    (tempProjectName newProjectName newProjectCategory : string)
    (clock : nat -> Z)
| DeleteProject (projectName : string)
| UpdateProjectName (oldName newName : string).

(** [setMemories] alone. *)
Definition with_memories (ms : list Memory) (r : Repo) : Repo :=
  {| memories := ms; tasks := tasks r;
     availableCategories := availableCategories r |}.

(** The projects the structure manager shows, each with its rename box and
    delete button: those of [getProjectHierarchy()], when it returns
    one. *)
Definition listed (r : Repo) (projectName : string) : bool :=
  match getProjectHierarchy (availableCategories r) (memories r) with
  | Returns hierarchy =>
      existsb (fun e => JS.includes projectName (snd e)) hierarchy
  | _ => false
  end.

(** What an event does to the collections, in the runs where each
    handler is one step: a gateway call settles before the next event, so
    the state its handler captured is still the current one.  [None] when
    the component cannot raise the event in that state (a project is
    renamed from the box next to its name in the structure manager, and
    an item is edited from its own card, so an edit never writes past the
    end of the item array), and when the handler is not traced.
    [handleUpdateCategoryName] has no call site in either revision; its
    event is the category rename of section 3, with any two names. *)
Definition apply `{Host} (rev : Revision) (e : Event) (r : Repo)
  : option Handled :=
  match e with
  | ProcessInput inputText selectedImage isCompressingImage clock planning
                 processing =>
      match handleProcessInput rev inputText selectedImage isCompressingImage
              clock planning processing r r with
      | Returns handled => Some handled
      | _ => None
      end
  | TaskComplete id isMemoryItem =>
      Some (handleTaskComplete rev id isMemoryItem r, [])
  | DeleteMemoryItem memoryId itemIndex =>
      Some (with_memories
              (handleDeleteMemoryItem memoryId itemIndex (memories r)) r, [])
  | UpdateMemoryItem memoryId itemIndex updatedItem =>
      ms ← handleUpdateMemoryItem memoryId itemIndex updatedItem (memories r);
      Some (with_memories ms r, [])
  | AddCategory tempCategoryName =>
      Some (handleAddCategory tempCategoryName r, [])
  | DeleteCategory cat => Some (handleDeleteCategory rev cat r)
  | UpdateCategoryName oldName newName =>
      Some (handleUpdateCategoryName oldName newName r, [])
  | AddProject targetCategory tempProjectName newProjectName
               newProjectCategory clock =>
      Some (handleAddProject rev targetCategory tempProjectName newProjectName
              newProjectCategory clock r)
  | DeleteProject projectName =>
      Some (with_memories (handleDeleteProject projectName (memories r)) r, [])
  | UpdateProjectName oldName newName =>
      if listed r oldName
      then Some (handleUpdateProjectName rev oldName newName r)
      else None
  end.

(** A sequence of events, from left to right. *)
Fixpoint run `{Host} (rev : Revision) (es : list Event) (r : Repo)
  : option Repo :=
  match es with
  | [] => Some r
  | e :: es' =>
      match apply rev e r with
      | Some (r', _) => run rev es' r'
      | None => None
      end
  end.

(** Where a session starts: [RevA] with the defaults (or with what an
    earlier session stored, which is a state that session reached);
    [RevB] with its mock data. *)
Definition initial (rev : Revision) (r : Repo) : Prop :=
  match rev with
  | RevA => r = initialRepoA
  | RevB => exists now1 now2, r = initialRepoB now1 now2
  end.

Definition reachable `{Host} (rev : Revision) (r : Repo) : Prop :=
  exists r0 es, initial rev r0 /\ run rev es r0 = Some r.

(** The events some control of the component raises:
    [handleUpdateCategoryName] is the one handler with no call site. *)
Definition wired (e : Event) : bool :=
  match e with
  | UpdateCategoryName _ _ => false
  | _ => true
  end.

(** The states a user can bring the component to, followed as far as the
    category list needs.  An event of a control is one step.  A gateway
    call settles in whatever state the component is in by then, its
    handler having captured an earlier one ([reached_settled]); where the
    handler is not traced it still has no call of
    [setAvailableCategories], and what it makes of the Memories and the
    Tasks is left open ([reached_untraced]).  A restart of [RevA] reads
    each collection from its own storage key: the category list is one
    that an earlier state wrote there ([JSON.parse] of [JSON.stringify]
    of an array of strings is that array), and what the Memories and the
    Tasks read as is left open ([reached_restart]); a restart of [RevB],
    which stores nothing, is a start. *)
Inductive reached `{Host} (rev : Revision) : Repo -> Prop :=
| reached_initial r : initial rev r -> reached rev r
| reached_event e r r' notices :
    reached rev r -> wired e = true ->
    apply rev e r = Some (r', notices) ->
    reached rev r'
| reached_settled inputText selectedImage isCompressingImage clock planning
                  processing captured r r' notices :
    reached rev captured -> reached rev r ->
    handleProcessInput rev inputText selectedImage isCompressingImage clock
      planning processing captured r = Returns (r', notices) ->
    reached rev r'
| reached_untraced inputText selectedImage isCompressingImage clock planning
                   processing captured r ms ts :
    reached rev captured -> reached rev r ->
    handleProcessInput rev inputText selectedImage isCompressingImage clock
      planning processing captured r = Untraced ->
    reached rev {| memories := ms; tasks := ts;
                   availableCategories := availableCategories r |}
| reached_restart r ms ts :
    rev = RevA -> reached rev r ->
    reached rev {| memories := ms; tasks := ts;
                   availableCategories := availableCategories r |}.

(* ===================================================================== *)
(** ** Derived views ([App.tsx]) *)
(* ===================================================================== *)

(** [xs.sort(cmp)]: the sort of the language is stable; an element goes
    before the first one it does not compare greater than.  (For a
    comparator that is not a consistent order the language leaves the
    result to the engine.) *)
Fixpoint sort_insert {A} (cmp : A -> A -> Z) (x : A) (l : list A) : list A :=
  match l with
  | [] => [x]
  | y :: l' => if (0 <? cmp x y)%Z then y :: sort_insert cmp x l' else x :: l
  end.

Fixpoint sort {A} (cmp : A -> A -> Z) (l : list A) : list A :=
  match l with
  | [] => []
  | x :: l' => sort_insert cmp x (sort cmp l')
  end.

(** [Array.from(new Set(xs))]: first occurrences, in order. *)
Definition distinct (xs : list string) : list string :=
  fold_left (fun seen x => if JS.includes x seen then seen else seen ++ [x])
            xs [].

(** *** Backward delete in the input box *)

(** The tags [handleKeyDown] looks for, longest first. *)
Definition allTags (availableCategories : list string)
    (memories : list Memory) : list string :=
  let existingProjects :=
    List.filter JS.truthy (distinct (List.map Memory.project memories)) in
  sort (fun a b => Z.of_nat (String.length b) - Z.of_nat (String.length a))
       (availableCategories ++ existingProjects).

(** The [for] loop: the first tag the text ends with. *)
Definition matchedTag (tags : list string) (textBefore : string)
  : option string :=
  List.find (fun tag => JS.endsWith textBefore ("/" +:+ tag)) tags.

(** [handleKeyDown].  [Some (newText, newCursorPos)] when the handler
    prevents the default and rewrites the input; [None] when it leaves the
    key to the text area. *)
Definition handleKeyDown (key : string) (selectionStart selectionEnd : nat)
    (inputText : string) (availableCategories : list string)
    (memories : list Memory) : option (string * Z) :=
  if String.eqb key "Backspace" then
    let cursor := selectionStart in
    if negb (Nat.eqb cursor selectionEnd) then None
    else
      let textBefore := JS.slice inputText 0 (Z.of_nat cursor) in
      match matchedTag (allTags availableCategories memories) textBefore with
      | Some tag =>
          if JS.truthy tag then
            let tagLength := Z.of_nat (String.length tag) + 1 in
            Some (JS.slice inputText 0 (Z.of_nat cursor - tagLength)
                    +:+ JS.slice_from inputText (Z.of_nat cursor),
                  Z.of_nat cursor - tagLength)
          else None
      | None => None
      end
  else None.

(** *** Agenda of the selected date *)

(** An entry of [allItems] in [renderTodayView]. *)
Record AgendaItem := {
  agenda_id : string;
  agenda_title : string;
  agenda_status : Status;
  isMemory : bool;
  tag : Category;
  agenda_day : option Z;
  agenda_feedback : option string
}.

Definition MS_PER_DAY : Z := 1000 * 60 * 60 * 24.

(** [Math.ceil(a / b)] for integers [a] and [b > 0] (exact as long as the
    quotient of the two doubles is, which holds for any two dates less
    than a hundred thousand years apart). *)
Definition ceil_div (a b : Z) : Z := - ((- a) / b).

(** [planDayNumber] *)
Definition planDayNumber `{Host} (now selectedDate : Z) : Z :=
  let today := setHours0 now in
  let diffTime := selectedDate - today in
  let diffDays := ceil_div diffTime MS_PER_DAY in
  diffDays + 1.

Definition standardTasks `{Host} (now selectedDate : Z) (tasks : list Task)
  : list Task :=
  List.filter (fun t => (Task.day t =? planDayNumber now selectedDate)%Z) tasks.

Definition targets (formatted : string) (item : StructuredItem) : bool :=
  match Item.targetDate item with
  | Some d => String.eqb d formatted
  | None => false
  end.

(** The entries one Memory contributes to [memoryTasks]. *)
Definition memoryTasks_of (formatted : string) (mem : Memory)
  : list AgendaItem :=
  omap (fun x => x)
    (imap (fun idx item =>
             if targets formatted item then
               Some {| agenda_id :=
                         Memory.id mem +:+ "_" +:+ JS.of_int (Z.of_nat idx);
                       agenda_title := Item.title item;
                       agenda_status :=
                         match Item.status item with
                         | Some st => st
                         | None => pending
                         end;
                       isMemory := true;
                       tag := if String.eqb (Memory.project mem) General
                              then Memory.rootCategory mem
                              else Some (Memory.project mem);
                       agenda_day := None;
                       agenda_feedback := None |}
             else None)
          (Memory.structuredContent mem)).

Definition memoryTasks (formatted : string) (memories : list Memory)
  : list AgendaItem :=
  List.concat (List.map (memoryTasks_of formatted) memories).

Definition of_task (t : Task) : AgendaItem :=
  {| agenda_id := Task.id t;
     agenda_title := Task.title t;
     agenda_status := Task.status t;
     isMemory := false;
     tag := Some "Coach Plan";
     agenda_day := Some (Task.day t);
     agenda_feedback := Task.feedback t |}.

(** [allItems] of [renderTodayView]: [now] is the time of rendering,
    [selectedDate] the time value of the selected [Date]. *)
Definition allItems `{Host} (now selectedDate : Z) (r : Repo)
  : list AgendaItem :=
  List.map of_task (standardTasks now selectedDate (tasks r))
  ++ memoryTasks (formatDate selectedDate) (memories r).

(** *** Memory browser *)

(** What a [MemoryCard] is given. *)
Record Card := {
  card_item : StructuredItem;
  displayDate : string;
  memoryId : string;
  idx : nat;
  card_image : option string
}.

(** A sub-project block inside an open folder. *)
Record SubBlock := {
  subProjectName : string;
  header : bool;
  cards : list Card
}.

Record Folder := {
  projectName : string;
  count : nat;                          (* the "n items" badge *)
  content : option (list SubBlock)      (* [None] while collapsed *)
}.

Record MemoryView := {
  general : option (list (list Card));  (* the flat list, one run per sub-project *)
  folders : list Folder
}.

(** [(m.rootCategory || 'Inspiration') === selectedRootCategory]: a
    built-in is truthy and equal to no string. *)
Definition in_category (selectedRootCategory : string) (m : Memory) : bool :=
  match Memory.rootCategory m with
  | Plain c => String.eqb (JS.or_else c "Inspiration") selectedRootCategory
  | Builtin _ => false
  end.

Definition filteredMemories (selectedRootCategory : string)
    (memories : list Memory) : list Memory :=
  if String.eqb selectedRootCategory "All" then memories
  else List.filter (in_category selectedRootCategory) memories.

(** The body of [filteredMemories.forEach].  For a project whose name is
    on the prototype and no own key yet, [groupedData[proj]] is a
    built-in and the Memory is filed on it; for such a sub-project,
    [groupedData[proj][sub].push] is not a function. *)
Definition group_step (groupedData : Obj.t (Obj.t (list Memory)))
    (memory : Memory) : Completion (Obj.t (Obj.t (list Memory))) :=
  let proj := if JS.truthy (Memory.project memory)
              then Memory.project memory else General in
  let sub := JS.or_else (Memory.subProject memory) General in
  match Obj.lookup proj groupedData with
  | Obj.Proto => Untraced
  | found =>
      let subs := match found with Obj.Own subs => subs | _ => [] end in
      match Obj.lookup sub subs with
      | Obj.Proto => Throws
      | Obj.Own filed =>
          Returns (Obj.set proj (Obj.set sub (filed ++ [memory]) subs)
                           groupedData)
      | Obj.Absent =>
          Returns (Obj.set proj (Obj.set sub [memory] subs) groupedData)
      end
  end.

(** The loop over the Memories to show, from an empty [groupedData]. *)
Definition grouped (ms : list Memory)
  : Completion (Obj.t (Obj.t (list Memory))) :=
  fold_left (fun acc memory => and_then acc (fun g => group_step g memory))
            ms (Returns []).

Definition groupedData (selectedRootCategory : string)
    (memories : list Memory) : Completion (Obj.t (Obj.t (list Memory))) :=
  grouped (filteredMemories selectedRootCategory memories).

(** The cards of one Memory, in item order. *)
Definition cards_of `{Host} (mem : Memory) : list Card :=
  imap (fun i item =>
          {| card_item := item;
             displayDate := JS.or_else (Item.targetDate item)
                                       (formatDate (Memory.createdAt mem));
             memoryId := Memory.id mem;
             idx := i;
             card_image := Memory.attachedImage mem |})
       (Memory.structuredContent mem).

(** [flatItems] of a sub-project: [RevB] sorts it by date string with
    [localeCompare]; [RevA] renders it as collected. *)
Definition flatItems `{Host} (rev : Revision) (rawMemories : list Memory)
  : list Card :=
  let collected := List.concat (List.map cards_of rawMemories) in
  match rev with
  | RevA => collected
  | RevB => sort (fun a b => localeCompare (displayDate a) (displayDate b))
                 collected
  end.

Definition folder_of `{Host} (rev : Revision) (expandedProjects : list string)
    (entry : string * Obj.t (list Memory)) : Folder :=
  let subProjects := snd entry in
  {| projectName := fst entry;
     count := fold_left (fun acc curr => (acc + length curr)%nat)
                        (Obj.values subProjects) 0%nat;
     content :=
       if JS.includes (fst entry) expandedProjects then
         Some (List.map
                 (fun sub =>
                    {| subProjectName := fst sub;
                       header :=
                         (negb (String.eqb (fst sub) General)
                          || (1 <? length (Obj.keys subProjects))%nat)%bool;
                       cards := flatItems rev (snd sub) |})
                 (Obj.entries subProjects))
       else None |}.

(** The list part of [renderMemoryView], from the grouped Memories. *)
Definition memory_list `{Host} (rev : Revision)
    (expandedProjects : list string) (g : Obj.t (Obj.t (list Memory)))
  : MemoryView :=
  {| general :=
       match Obj.get General g with
       | Some subs =>
           Some (List.map (fun mems => List.concat (List.map cards_of mems))
                          (Obj.values subs))
       | None => None
       end;
     folders :=
       List.map (folder_of rev expandedProjects)
         (List.filter (fun e => negb (String.eqb (fst e) General))
                      (Obj.entries g)) |}.

Definition renderMemoryView `{Host} (rev : Revision)
    (selectedRootCategory : string) (expandedProjects : list string)
    (memories : list Memory) : Completion MemoryView :=
  and_then (groupedData selectedRootCategory memories)
           (fun g => Returns (memory_list rev expandedProjects g)).

(* ===================================================================== *)
(** ** More of the gateway wrapper ([services/geminiService.ts]) *)
(* ===================================================================== *)

(** [enrichedHierarchy] of [processInput]: "General" is added to the
    projects of every category that lacks it. *)
Definition enrich (projects : list string) : list string :=
  if JS.includes General projects then projects else projects ++ [General].

Definition enrichedHierarchy (hierarchy : Obj.t (list string))
  : Obj.t (list string) :=
  fold_left
    (fun enriched cat =>
       Obj.set cat (enrich (default [] (Obj.get cat hierarchy))) enriched)
    (Obj.keys hierarchy) [].

(** The two [enum]s of the response schema. *)
Definition safeCategories (hierarchy : Obj.t (list string)) : list string :=
  let validCategories := Obj.keys (enrichedHierarchy hierarchy) in
  if (0 <? length validCategories)%nat then validCategories else ["General"].

Definition safeProjects (hierarchy : Obj.t (list string)) : list string :=
  let allValidProjects :=
    distinct (List.concat (Obj.values (enrichedHierarchy hierarchy))) in
  if (0 <? length allValidProjects)%nat then allValidProjects
  else ["General"].

(** [getAgentResponse], from the settlement of the request on: it lets
    no failure through. *)
Definition getAgentResponse (reply : Outcome (option string)) : string :=
  match reply with
  | Resolved responseText => JS.or_else responseText "I'm listening!"
  | Rejected _ => "MyOS is temporarily unavailable. Please try again."
  end.

(* ===================================================================== *)
(** ** More of the component ([App.tsx]) *)
(* ===================================================================== *)

(** *** The chat *)

Module Chat.
Inductive Role := user | model.
Record Message := mk {
  role : Role;
  text : string;
  timestamp : Z
}.
End Chat.

Definition Thinking : string := "Thinking...".

Definition is_thinking (msg : Chat.Message) : bool :=
  match Chat.role msg with
  | Chat.model => String.eqb (Chat.text msg) Thinking
  | Chat.user => false
  end.

(** [prev.map(msg => role === 'model' && text === "Thinking..." ?
    { ...msg, text: reply, timestamp: Date.now() } : msg)]; [n] counts the
    readings of the clock. *)
Fixpoint replace_thinking (reply : string) (clock : nat -> Z) (n : nat)
    (prev : list Chat.Message) : list Chat.Message :=
  match prev with
  | [] => []
  | msg :: rest =>
      if is_thinking msg
      then Chat.mk (Chat.role msg) reply (clock n)
           :: replace_thinking reply clock (S n) rest
      else msg :: replace_thinking reply clock n rest
  end.

(** [handleSendChatMessage], as one step: [reply] is the settlement of
    [getAgentResponse], and no other update of the chat comes between the
    three of the handler. *)
Definition handleSendChatMessage (chatInput : string) (clock : nat -> Z)
    (reply : Outcome string) (coachChat : list Chat.Message)
  : list Chat.Message :=
  if negb (JS.truthy (JS.trim chatInput)) then coachChat
  else
    let asked :=
      (coachChat ++ [Chat.mk Chat.user chatInput (clock 0%nat)])
      ++ [Chat.mk Chat.model Thinking (clock 1%nat)] in
    match reply with
    | Resolved answer => replace_thinking answer clock 2 asked
    | Rejected _ =>
        List.filter (fun msg => negb (String.eqb (Chat.text msg) Thinking))
                    asked
    end.

(** *** Folders *)

(** A [Set] of strings, as the list of its elements in insertion order. *)
Definition set_add (x : string) (s : list string) : list string :=
  if JS.includes x s then s else s ++ [x].

Definition set_delete (x : string) (s : list string) : list string :=
  List.filter (fun y => negb (String.eqb y x)) s.

(** [toggleFolder] *)
Definition toggleFolder (projectName : string) (expandedProjects : list string)
  : list string :=
  if JS.includes projectName expandedProjects
  then set_delete projectName expandedProjects
  else set_add projectName expandedProjects.

(** *** Tag suggestions while typing *)

(** The state of the suggestion box (its position on screen, measured in
    the page, is left out). *)
Record TagUI := {
  ui_inputText : string;
  showTagSuggestions : bool;
  tagSearchTerm : string;
  activeTagIndex : option nat
}.

(** [l.lastIndexOf(c)], counting from [i]. *)
Fixpoint last_index_from (c : ascii) (l : list ascii) (i : nat)
  : option nat :=
  match l with
  | [] => None
  | x :: l' =>
      match last_index_from c l' (S i) with
      | Some j => Some j
      | None => if Ascii.eqb x c then Some i else None
      end
  end.

Definition lastIndexOf (c : ascii) (s : string) : option nat :=
  last_index_from c (JS.chars s) 0.

(** [handleInputChange] of [RevA]: [val] is the new value of the text
    area, [cursor] its [selectionStart]. *)
Definition handleInputChangeA (val : string) (cursor : nat) : TagUI :=
  let textBefore := JS.slice val 0 (Z.of_nat cursor) in
  let closed := {| ui_inputText := val; showTagSuggestions := false;
                   tagSearchTerm := EmptyString; activeTagIndex := None |} in
  match lastIndexOf "/" textBefore with
  | Some lastSlashIndex =>
      let textAfterSlash :=
        JS.slice_from textBefore (Z.of_nat lastSlashIndex + 1) in
      if (negb (JS.str_includes textAfterSlash (String "010" EmptyString))
          && (String.length textAfterSlash <? 50)%nat)%bool
      then {| ui_inputText := val; showTagSuggestions := true;
              tagSearchTerm := textAfterSlash;
              activeTagIndex := Some lastSlashIndex |}
      else closed
  | None => closed
  end.

(** [handleTagSelection] of [RevA]: the new state and, when the tag was
    inserted, the cursor position set afterwards. *)
Definition handleTagSelectionA (tag : string) (ui : TagUI)
  : TagUI * option Z :=
  match activeTagIndex ui with
  | None => (ui, None)
  | Some index =>
      let beforeTag := JS.slice (ui_inputText ui) 0 (Z.of_nat index) in
      let afterTag :=
        JS.slice_from (ui_inputText ui)
          (Z.of_nat index + 1 + Z.of_nat (String.length (tagSearchTerm ui))) in
      ({| ui_inputText := beforeTag +:+ "/" +:+ tag +:+ " " +:+ afterTag;
          showTagSuggestions := false;
          tagSearchTerm := EmptyString;
          activeTagIndex := None |},
       Some (Z.of_nat index + 1 + Z.of_nat (String.length tag) + 1))
  end.

(** [handleInputChange] of [RevB]: the new value and whether the box
    shows, given whether it showed. *)
Definition handleInputChangeB (val : string) (showTagSuggestions : bool)
  : string * bool :=
  (val,
   if JS.endsWith (JS.trim val) "/" then true
   else if JS.endsWith (JS.trim val) " " then false
   else showTagSuggestions).

(** [s.trimEnd()] *)
Definition trimEnd (s : string) : string :=
  JS.str (rev (JS.skip_white (rev (JS.chars s)))).

(** [handleTagSelection] of [RevB]: the new text (the box closes). *)
Definition handleTagSelectionB (tag : string) (prev : string) : string :=
  let trimmed := trimEnd prev in
  if JS.endsWith trimmed "/"
  then JS.slice trimmed 0 (-1) +:+ "/" +:+ tag +:+ " "
  else prev +:+ " /" +:+ tag +:+ " ".

(** The tags of the suggestion box and of the highlighter: the
    categories, then the projects but "General".  [RevB] offers them all;
    [RevA] offers all of them for an empty term, else those that contain
    it, case apart. *)
Definition suggestionTags (availableCategories : list string)
    (memories : list Memory) : list string :=
  availableCategories
  ++ List.filter (fun p => negb (String.eqb p General))
       (distinct (List.map Memory.project memories)).

Definition filteredSuggestions (tagSearchTerm : string)
    (availableCategories : list string) (memories : list Memory)
  : list string :=
  if JS.truthy tagSearchTerm
  then List.filter
         (fun t => JS.str_includes (JS.toLowerCase t)
                                   (JS.toLowerCase tagSearchTerm))
         (suggestionTags availableCategories memories)
  else suggestionTags availableCategories memories.

(** *** Highlighting *)

(** The alternatives of the pattern, in order: the tags, longest first
    (an empty list of tags joins to one empty alternative); the run of
    non-blank characters comes after them. *)
Definition highlightAlternatives (availableCategories : list string)
    (memories : list Memory) : list string :=
  match sort (fun a b => Z.of_nat (String.length b) - Z.of_nat (String.length a))
             (suggestionTags availableCategories memories) with
  | [] => [EmptyString]
  | tags => tags
  end.





(** *** The title shown on the agenda *)

Fixpoint digit_prefix (l : list ascii) : list ascii :=
  match l with
  | [] => []
  | c :: l' => match JS.digit c with
               | Some _ => c :: digit_prefix l'
               | None => []
               end
  end.

(** [title.replace(/^Day \d+:\s*/, '')] *)
Definition displayTitle (title : string) : string :=
  match JS.chars title with
  | "D"%char :: "a"%char :: "y"%char :: " "%char :: rest =>
      match digit_prefix rest with
      | [] => title
      | ds =>
          match skipn (length ds) rest with
          | ":"%char :: rest' => JS.str (JS.skip_white rest')
          | _ => title
          end
      end
  | _ => title
  end.

(* ===================================================================== *)
(** ** A concrete host: the UTC calendar *)
(* ===================================================================== *)

(** Calendar fields of a day number (days since 1970-01-01), proleptic
    Gregorian. *)
Definition civil_of_days (days : Z) : LocalDate :=
  let z := days + 719468 in
  let era := z / 146097 in
  let doe := z - era * 146097 in
  let yoe := (doe - doe / 1460 + doe / 36524 - doe / 146096) / 365 in
  let doy := doe - (365 * yoe + yoe / 4 - yoe / 100) in
  let mp := (5 * doy + 2) / 153 in
  let d := doy - (153 * mp + 2) / 5 + 1 in
  let m := if (mp <? 10)%Z then mp + 3 else mp - 9 in
  {| getFullYear := yoe + era * 400 + (if (m <=? 2)%Z then 1 else 0);
     getMonth := m - 1;
     getDate := d |}.

(** A browser whose time zone is UTC, whose collation is the code-unit
    order, and whose gateway never answers with JSON that parses. *)
Definition utc_host : Host :=
  {| local := fun ts => civil_of_days (ts / MS_PER_DAY);
     setHours0 := fun ts => ts - ts mod MS_PER_DAY;
     JSON_parse_processing := fun _ => None;
     JSON_parse_planning := fun _ => None;
     localeCompare := fun a b =>
       match String.compare a b with Lt => -1 | Eq => 0 | Gt => 1 end |}.

(* ===================================================================== *)
(** ** Notions used to state the properties *)
(* ===================================================================== *)

(** Category [c] owns project [p]: some Memory that the deriver counts
    carries the pair. *)
Definition owns (memories : list Memory) (c p : string) : Prop :=
  exists m, In m memories /\ Memory.rootCategory m = Some c
            /\ Memory.project m = p
            /\ JS.truthy c = true /\ JS.truthy p = true /\ p <> General.

(** Every project the hierarchy lists under a key has an owner there. *)
Definition hierarchy_sound_at (memories : list Memory)
    (h : Obj.t (list string)) : Prop :=
  forall c projs p, In (c, projs) h -> In p projs -> owns memories c p.

(** A listed project stays listed under its key. *)
Definition lists (h : Obj.t (list string)) (c p : string) : Prop :=
  exists projs, Obj.get c h = Some projs /\ In p projs.

(** Memory [m] is counted by the deriver, under category [c]. *)
Definition files (m : Memory) (c : string) : Prop :=
  Memory.rootCategory m = Some c /\ JS.truthy c = true
  /\ JS.truthy (Memory.project m) = true /\ Memory.project m <> General.

(** The Memories whose project the deriver looks at. *)
Definition counted (m : Memory) : bool :=
  (JS.truthy (Memory.project m)
   && negb (String.eqb (Memory.project m) General))%bool.

(** A Memory the deriver can file: when it is counted, its category is a
    string, and one that is in the category list if [Object.prototype]
    has a member of that name. *)
Definition files_well (cats : list string) (m : Memory) : bool :=
  match Memory.rootCategory m with
  | Plain (Some c) =>
      (negb (JS.truthy c && counted m && Obj.on_prototype c)
       || JS.includes c cats)%bool
  | Plain None => true
  | Builtin _ => negb (counted m)
  end.

(** The states in which [getProjectHierarchy] returns a hierarchy. *)
Definition derivable (cats : list string) (mems : list Memory) : bool :=
  (negb (JS.includes "__proto__" cats) && forallb (files_well cats) mems)%bool.

(** One round of the outer [forEach] that builds the reverse index. *)
Definition index_entry (acc : gmap string string)
    (e : string * list string) : gmap string string :=
  fold_left (fun acc' p => index_put acc' p (fst e)) (snd e) acc.

(** The category fallback: the declared category when it is known, else
    the first known one. *)
Definition fallback (availableCategories : list string) (c : string)
  : option string :=
  if JS.includes c availableCategories then Some c
  else JS.first availableCategories.

(** Section 4.2 in the words of the specification: the category
    fallback of step 2, and the three cases over a reverse index from
    project name to owning category. *)
Definition spec_fallback (categories : list string) (declared : string)
  : option string :=
  if decide (declared ∈ categories) then Some declared else head categories.

Definition spec_reconcile (categories : list string)
    (reverse_index : string -> option string)
    (declaredCategory declaredProject : string) : option string * string :=
  if decide (declaredProject = General) then
    (spec_fallback categories declaredCategory, General)
  else
    match reverse_index declaredProject with
    | None => (spec_fallback categories declaredCategory, General)
    | Some owner => (Some owner, declaredProject)
    end.

(** What deleting item [k] of Memory [memoryId] makes of one Memory of the
    collection: the addressed Memory loses the item (later items move down
    one place); then any Memory left without items goes, unless it is a
    manual placeholder. *)
Definition spec_delete_outcome (memoryId : string) (k : nat) (mem : Memory)
  : option Memory :=
  let after :=
    if decide (Memory.id mem = memoryId)
    then Memory.with_structuredContent
           (delete k (Memory.structuredContent mem)) mem
    else mem in
  if decide (Memory.structuredContent after = []
             /\ Memory.originalText after <> ManualProjectCreation)
  then None else Some after.

(** The uniqueness invariant of section 3: Memories of one project, the
    sentinel apart, have one root category. *)
Definition unique_owner (ms : list Memory) : Prop :=
  forall m1 m2, In m1 ms -> In m2 ms ->
    Memory.project m1 = Memory.project m2 ->
    Memory.project m1 <> General ->
    Memory.rootCategory m1 = Memory.rootCategory m2.


(** No Memory id holds an underscore. *)
Definition plain_ids (ms : list Memory) : Prop :=
  Forall (fun m => Forall (fun c => Ascii.eqb c "_" = false)
                          (JS.chars (Memory.id m))) ms.

(** The ways the classification call fails: the request is rejected (a
    network error), the response carries no text, or the text, once its
    code fence is stripped, does not parse. *)
Definition gateway_fails `{Host} (reply : Outcome (option string)) : Prop :=
  match reply with
  | Rejected _ => True
  | Resolved None => True
  | Resolved (Some text) =>
      JS.truthy text = false \/ JSON_parse_processing (cleanJson text) = None
  end.

(** A string of white space only. *)
Definition blank (s : string) : bool := forallb JS.is_white (JS.chars s).







(** Calendar fields as a [Date] gives them, for a year that is not
    negative. *)
Definition calendar_fields (d : LocalDate) : Prop :=
  0 <= getFullYear d /\ 0 <= getMonth d <= 11 /\ 1 <= getDate d <= 31.

(* ===================================================================== *)
(** ** Facts about strings *)
(* ===================================================================== *)

Module JSFacts.
Import JS.

Lemma includes_In x xs : includes x xs = true <-> In x xs.
Proof.
  unfold includes. rewrite existsb_exists. split.
  - intros (y & Hy & E). apply String.eqb_eq in E. now subst.
  - intros H. exists x. split; [assumption | apply String.eqb_refl].
Qed.

Lemma includes_false x xs : includes x xs = false <-> ~ In x xs.
Proof.
  rewrite <- includes_In. destruct (includes x xs); split; intros; congruence.
Qed.

Lemma truthy_nonempty s : truthy s = true <-> s <> EmptyString.
Proof. destruct s; simpl; split; intros; congruence. Qed.

Lemma chars_str l : chars (str l) = l.
Proof. apply list_ascii_of_string_of_list_ascii. Qed.

Lemma str_chars s : str (chars s) = s.
Proof. apply string_of_list_ascii_of_string. Qed.

Lemma chars_inj s1 s2 : chars s1 = chars s2 -> s1 = s2.
Proof. intros H. rewrite <- (str_chars s1), <- (str_chars s2). now rewrite H. Qed.

Lemma chars_app s1 s2 : chars (s1 +:+ s2) = chars s1 ++ chars s2.
Proof.
  induction s1 as [|c s1 IH]; [reflexivity|].
  change (chars (String c s1 +:+ s2)) with (c :: chars (s1 +:+ s2)).
  now rewrite IH.
Qed.

Lemma str_app l1 l2 : str (l1 ++ l2) = str l1 +:+ str l2.
Proof. apply chars_inj. now rewrite chars_app, !chars_str. Qed.

Lemma length_chars s : length (chars s) = String.length s.
Proof. induction s as [|c s IH]; [reflexivity|]. simpl. now rewrite IH. Qed.

Lemma is_prefix_spec p l : is_prefix p l = true <-> exists r, l = p ++ r.
Proof.
  revert l. induction p as [|a p IH]; intros l; simpl.
  - split; [intros _; now exists l | reflexivity].
  - destruct l as [|b l].
    + split; [discriminate | intros [r Hr]; discriminate].
    + rewrite andb_true_iff, IH. split.
      * intros [E [r ->]]. apply Ascii.eqb_eq in E. subst. now exists r.
      * intros [r Hr]. injection Hr as -> ->. split.
        -- apply Ascii.eqb_refl.
        -- now exists r.
Qed.

Lemma endsWith_spec s p : endsWith s p = true <-> exists q, s = q +:+ p.
Proof.
  unfold endsWith. rewrite is_prefix_spec. split.
  - intros [r Hr]. exists (str (rev r)). apply chars_inj.
    rewrite chars_app, chars_str.
    rewrite <- (rev_involutive (chars s)), Hr, rev_app_distr.
    now rewrite rev_involutive.
  - intros [q ->]. exists (rev (chars q)).
    now rewrite chars_app, rev_app_distr.
Qed.

Lemma skip_white_clean l : clean_head (skip_white l).
Proof.
  induction l as [|c l IH]; simpl; [exact I|].
  destruct (is_white c) eqn:W; [exact IH | exact W].
Qed.

Lemma skip_white_fixed l : clean_head l -> skip_white l = l.
Proof. destruct l as [|c l]; simpl; [reflexivity | now intros ->]. Qed.

Lemma skip_white_snoc a c :
  is_white c = false -> exists a', skip_white (a ++ [c]) = a' ++ [c].
Proof.
  intros W. induction a as [|x a IH]; simpl.
  - rewrite W. now exists [].
  - destruct (is_white x); [exact IH | now exists (x :: a)].
Qed.

Lemma trim_end_clean l : clean_head l -> clean_head (rev (skip_white (rev l))).
Proof.
  destruct l as [|c l]; simpl; [intros _; exact I|]. intros W.
  destruct (skip_white_snoc (rev l) c W) as [a' ->].
  now rewrite rev_app_distr.
Qed.


End JSFacts.

(* ===================================================================== *)
(** ** Facts about dictionaries *)
(* ===================================================================== *)

Section DictFacts.
Context {V : Type}.
Implicit Types (o : Obj.t V) (k : string) (v : V).

Lemma get_In k o v : Obj.get k o = Some v -> In (k, v) o.
Proof.
  induction o as [|[k' v'] o IH]; simpl; [discriminate|].
  destruct (String.eqb_spec k k') as [->|Hne].
  - intros [= ->]. now left.
  - intros H. right. now apply IH.
Qed.

Lemma get_set_same k v o : Obj.get k (Obj.set k v o) = Some v.
Proof.
  induction o as [|[k' v'] o IH]; simpl.
  - now rewrite String.eqb_refl.
  - destruct (String.eqb_spec k k') as [->|Hne]; simpl.
    + now rewrite String.eqb_refl.
    + destruct (String.eqb_spec k k'); [contradiction | exact IH].
Qed.

Lemma get_set_other k k' v o :
  k' <> k -> Obj.get k' (Obj.set k v o) = Obj.get k' o.
Proof.
  intros Hne. induction o as [|[k0 v0] o IH]; simpl.
  - destruct (String.eqb_spec k' k); [contradiction | reflexivity].
  - destruct (String.eqb_spec k k0) as [->|Hk]; simpl.
    + destruct (String.eqb_spec k' k0); [contradiction | reflexivity].
    + now rewrite IH.
Qed.

Lemma In_set k v o e :
  In e (Obj.set k v o) -> e = (k, v) \/ In e o.
Proof.
  induction o as [|[k' v'] o IH]; simpl.
  - intros [<-|[]]. now left.
  - destruct (String.eqb_spec k k') as [->|Hne]; simpl.
    + intros [<-|H]; [now left | right; now right].
    + intros [<-|H]; [right; now left|].
      destruct (IH H) as [->|H']; [now left | right; now right].
Qed.

Lemma In_insert_index n (e e' : string * V) l :
  In e' (List.map snd (Obj.insert_index n e l))
  <-> e' = e \/ In e' (List.map snd l).
Proof.
  induction l as [|[m x] l IH]; simpl.
  - intuition.
  - destruct (n <=? m)%N; simpl; [intuition|].
    rewrite IH. intuition.
Qed.

(** [Object.entries] lists exactly the own properties. *)
Lemma In_entries o e : In e (Obj.entries o) <-> In e o.
Proof.
  unfold Obj.entries. rewrite in_app_iff.
  induction o as [|e0 o IH]; simpl; [tauto|].
  destruct (Obj.array_index (fst e0)); simpl.
  - rewrite In_insert_index. rewrite <- IH. intuition.
  - rewrite <- IH. intuition.
Qed.

End DictFacts.

(* ===================================================================== *)
(** ** Facts about the hierarchy and the reverse index *)
(* ===================================================================== *)

Lemma and_then_Returns {A B} (c : Completion A) (f : A -> Completion B) b :
  and_then c f = Returns b <-> exists a, c = Returns a /\ f a = Returns b.
Proof.
  destruct c as [a| |]; simpl; split.
  - intros H. now exists a.
  - intros (a' & [= <-] & H). exact H.
  - discriminate.
  - intros (a & E & _). discriminate.
  - discriminate.
  - intros (a & E & _). discriminate.
Qed.

Lemma fold_and_then_Untraced {A X} (f : A -> X -> Completion A) l :
  fold_left (fun acc x => and_then acc (fun a => f a x)) l Untraced = Untraced.
Proof. induction l; simpl; auto. Qed.

Section LookupFacts.
Context {V : Type}.
Implicit Types (o : Obj.t V) (k : string) (v : V).

Lemma lookup_Own k o v : Obj.lookup k o = Obj.Own v <-> Obj.get k o = Some v.
Proof.
  unfold Obj.lookup. destruct (Obj.get k o).
  - split; intros [= ->]; reflexivity.
  - destruct (Obj.on_prototype k); split; discriminate.
Qed.

Lemma lookup_Proto k o :
  Obj.lookup k o = Obj.Proto
  <-> Obj.get k o = None /\ Obj.on_prototype k = true.
Proof.
  unfold Obj.lookup. destruct (Obj.get k o).
  - split; [discriminate | intros [? _]; discriminate].
  - destruct (Obj.on_prototype k); split; try discriminate; auto.
    intros [_ ?]. discriminate.
Qed.

Lemma lookup_Absent k o :
  Obj.lookup k o = Obj.Absent
  <-> Obj.get k o = None /\ Obj.on_prototype k = false.
Proof.
  unfold Obj.lookup. destruct (Obj.get k o).
  - split; [discriminate | intros [? _]; discriminate].
  - destruct (Obj.on_prototype k); split; try discriminate; auto.
    intros [_ ?]. discriminate.
Qed.

End LookupFacts.

Lemma owns_app_l l1 l2 c p : owns l1 c p -> owns (l1 ++ l2) c p.
Proof.
  intros (m & Hm & H). exists m. split; [apply in_or_app; now left | exact H].
Qed.

Lemma owns_snoc mems m c p : owns mems c p -> owns (mems ++ [m]) c p.
Proof. apply owns_app_l. Qed.

Lemma owns_snoc_iff mems m c p :
  owns (mems ++ [m]) c p
  <-> owns mems c p \/ (files m c /\ Memory.project m = p).
Proof.
  split.
  - intros (m0 & Hin & Hc & Hp & Tc & Tp & Hg).
    apply in_app_or in Hin as [Hin|[->|[]]].
    + left. exists m0. repeat split; auto.
    + right. subst p. repeat split; auto.
  - intros [H|[(Hc & Tc & Tp & Hg) Hp]]; [now apply owns_snoc|].
    exists m. subst p. repeat split; auto. apply in_or_app. right. now left.
Qed.

(** *** The first loop *)

Lemma categories_get cats : forall (h : Obj.t (list string)) c,
  Obj.get c (fold_left (fun h cat => Obj.set cat [] h) cats h)
  = if JS.includes c cats then Some [] else Obj.get c h.
Proof.
  induction cats as [|cat cats IH]; intros h c; simpl; [reflexivity|].
  rewrite IH. destruct (JS.includes c cats) eqn:I.
  - now rewrite orb_true_r.
  - rewrite orb_false_r. destruct (String.eqb_spec c cat) as [->|Hne].
    + apply get_set_same.
    + now apply get_set_other.
Qed.

Lemma hierarchy_init_proto (h : Obj.t (list string)) :
  hierarchy_init h "__proto__" = Untraced.
Proof. reflexivity. Qed.

Lemma hierarchy_init_other (h : Obj.t (list string)) cat :
  cat <> "__proto__" -> hierarchy_init h cat = Returns (Obj.set cat [] h).
Proof.
  intros Hne. unfold hierarchy_init.
  now destruct (String.eqb_spec cat "__proto__").
Qed.

Lemma init_outcome cats : forall h0 : Obj.t (list string),
  fold_left (fun acc cat => and_then acc (fun h => hierarchy_init h cat))
    cats (Returns h0)
  = if JS.includes "__proto__" cats then Untraced
    else Returns (fold_left (fun h cat => Obj.set cat [] h) cats h0).
Proof.
  induction cats as [|cat cats IH]; intros h0; [reflexivity|].
  cbn [fold_left and_then].
  change (JS.includes "__proto__" (cat :: cats))
    with (String.eqb "__proto__" cat || JS.includes "__proto__" cats)%bool.
  destruct (String.eqb_spec "__proto__" cat) as [<-|Hne]; cbn [orb].
  - rewrite hierarchy_init_proto. apply fold_and_then_Untraced.
  - rewrite hierarchy_init_other by congruence. apply IH.
Qed.

(** *** One round of the second loop *)

Lemma hierarchy_step_Returns h m h' :
  hierarchy_step h m = Returns h' ->
  forall c,
    (~ files m c /\ Obj.get c h' = Obj.get c h)
    \/ (files m c
        /\ (Obj.get c h = None -> Obj.on_prototype c = false)
        /\ Obj.get c h'
           = Some (let projs := default [] (Obj.get c h) in
                   if JS.includes (Memory.project m) projs then projs
                   else projs ++ [Memory.project m])).
Proof.
  unfold hierarchy_step. intros H c.
  assert (Hkeep : forall cat, Memory.rootCategory m = Some cat ->
            (JS.truthy cat && JS.truthy (Memory.project m)
             && negb (Memory.project m =? General)%string)%bool = false ->
            ~ files m c).
  { intros cat Hcat Hb (Hc & Tc & Tp & Hg).
    assert (cat = c) by congruence. subst cat. rewrite Tc, Tp in Hb.
    simpl in Hb. now destruct (String.eqb_spec (Memory.project m) General). }
  destruct (Memory.rootCategory m) as [[cat|]|n] eqn:Hcat.
  - destruct (JS.truthy cat && JS.truthy (Memory.project m)
              && negb (Memory.project m =? General)%string)%bool eqn:Hb.
    + apply andb_true_iff in Hb as [Hb Hg].
      apply andb_true_iff in Hb as [Tc Tp].
      apply negb_true_iff in Hg.
      apply String.eqb_neq in Hg.
      destruct (String.eqb_spec c cat) as [->|Hne].
      * right. split; [now repeat split|].
        destruct (Obj.lookup cat h) as [projs| |] eqn:L.
        -- apply lookup_Own in L. rewrite L. simpl.
           split; [discriminate|].
           destruct (JS.includes (Memory.project m) projs).
           ++ injection H as <-. exact L.
           ++ injection H as <-. apply get_set_same.
        -- discriminate.
        -- apply lookup_Absent in L as [L P]. rewrite L. simpl.
           split; [auto|]. injection H as <-. apply get_set_same.
      * left. split; [intros (Hc & _); congruence|].
        destruct (Obj.lookup cat h) as [projs| |] eqn:L.
        -- destruct (JS.includes (Memory.project m) projs);
             injection H as <-; [reflexivity | now apply get_set_other].
        -- discriminate.
        -- injection H as <-. now apply get_set_other.
    + injection H as <-. left. split; [now apply (Hkeep cat) | reflexivity].
  - injection H as <-. left. split; [intros (Hc & _); congruence | reflexivity].
  - left. split; [intros (Hc & _); congruence|].
    destruct (JS.truthy (Memory.project m)
              && negb (Memory.project m =? General)%string)%bool;
      [discriminate | now injection H as <-].
Qed.

(** *** The hierarchy that is returned *)

(** The keys come from the category list or from an owner, every
    category is a key, a key that names a member of [Object.prototype]
    is a category, no project is listed twice, and the projects under a
    key are the ones it owns. *)
Lemma hierarchy_facts cats mems : forall h,
  getProjectHierarchy cats mems = Returns h ->
  forall c,
    (is_Some (Obj.get c h) -> In c cats \/ exists p, owns mems c p)
    /\ (In c cats -> is_Some (Obj.get c h))
    /\ (is_Some (Obj.get c h) -> Obj.on_prototype c = true -> In c cats)
    /\ (forall p, owns mems c p -> is_Some (Obj.get c h))
    /\ (forall projs, Obj.get c h = Some projs ->
          NoDup projs /\ forall p, In p projs <-> owns mems c p).
Proof.
  unfold getProjectHierarchy.
  induction mems as [|m mems IH] using rev_ind; intros h Hh c.
  - simpl in Hh. rewrite init_outcome in Hh.
    destruct (JS.includes "__proto__" cats); [discriminate|].
    injection Hh as <-. rewrite categories_get. simpl.
    destruct (JS.includes c cats) eqn:I.
    + apply JSFacts.includes_In in I.
      split; [|split; [|split; [|split]]]; eauto.
      intros projs [= <-]. split; [constructor|].
      intros p. split; [intros [] | intros (m & [] & _)].
    + assert (~ In c cats).
      { intros Hin. apply JSFacts.includes_In in Hin. congruence. }
      split; [|split; [|split; [|split]]].
      * intros [x Hx]. discriminate.
      * contradiction.
      * intros [x Hx]. discriminate.
      * intros p (m & [] & _).
      * discriminate.
  - rewrite fold_left_app in Hh. simpl in Hh.
    apply and_then_Returns in Hh as (h0 & Hh0 & Hstep).
    destruct (IH h0 Hh0 c) as (K1 & K2 & K3 & K4 & K5).
    destruct (hierarchy_step_Returns h0 m h Hstep c)
      as [[Hnf E]|(Hf & Hp & E)]; rewrite E.
    + split; [|split; [|split; [|split]]]; auto.
      * intros Hs. destruct (K1 Hs) as [?|[p Hp]]; [now left|].
        right. exists p. now apply owns_snoc.
      * intros p Ho. apply owns_snoc_iff in Ho as [Ho|[Hf _]];
          [eauto | contradiction].
      * intros projs G. destruct (K5 projs G) as [N S]. split; [exact N|].
        intros p. rewrite S, owns_snoc_iff. intuition.
    + split; [|split; [|split; [|split]]].
      * intros _. right. exists (Memory.project m).
        apply owns_snoc_iff. right. now split.
      * eauto.
      * intros _ P. destruct (Obj.get c h0) as [ps|] eqn:G.
        -- apply K3; eauto.
        -- rewrite Hp in P; [discriminate | reflexivity].
      * eauto.
      * intros projs [= <-].
        assert (N0 : NoDup (default [] (Obj.get c h0))
                     /\ forall p, In p (default [] (Obj.get c h0))
                                  <-> owns mems c p).
        { destruct (Obj.get c h0) as [ps|] eqn:G; simpl; [now apply K5|].
          split; [constructor|]. intros p. split; [intros []|].
          intros Ho. apply K4 in Ho as [x Hx]. discriminate. }
        destruct N0 as [N0 S0]. simpl.
        destruct (JS.includes (Memory.project m) _) eqn:I.
        -- split; [exact N0|]. intros p. rewrite owns_snoc_iff, S0.
           split; [now left|]. intros [Ho|[_ <-]]; [exact Ho|].
           apply S0. now apply JSFacts.includes_In.
        -- pose proof I as I'. apply JSFacts.includes_false in I'. split.
           ++ apply NoDup_app. repeat split; auto.
              ** intros x Hx Hx'. apply list_elem_of_In in Hx, Hx'.
                 destruct Hx' as [<-|[]]. contradiction.
              ** apply NoDup_singleton.
           ++ intros p. rewrite in_app_iff, owns_snoc_iff, S0. simpl.
              intuition.
Qed.

Lemma hierarchy_sound cats mems h :
  getProjectHierarchy cats mems = Returns h ->
  forall c projs p, Obj.get c h = Some projs -> In p projs -> owns mems c p.
Proof.
  intros Hh c projs p G Hp.
  destruct (hierarchy_facts cats mems h Hh c) as (_ & _ & _ & _ & K5).
  now apply (K5 projs G).
Qed.

Lemma hierarchy_complete cats mems h c p :
  getProjectHierarchy cats mems = Returns h ->
  owns mems c p -> lists h c p.
Proof.
  intros Hh Ho.
  destruct (hierarchy_facts cats mems h Hh c) as (_ & _ & _ & K4 & K5).
  destruct (K4 p Ho) as [projs G]. exists projs. split; [exact G|].
  now apply (K5 projs G).
Qed.

Lemma lists_owns cats mems h c p :
  getProjectHierarchy cats mems = Returns h ->
  lists h c p <-> owns mems c p.
Proof.
  intros Hh. split.
  - intros (projs & G & Hp). exact (hierarchy_sound cats mems h Hh c projs p G Hp).
  - now apply (hierarchy_complete cats).
Qed.

(** The own properties of a returned hierarchy have distinct keys. *)
Lemma set_keys {V} k (v : V) o :
  NoDup (List.map fst o) -> NoDup (List.map fst (Obj.set k v o))
  /\ forall k', In k' (List.map fst (Obj.set k v o))
                <-> k' = k \/ In k' (List.map fst o).
Proof.
  induction o as [|[k0 v0] o IH]; simpl; intros N.
  - split; [apply NoDup_singleton | intuition].
  - apply NoDup_cons in N as [N1 N2]. rewrite list_elem_of_In in N1.
    destruct (String.eqb_spec k k0) as [->|Hne]; simpl.
    + split; [apply NoDup_cons; now rewrite list_elem_of_In | intuition].
    + destruct (IH N2) as [IH1 IH2]. split.
      * apply NoDup_cons. rewrite list_elem_of_In. split; [|exact IH1].
        rewrite IH2. intros [?|?]; [congruence | contradiction].
      * intros k'. rewrite IH2. intuition.
Qed.

Lemma In_get {V} k (v : V) o :
  NoDup (List.map fst o) -> In (k, v) o -> Obj.get k o = Some v.
Proof.
  induction o as [|[k0 v0] o IH]; simpl; intros N; [intros []|].
  apply NoDup_cons in N as [N1 N2]. rewrite list_elem_of_In in N1.
  intros [[= -> ->]|Hin].
  - now rewrite String.eqb_refl.
  - destruct (String.eqb_spec k k0) as [->|Hne]; [|now apply IH].
    exfalso. apply N1. apply in_map_iff. now exists (k0, v).
Qed.

Lemma hierarchy_step_keys h m h' :
  hierarchy_step h m = Returns h' ->
  NoDup (List.map fst h) -> NoDup (List.map fst h').
Proof.
  unfold hierarchy_step. intros H N.
  destruct (Memory.rootCategory m) as [[cat|]|n].
  - destruct (_ && _ && _)%bool; [|now injection H as <-].
    destruct (Obj.lookup cat h) as [projs| |].
    + destruct (JS.includes _ projs); injection H as <-;
        [exact N | now apply set_keys].
    + discriminate.
    + injection H as <-. now apply set_keys.
  - now injection H as <-.
  - destruct (_ && _)%bool; [discriminate | now injection H as <-].
Qed.

Lemma hierarchy_keys_distinct cats mems : forall h,
  getProjectHierarchy cats mems = Returns h -> NoDup (List.map fst h).
Proof.
  unfold getProjectHierarchy.
  induction mems as [|m mems IH] using rev_ind; intros h Hh.
  - simpl in Hh. rewrite init_outcome in Hh.
    destruct (JS.includes "__proto__" cats); [discriminate|].
    injection Hh as <-.
    assert (G : forall (h0 : Obj.t (list string)),
              NoDup (List.map fst h0) ->
              NoDup (List.map fst
                       (fold_left (fun h cat => Obj.set cat [] h) cats h0))).
    { induction cats as [|cat cats IHc]; intros h0 N; simpl; [exact N|].
      apply IHc. now apply set_keys. }
    apply G. constructor.
  - rewrite fold_left_app in Hh. simpl in Hh.
    apply and_then_Returns in Hh as (h0 & Hh0 & Hstep).
    eapply hierarchy_step_keys; eauto.
Qed.

Lemma hierarchy_sound_at_returned cats mems h :
  getProjectHierarchy cats mems = Returns h -> hierarchy_sound_at mems h.
Proof.
  intros Hh c projs p Hin Hp.
  eapply hierarchy_sound; eauto.
  apply In_get; [eapply hierarchy_keys_distinct; eauto | exact Hin].
Qed.

(** *** When the deriver returns *)

Lemma hierarchy_step_returns cats h m :
  (forall c, In c cats -> is_Some (Obj.get c h)) ->
  (forall c, is_Some (Obj.get c h) -> Obj.on_prototype c = true -> In c cats) ->
  (exists h', hierarchy_step h m = Returns h') <-> files_well cats m = true.
Proof.
  intros K2 K3. unfold hierarchy_step, files_well, counted.
  destruct (Memory.rootCategory m) as [[cat|]|n].
  - destruct (JS.truthy cat); simpl; [|split; eauto].
    destruct (JS.truthy (Memory.project m)); simpl; [|split; eauto].
    destruct (negb (Memory.project m =? General)%string); simpl;
      [|split; eauto].
    destruct (Obj.lookup cat h) as [projs| |] eqn:L.
    + apply lookup_Own in L. split.
      * intros _. destruct (Obj.on_prototype cat) eqn:P; simpl; [|reflexivity].
        apply JSFacts.includes_In. apply K3; eauto.
      * intros _. destruct (JS.includes _ projs); eauto.
    + apply lookup_Proto in L as [L P]. rewrite P. simpl. split.
      * intros [h' Hh']. discriminate.
      * intros I. apply JSFacts.includes_In, K2 in I as [x Hx]. congruence.
    + apply lookup_Absent in L as [L P]. rewrite P. simpl. split; eauto.
  - split; eauto.
  - destruct (JS.truthy (Memory.project m)
              && negb (Memory.project m =? General)%string)%bool; simpl;
      split; eauto; try discriminate.
    intros [h' Hh']. discriminate.
Qed.

(** [getProjectHierarchy] returns in exactly the derivable states. *)
Lemma hierarchy_returns cats mems :
  (exists h, getProjectHierarchy cats mems = Returns h)
  <-> derivable cats mems = true.
Proof.
  unfold derivable.
  induction mems as [|m mems IH] using rev_ind.
  - unfold getProjectHierarchy. simpl. rewrite init_outcome.
    destruct (JS.includes "__proto__" cats); simpl; split; eauto;
      try discriminate.
    intros [h Hh]. discriminate.
  - assert (E : getProjectHierarchy cats (mems ++ [m])
                = and_then (getProjectHierarchy cats mems)
                    (fun h => hierarchy_step h m)).
    { unfold getProjectHierarchy. now rewrite fold_left_app. }
    rewrite E, forallb_app. simpl. rewrite andb_true_r, andb_assoc.
    rewrite andb_true_iff, <- IH. split.
    + intros [h Hh]. apply and_then_Returns in Hh as (h0 & Hh0 & Hstep).
      split; [eauto|].
      apply (hierarchy_step_returns cats h0 m); [| |eauto];
        intros c; destruct (hierarchy_facts cats mems h0 Hh0 c)
          as (_ & K2 & K3 & _); auto.
    + intros [[h0 Hh0] Hw].
      apply (hierarchy_step_returns cats h0 m) in Hw as [h' Hh'].
      * exists h'. apply and_then_Returns. eauto.
      * intros c. now destruct (hierarchy_facts cats mems h0 Hh0 c)
          as (_ & K2 & _).
      * intros c. now destruct (hierarchy_facts cats mems h0 Hh0 c)
          as (_ & _ & K3 & _).
Qed.

Section ReverseIndex.
Implicit Types (acc : gmap string string) (es : list (string * list string)).

Lemma index_put_Some acc q cat p c :
  index_put acc q cat !! p = Some c ->
  acc !! p = Some c \/ (p = q /\ c = cat /\ p <> "__proto__").
Proof.
  unfold index_put. destruct (String.eqb_spec q "__proto__") as [->|Hq];
    [now left|].
  intros H. apply lookup_insert_Some in H as [[-> ->]|[_ H]]; [|now left].
  right. auto.
Qed.

Lemma index_put_keeps acc q cat p :
  is_Some (acc !! p) -> is_Some (index_put acc q cat !! p).
Proof.
  unfold index_put. destruct (String.eqb q "__proto__"); [auto|].
  intros H. apply lookup_insert_is_Some.
  destruct (decide (q = p)); [now left | right; now split].
Qed.

Lemma index_entry_Some projs : forall acc cat p c,
  index_entry acc (cat, projs) !! p = Some c ->
  acc !! p = Some c \/ (c = cat /\ In p projs /\ p <> "__proto__").
Proof.
  unfold index_entry. simpl.
  induction projs as [|q projs IH]; intros acc cat p c; simpl; [now left|].
  intros H. apply IH in H as [H|(-> & H & Hp)].
  - apply index_put_Some in H as [H|(-> & -> & Hp)]; [now left|].
    right. repeat split; auto.
  - right. repeat split; auto.
Qed.

Lemma index_entry_keeps projs : forall acc cat p,
  is_Some (acc !! p) -> is_Some (index_entry acc (cat, projs) !! p).
Proof.
  unfold index_entry. simpl.
  induction projs as [|q projs IH]; intros acc cat p H; simpl; [exact H|].
  apply IH. now apply index_put_keeps.
Qed.

Lemma index_entry_adds projs : forall acc cat p,
  In p projs -> p <> "__proto__" ->
  is_Some (index_entry acc (cat, projs) !! p).
Proof.
  unfold index_entry. simpl.
  induction projs as [|q projs IH]; intros acc cat p; simpl; [intros []|].
  intros [->|H] Hp; [|now apply IH].
  apply (index_entry_keeps projs _ cat).
  unfold index_put. destruct (String.eqb_spec p "__proto__"); [contradiction|].
  apply lookup_insert_is_Some. now left.
Qed.

Lemma index_Some es : forall acc p c,
  fold_left index_entry es acc !! p = Some c ->
  acc !! p = Some c
  \/ (p <> "__proto__" /\ exists projs, In (c, projs) es /\ In p projs).
Proof.
  induction es as [|[cat projs] es IH]; intros acc p c; simpl; [now left|].
  intros H. apply IH in H as [H|(Hn & projs' & Hin & Hp)].
  - apply index_entry_Some in H as [H|(-> & H & Hn)]; [now left|].
    right. split; [exact Hn|]. exists projs. split; [now left | exact H].
  - right. split; [exact Hn|]. exists projs'. split; [now right | exact Hp].
Qed.

Lemma index_keeps es : forall acc p,
  is_Some (acc !! p) -> is_Some (fold_left index_entry es acc !! p).
Proof.
  induction es as [|[cat projs] es IH]; intros acc p H; simpl; [exact H|].
  apply IH. now apply index_entry_keeps.
Qed.

Lemma index_adds es : forall acc c projs p,
  In (c, projs) es -> In p projs -> p <> "__proto__" ->
  is_Some (fold_left index_entry es acc !! p).
Proof.
  induction es as [|e es IH]; intros acc c projs p; simpl; [intros []|].
  intros [->|Hin] Hp Hn.
  - apply index_keeps. now apply index_entry_adds.
  - eapply IH; eauto.
Qed.

Lemma projectToCategoryMap_fold h :
  projectToCategoryMap h = fold_left index_entry (Obj.entries h) ∅.
Proof. reflexivity. Qed.

(** The index records a project under one of the keys that list it, and
    never records "__proto__". *)
Lemma index_lists h p c :
  projectToCategoryMap h !! p = Some c ->
  p <> "__proto__" /\ exists projs, In (c, projs) h /\ In p projs.
Proof.
  rewrite projectToCategoryMap_fold. intros H.
  apply index_Some in H as [H|(Hn & projs & Hin & Hp)].
  - rewrite lookup_empty in H. discriminate.
  - split; [exact Hn|]. exists projs. split; [|exact Hp].
    now apply (proj1 (In_entries _ _)).
Qed.

(** Every listed project other than "__proto__" is in the index. *)
Lemma index_lists_all h p c projs :
  In (c, projs) h -> In p projs -> p <> "__proto__" ->
  is_Some (projectToCategoryMap h !! p).
Proof.
  intros Hin Hp Hn. rewrite projectToCategoryMap_fold.
  eapply index_adds; [|exact Hp|exact Hn].
  apply (proj2 (In_entries _ _)). exact Hin.
Qed.

(** The owner the index records for a project owns it. *)
Lemma index_sound cats mems h p c :
  getProjectHierarchy cats mems = Returns h ->
  projectToCategoryMap h !! p = Some c ->
  owns mems c p.
Proof.
  intros Hh H. apply index_lists in H as (_ & projs & Hin & Hp).
  exact (hierarchy_sound_at_returned cats mems h Hh c projs p Hin Hp).
Qed.

(** Every owned project other than "__proto__" is in the index. *)
Lemma index_complete cats mems h p c :
  getProjectHierarchy cats mems = Returns h ->
  owns mems c p -> p <> "__proto__" ->
  is_Some (projectToCategoryMap h !! p).
Proof.
  intros Hh H Hn.
  apply (hierarchy_complete cats mems h c p Hh) in H as (projs & G & Hp).
  eapply index_lists_all; [apply get_In; exact G | exact Hp | exact Hn].
Qed.

(** What [projectToCategoryMap[p]] finds, on the index of a derived
    hierarchy. *)
Lemma index_get_derived cats mems h p :
  getProjectHierarchy cats mems = Returns h ->
  match index_get (projectToCategoryMap h) p with
  | Obj.Own c => owns mems c p /\ p <> "__proto__" /\ JS.truthy c = true
  | Obj.Proto =>
      Obj.on_prototype p = true
      /\ (p = "__proto__" \/ forall c, ~ owns mems c p)
  | Obj.Absent => Obj.on_prototype p = false /\ forall c, ~ owns mems c p
  end.
Proof.
  intros Hh. unfold index_get.
  destruct (projectToCategoryMap h !! p) as [c|] eqn:E.
  - pose proof (index_sound cats mems h p c Hh E) as Ho.
    split; [exact Ho|]. split; [now apply index_lists in E|].
    now destruct Ho as (m & _ & _ & _ & Tc & _).
  - assert (Hno : p <> "__proto__" -> forall c, ~ owns mems c p).
    { intros Hn c Ho.
      destruct (index_complete cats mems h p c Hh Ho Hn) as [x Hx].
      congruence. }
    destruct (Obj.on_prototype p) eqn:P.
    + split; [reflexivity|].
      destruct (String.eqb_spec p "__proto__"); [now left | right; auto].
    + split; [reflexivity|]. apply Hno. intros ->. discriminate.
Qed.

End ReverseIndex.

(** *** Reconciliation *)

Lemma fallback_refines cats c : fallback cats c = spec_fallback cats c.
Proof.
  unfold fallback, spec_fallback.
  destruct (JS.includes c cats) eqn:I.
  - apply JSFacts.includes_In, list_elem_of_In in I.
    destruct (decide (c ∈ cats)); [reflexivity | contradiction].
  - apply JSFacts.includes_false in I. rewrite <- list_elem_of_In in I.
    destruct (decide (c ∈ cats)); [contradiction | now destruct cats].
Qed.

(** The category kept for a pair that goes to "General": the declared
    one when it is in the list, else the first of the list. *)
Lemma kept_category_declared cats c :
  (if is_available cats (Some c) then Plain (Some c)
   else Plain (JS.first cats)) = Plain (fallback cats c).
Proof. unfold fallback. simpl. now destruct (JS.includes c cats). Qed.

Lemma kept_category_twice cats (x : Category) :
  let kept := if is_available cats x then x else Plain (JS.first cats) in
  (if is_available cats kept then kept else Plain (JS.first cats)) = kept.
Proof.
  simpl. destruct (is_available cats x) eqn:A; [now rewrite A|].
  destruct cats as [|c0 cats]; simpl; [reflexivity|].
  now rewrite String.eqb_refl.
Qed.

Lemma kept_category_plain cats (x : Category) :
  cats <> [] ->
  exists c1, (if is_available cats x then x else Plain (JS.first cats))
             = Plain (Some c1).
Proof.
  intros Hne. destruct (is_available cats x) eqn:A.
  - destruct x as [[c|]|n]; try discriminate. eauto.
  - destruct cats; [contradiction | simpl; eauto].
Qed.

Lemma reconcile_General cats map c :
  reconcile cats map (Some c) General = (Plain (fallback cats c), General).
Proof.
  unfold reconcile. rewrite String.eqb_refl.
  now rewrite kept_category_declared.
Qed.

(** Reconciling a reconciled pair changes nothing, whatever the index. *)
Lemma reconcile_twice cats map (x : Category) p :
  reconcile cats map (fst (reconcile cats map x p))
    (snd (reconcile cats map x p))
  = reconcile cats map x p.
Proof.
  unfold reconcile at 2 3 4.
  destruct (String.eqb_spec p General) as [->|Hg].
  - cbn [fst snd]. unfold reconcile. rewrite String.eqb_refl.
    now rewrite kept_category_twice.
  - destruct (index_get map p) as [c'| |] eqn:L.
    + destruct (JS.truthy c') eqn:T; cbn [fst snd].
      * unfold reconcile.
        destruct (String.eqb_spec p General); [contradiction|].
        now rewrite L, T.
      * unfold reconcile. rewrite String.eqb_refl.
        now rewrite kept_category_twice.
    + cbn [fst snd]. unfold reconcile.
      destruct (String.eqb_spec p General); [contradiction|].
      now rewrite L.
    + cbn [fst snd]. unfold reconcile. simpl String.eqb. cbv iota.
      now rewrite kept_category_twice.
Qed.

(** The category of a reconciled pair: a name, or the built-in found
    under the project's name. *)
Lemma reconcile_category cats map (x : Category) p :
  cats <> [] ->
  (exists c1, fst (reconcile cats map x p) = Plain (Some c1))
  \/ (reconcile cats map x p = (Builtin p, p)
      /\ Obj.on_prototype p = true /\ map !! p = None).
Proof.
  intros Hne. unfold reconcile.
  destruct (String.eqb_spec p General) as [->|Hg].
  - left. cbn [fst]. now apply kept_category_plain.
  - unfold index_get. destruct (map !! p) as [c'|] eqn:E.
    + left. destruct (JS.truthy c'); cbn [fst];
        [eauto | now apply kept_category_plain].
    + destruct (Obj.on_prototype p) eqn:P.
      * right. auto.
      * left. cbn [fst]. now apply kept_category_plain.
Qed.

(** On the index the code derives, and for a project name that is not
    the name of a member of [Object.prototype], the code's validation is
    the reconciliation of the specification. *)
Lemma reconcile_refines cats mems h c p :
  getProjectHierarchy cats mems = Returns h ->
  Obj.on_prototype p = false ->
  let index := projectToCategoryMap h in
  reconcile cats index (Some c) p
  = (Plain (fst (spec_reconcile cats (fun q => index !! q) c p)),
     snd (spec_reconcile cats (fun q => index !! q) c p)).
Proof.
  intros Hh P index. unfold reconcile, spec_reconcile.
  rewrite kept_category_declared, fallback_refines.
  destruct (String.eqb_spec p General) as [->|Hg].
  - destruct (decide (General = General)); [reflexivity | contradiction].
  - destruct (decide (p = General)); [contradiction|].
    pose proof (index_get_derived cats mems h p Hh) as D.
    unfold index_get in *. fold index in D.
    destruct (index !! p) as [c'|] eqn:E.
    + destruct D as (_ & _ & T). now rewrite T.
    + now rewrite P.
Qed.

(** For a project name that [Object.prototype] has a member of and no
    Memory carries, the code keeps the name and stores the member as the
    category, where the specification sends the pair to "General". *)
Lemma reconcile_inherited cats mems h c p :
  getProjectHierarchy cats mems = Returns h ->
  Obj.on_prototype p = true ->
  (forall c', ~ owns mems c' p) ->
  let index := projectToCategoryMap h in
  reconcile cats index (Some c) p = (Builtin p, p)
  /\ spec_reconcile cats (fun q => index !! q) c p
     = (spec_fallback cats c, General).
Proof.
  intros Hh P Hno index.
  assert (E : index !! p = None).
  { destruct (index !! p) as [c'|] eqn:E; [|reflexivity].
    apply (index_sound cats mems h p c' Hh) in E. now apply Hno in E. }
  assert (Hg : p <> General) by (intros ->; discriminate).
  unfold reconcile, spec_reconcile, index_get. rewrite E, P.
  destruct (String.eqb_spec p General); [contradiction|].
  destruct (decide (p = General)); [contradiction|]. auto.
Qed.

(* ===================================================================== *)
(** ** Properties of the reconciliation *)
(* ===================================================================== *)

(** C3.  Reconciliation is idempotent: with the category list (not empty),
    a hierarchy and the reverse index derived from it held fixed, the
    validation of [handleProcessInput] applied to a pair the gateway
    declares yields a pair that the validation leaves as it is.  The
    category of that pair is a name, never [undefined]; the one exception
    is a project name that [Object.prototype] has a member of and the
    index does not record: the pair keeps the name and has the member for
    its category, and is left as it is all the same. *)
Theorem reconcile_idempotent :
  forall (cats : list string) (h : Obj.t (list string)) (c p : string),
    cats <> [] ->
    let index := projectToCategoryMap h in
    let once := reconcile cats index (Some c) p in
    reconcile cats index (fst once) (snd once) = once
    /\ ((exists c1, fst once = Some c1)
        \/ (once = (Builtin p, p) /\ Obj.on_prototype p = true)).
Proof.
  intros cats h c p Hne index once. split.
  - apply reconcile_twice.
  - destruct (reconcile_category cats index (Some c) p Hne)
      as [H|(H & P & _)]; [now left | right; now split].
Qed.

(** A run of the property on the hierarchy of the mock data of [RevB]:
    an invented project is sent to "General" under the declared
    category, and stays there. *)
Lemma reconcile_idempotent_witness :
  let cats := defaultCategories in
  let index := projectToCategoryMap [("Travel", ["Korea Trip"])] in
  let once := reconcile cats index (Some "Work") "Moon Base" in
  cats <> []
  /\ reconcile cats index (fst once) (snd once) = once
  /\ ((exists c1, fst once = Some c1)
      \/ (once = (Builtin "Moon Base", "Moon Base")
          /\ Obj.on_prototype "Moon Base" = true)).
Proof.
  split; [discriminate|].
  apply (reconcile_idempotent defaultCategories [("Travel", ["Korea Trip"])]
           "Work" "Moon Base").
  discriminate.
Defined.

(** A gateway result that [handleProcessInput] takes through the
    classification branch is stored as one new Memory at the head of the
    collection.  When the project it declares is not the name of a member
    of [Object.prototype], the stored pair is the reconciliation of
    section 4.2 applied to the declared pair, over the reverse index the
    code derives from the state the handler captured. *)
Lemma plain_project_is_reconciled
    (rev : Revision) (inputText : string) (selectedImage : option string)
    (isCompressingImage : bool) (clock : nat -> Z)
    (planning : Outcome PlanningResult) (result : ProcessingResult)
    (r prev : Repo) (h : Obj.t (list string)) :
  getProjectHierarchy (availableCategories r) (memories r) = Returns h ->
  ignores rev inputText selectedImage isCompressingImage = false ->
  goes_to_planner inputText selectedImage = false ->
  Obj.on_prototype (ProcessingResult.project result) = false ->
  let index := projectToCategoryMap h in
  let final := spec_reconcile (availableCategories r) (fun p => index !! p)
                 (ProcessingResult.rootCategory result)
                 (ProcessingResult.project result) in
  exists stored : Memory,
    handleProcessInput rev inputText selectedImage isCompressingImage clock
      planning (Resolved result) r prev
    = Returns ({| memories := stored :: memories prev;
                  tasks := tasks prev;
                  availableCategories := availableCategories prev |}, [])
    /\ Memory.rootCategory stored = Plain (fst final)
    /\ Memory.project stored = snd final
    /\ (forall p c, index !! p = Some c -> owns (memories r) c p)
    /\ (forall p c, owns (memories r) c p -> p <> "__proto__" ->
                    is_Some (index !! p)).
Proof.
  intros Hh Hguard Hroute P index final.
  exists (new_memory r h inputText selectedImage clock result).
  split; [|split; [|split; [|split]]].
  - unfold handleProcessInput, settled. now rewrite Hguard, Hh, Hroute.
  - unfold new_memory. cbn [Memory.rootCategory].
    now rewrite (reconcile_refines _ _ _ _ _ Hh P).
  - unfold new_memory. cbn [Memory.project].
    now rewrite (reconcile_refines _ _ _ _ _ Hh P).
  - intros p c. now apply (index_sound _ _ _ _ _ Hh).
  - intros p c. now apply (index_complete _ _ _ _ _ Hh).
Qed.

(** C1.  The validation of [handleProcessInput] takes the name of a
    member of [Object.prototype] for an existing project.  With
    categories Travel and Life and one Memory of project Japan under
    Travel, no category owns a project "toString" and the reverse index
    of section 4.2 has no entry for it, so the declared pair
    (Life, toString) reconciles to (Life, General); the handler, in
    either revision, keeps the project "toString" and stores as the
    category what it finds under that name, a function.  The example of
    the specification is stored as the specification says: (Life, Japan)
    as (Travel, Japan). *)
Theorem inherited_name_taken_for_a_project :
  let japan := Memory.mk "1" "Kyoto in autumn" (Some "Travel") "Japan" None
                 note [] 0 [] None in
  let r := {| memories := [japan]; tasks := [];
              availableCategories := ["Travel"; "Life"] |} in
  let declared := ProcessingResult.mk "Life" "toString" "Osaka" note [] [] in
  let example := ProcessingResult.mk "Life" "Japan" "Osaka" note [] [] in
  forall rev : Revision,
  exists (h : Obj.t (list string)) (stored kept : Memory),
    getProjectHierarchy (availableCategories r) (memories r) = Returns h
    /\ handleProcessInput rev "Okonomiyaki in Osaka" None false (fun _ => 0)
         (Rejected "unused") (Resolved declared) r r
       = Returns ({| memories := stored :: memories r; tasks := [];
                     availableCategories := ["Travel"; "Life"] |}, [])
    /\ (forall c, ~ owns (memories r) c "toString")
    /\ projectToCategoryMap h !! "toString" = None
    /\ spec_reconcile (availableCategories r)
         (fun p => projectToCategoryMap h !! p) "Life" "toString"
       = (Some "Life", General)
    /\ (Memory.rootCategory stored, Memory.project stored)
       = (Builtin "toString", "toString")
    /\ handleProcessInput rev "Okonomiyaki in Osaka" None false (fun _ => 0)
         (Rejected "unused") (Resolved example) r r
       = Returns ({| memories := kept :: memories r; tasks := [];
                     availableCategories := ["Travel"; "Life"] |}, [])
    /\ (Memory.rootCategory kept, Memory.project kept)
       = (Plain (Some "Travel"), "Japan").
Proof.
  intros japan r declared example rev.
  exists [("Travel", ["Japan"]); ("Life", [])],
         (new_memory r [("Travel", ["Japan"]); ("Life", [])]
            "Okonomiyaki in Osaka" None (fun _ => 0) declared),
         (new_memory r [("Travel", ["Japan"]); ("Life", [])]
            "Okonomiyaki in Osaka" None (fun _ => 0) example).
  split; [vm_compute; reflexivity|].
  split; [destruct rev; vm_compute; reflexivity|].
  split.
  { intros c (m & [<-|[]] & _ & Hp & _). discriminate. }
  split; [vm_compute; reflexivity|].
  split; [vm_compute; reflexivity|].
  split; [vm_compute; reflexivity|].
  split; [destruct rev; vm_compute; reflexivity|].
  vm_compute; reflexivity.
Qed.

(* ===================================================================== *)
(** ** Deleting an item *)
(* ===================================================================== *)

Lemma filter_index_past {A} (l : list A) : forall j target,
  target < Z.of_nat j -> filter_index target j l = l.
Proof.
  induction l as [|x l IH]; intros j target Hj; simpl; [reflexivity|].
  destruct (Z.eqb_spec (Z.of_nat j) target); [lia|].
  f_equal. apply IH. lia.
Qed.

(** Filtering one index out is [delete]. *)
Lemma filter_index_delete {A} (l : list A) : forall i k,
  filter_index (Z.of_nat (i + k)) i l = delete k l.
Proof.
  induction l as [|x l IH]; intros i k; simpl; [now destruct k|].
  destruct k as [|k]; simpl.
  - rewrite Nat.add_0_r, Z.eqb_refl. apply filter_index_past. lia.
  - destruct (Z.eqb_spec (Z.of_nat i) (Z.of_nat (i + S k))); [lia|].
    f_equal. rewrite <- (IH (S i) k). f_equal. lia.
Qed.

Lemma keeps_spec mem :
  keeps mem = true <->
  ~ (Memory.structuredContent mem = []
     /\ Memory.originalText mem <> ManualProjectCreation).
Proof.
  unfold keeps. rewrite orb_true_iff, negb_true_iff, Nat.eqb_neq.
  rewrite String.eqb_eq. split.
  - intros [H|H] [E N]; [rewrite E in H; now apply H | contradiction].
  - intros H. destruct (Memory.structuredContent mem) as [|x c] eqn:E.
    + right. destruct (String.string_dec (Memory.originalText mem)
                         ManualProjectCreation) as [|N]; [assumption|].
      exfalso. apply H. now split.
    + left. discriminate.
Qed.

Lemma delete_in_memory_spec memoryId k mem :
  delete_in_memory memoryId (Z.of_nat k) mem
  = if decide (Memory.id mem = memoryId)
    then Memory.with_structuredContent
           (delete k (Memory.structuredContent mem)) mem
    else mem.
Proof.
  unfold delete_in_memory.
  rewrite <- (filter_index_delete (Memory.structuredContent mem) 0 k).
  destruct (String.eqb_spec (Memory.id mem) memoryId);
    destruct (decide (Memory.id mem = memoryId)); try contradiction;
    reflexivity.
Qed.

Lemma spec_delete_outcome_keeps memoryId k mem :
  spec_delete_outcome memoryId k mem
  = if keeps (delete_in_memory memoryId (Z.of_nat k) mem)
    then Some (delete_in_memory memoryId (Z.of_nat k) mem) else None.
Proof.
  unfold spec_delete_outcome. cbv zeta. rewrite <- delete_in_memory_spec.
  destruct (keeps (delete_in_memory memoryId (Z.of_nat k) mem)) eqn:K.
  - apply keeps_spec in K. destruct (decide _); [contradiction | reflexivity].
  - destruct (decide _) as [|N]; [reflexivity|].
    apply keeps_spec in N. congruence.
Qed.

Lemma handleDeleteMemoryItem_spec prev memoryId k :
  handleDeleteMemoryItem memoryId (Z.of_nat k) prev
  = omap (spec_delete_outcome memoryId k) prev.
Proof.
  unfold handleDeleteMemoryItem.
  induction prev as [|mem prev IH]; [reflexivity|].
  cbn [List.map List.filter omap list_omap]. rewrite IH.
  rewrite (spec_delete_outcome_keeps memoryId k mem).
  now destruct (keeps (delete_in_memory memoryId (Z.of_nat k) mem)).
Qed.

(** C5, as amended.  [handleDeleteMemoryItem(m, k)] treats the Memories
    one by one and keeps their order.  A Memory with id [m] whose only item
    is the deleted one is removed, unless its original text is the manual
    sentinel, and then it stays with no items.  A Memory with id [m] that
    has other items keeps them, item [k] removed and the later items moved
    down one place.  Every other Memory is kept as it is, except that one
    with no items and not a placeholder is removed too. *)
Theorem delete_item_effect :
  forall (prev : list Memory) (memoryId : string) (k : nat),
    handleDeleteMemoryItem memoryId (Z.of_nat k) prev
    = omap (spec_delete_outcome memoryId k) prev
    /\ (forall mem x,
          Memory.id mem = memoryId ->
          Memory.structuredContent mem = [x] -> k = 0%nat ->
          spec_delete_outcome memoryId k mem
          = if decide (Memory.originalText mem = ManualProjectCreation)
            then Some (Memory.with_structuredContent [] mem) else None)
    /\ (forall mem,
          Memory.id mem = memoryId ->
          (k < length (Memory.structuredContent mem))%nat ->
          (2 <= length (Memory.structuredContent mem))%nat ->
          exists rest,
            spec_delete_outcome memoryId k mem
            = Some (Memory.with_structuredContent rest mem)
            /\ length rest = Nat.pred (length (Memory.structuredContent mem))
            /\ (forall j, (j < k)%nat ->
                          rest !! j = Memory.structuredContent mem !! j)
            /\ (forall j, (k <= j)%nat ->
                          rest !! j = Memory.structuredContent mem !! S j))
    /\ (forall mem,
          Memory.id mem <> memoryId ->
          spec_delete_outcome memoryId k mem
          = if decide (Memory.structuredContent mem = []
                       /\ Memory.originalText mem <> ManualProjectCreation)
            then None else Some mem).
Proof.
  intros prev memoryId k. split; [apply handleDeleteMemoryItem_spec|].
  split; [|split].
  - intros mem x Hid Hc ->. unfold spec_delete_outcome.
    destruct (decide (Memory.id mem = memoryId)); [|contradiction].
    rewrite Hc. cbn [delete list_delete].
    cbn [Memory.with_structuredContent Memory.structuredContent
         Memory.originalText].
    destruct (decide (Memory.originalText mem = ManualProjectCreation));
      destruct (decide _) as [[_ N]|N]; try reflexivity; try contradiction.
    exfalso. apply N. now split.
  - intros mem Hid Hk Hlen. unfold spec_delete_outcome.
    destruct (decide (Memory.id mem = memoryId)); [|contradiction].
    exists (delete k (Memory.structuredContent mem)).
    assert (Hl : length (delete k (Memory.structuredContent mem))
                 = Nat.pred (length (Memory.structuredContent mem))).
    { rewrite length_delete; [lia|]. now apply lookup_lt_is_Some. }
    split; [|split; [exact Hl | split]].
    + cbn [Memory.with_structuredContent Memory.structuredContent].
      destruct (decide _) as [[E _]|_]; [|reflexivity].
      rewrite E in Hl. simpl in Hl. lia.
    + intros j Hj. now apply list_lookup_delete_lt.
    + intros j Hj. now apply list_lookup_delete_ge.
  - intros mem Hid. unfold spec_delete_outcome.
    destruct (decide (Memory.id mem = memoryId)); [contradiction|].
    reflexivity.
Qed.

(** A placeholder made by [handleAddProject] loses its only item and
    stays, with no items. *)
Lemma delete_item_effect_witness :
  let x := Item.mk "Project Initialized" "System" "Start adding memories."
             None None None (Some "2025.10.15") (Some pending) in
  let m := Memory.mk "7" ManualProjectCreation (Some "Work") "Reports"
             (Some "General") note [x] 7 [] None in
  Memory.id m = "7" /\ Memory.structuredContent m = [x]
  /\ handleDeleteMemoryItem "7" (Z.of_nat 0) [m]
     = [Memory.with_structuredContent [] m].
Proof.
  intros x m. split; [reflexivity|]. split; [reflexivity|].
  destruct (delete_item_effect [m] "7" 0%nat) as (Heq & Hlast & _).
  rewrite Heq. cbn [omap list_omap].
  rewrite (Hlast m x); reflexivity.
Defined.

(** C5 as worded fails where it says that the other Memories are left as
    they were.  A session of [RevA]: the gateway answers a first
    note with no items (the Memory "1" is stored with none), a second note
    with two items (Memory "2"); deleting item 0 of Memory "2", which keeps
    an item, also removes Memory "1". *)
Lemma delete_item_removes_other_memory :
  let x := Item.mk "Tea" "Food" "green" None None None None None in
  let y := Item.mk "Rice" "Food" "short grain" None None None None None in
  let es :=
    [ ProcessInput "remember this" None false (fun _ => 1) (Rejected "unused")
        (Resolved (ProcessingResult.mk "Work" "General" "General" note [] []));
      ProcessInput "shopping" None false (fun _ => 2) (Rejected "unused")
        (Resolved (ProcessingResult.mk "Life" "General" "General" note []
                     [x; y])) ] in
  exists r a b,
    run (H := utc_host) RevA es initialRepoA = Some r
    /\ memories r = [b; a]
    /\ Memory.id a = "1" /\ Memory.structuredContent a = []
    /\ Memory.id b = "2" /\ length (Memory.structuredContent b) = 2%nat
    /\ In a (memories r) /\ Memory.id a <> "2"
    /\ handleDeleteMemoryItem "2" 0 (memories r)
       = [Memory.with_structuredContent [Item.with_status pending y] b]
    /\ ~ In a (handleDeleteMemoryItem "2" 0 (memories r)).
Proof.
  intros x y es. eexists. eexists. eexists.
  split; [reflexivity|]. split; [reflexivity|].
  repeat (split; [reflexivity || discriminate || (right; now left)|]).
  intros [H|[]]. discriminate H.
Qed.

(* ===================================================================== *)
(** ** The composite key of an item *)
(* ===================================================================== *)

Lemma digit_of_char m :
  (m < 10)%N -> JS.digit (pretty_N_char m) = Some (Z.of_N m).
Proof.
  intros Hm.
  assert (m = 0 \/ m = 1 \/ m = 2 \/ m = 3 \/ m = 4 \/ m = 5 \/ m = 6
          \/ m = 7 \/ m = 8 \/ m = 9)%N as Hc by lia.
  repeat (destruct Hc as [->|Hc]; [reflexivity|]). now subst.
Qed.

Lemma digit_plain c d :
  JS.digit c = Some d ->
  JS.is_white c = false /\ Ascii.eqb c "-" = false /\ Ascii.eqb c "+" = false
  /\ Ascii.eqb c "_" = false.
Proof.
  destruct c as [[] [] [] [] [] [] [] []]; vm_compute; intros E;
    try discriminate E; repeat split.
Qed.

(** The digits that [pretty] puts before [s] read back as the number. *)
Lemma digit_run_pretty x : forall s,
  JS.digit_run (JS.chars (pretty_N_go x s)) 0
  = JS.digit_run (JS.chars s) (Z.of_N x).
Proof.
  induction (N.lt_wf_0 x) as [x _ IH]. intros s.
  destruct (N.eq_dec x 0%N) as [->|Hx]; [now rewrite pretty_N_go_0|].
  assert (Hpos : (0 < x)%N) by lia.
  rewrite pretty_N_go_step by exact Hpos.
  rewrite IH by (apply N.div_lt; lia).
  cbn [JS.chars list_ascii_of_string JS.digit_run].
  change (list_ascii_of_string s) with (JS.chars s).
  rewrite digit_of_char by (apply N.mod_lt; lia).
  f_equal. rewrite (N.div_mod x 10%N) at 3 by lia.
  rewrite N2Z.inj_add, N2Z.inj_mul. reflexivity.
Qed.

Lemma pretty_head x : forall s,
  (0 < x)%N ->
  exists c rest d, JS.chars (pretty_N_go x s) = c :: rest
                   /\ JS.digit c = Some d.
Proof.
  induction (N.lt_wf_0 x) as [x _ IH]. intros s Hx.
  rewrite pretty_N_go_step by exact Hx.
  destruct (N.eq_dec (x / 10)%N 0%N) as [E|E].
  - rewrite E, pretty_N_go_0.
    exists (pretty_N_char (x mod 10)%N), (JS.chars s), (Z.of_N (x mod 10)%N).
    split; [reflexivity|]. apply digit_of_char, N.mod_lt. lia.
  - apply IH; [apply N.div_lt; lia | now apply N.neq_0_lt_0].
Qed.

Lemma pretty_no_underscore x : forall s,
  Forall (fun c => Ascii.eqb c "_" = false) (JS.chars s) ->
  Forall (fun c => Ascii.eqb c "_" = false) (JS.chars (pretty_N_go x s)).
Proof.
  induction (N.lt_wf_0 x) as [x _ IH]. intros s Hs.
  destruct (N.eq_dec x 0%N) as [->|Hx]; [now rewrite pretty_N_go_0|].
  assert (Hpos : (0 < x)%N) by lia.
  rewrite pretty_N_go_step by exact Hpos.
  apply IH; [apply N.div_lt; lia|].
  constructor; [|exact Hs].
  assert (Hd : JS.digit (pretty_N_char (x mod 10)%N)
               = Some (Z.of_N (x mod 10)%N))
    by (apply digit_of_char, N.mod_lt; lia).
  apply (digit_plain _ _ Hd).
Qed.

(** [parseInt] reads back the index that the agenda writes in the key. *)
Lemma parseInt_of_index n :
  JS.parseInt (JS.of_int (Z.of_nat n)) = Some (Z.of_nat n)
  /\ Forall (fun c => Ascii.eqb c "_" = false)
            (JS.chars (JS.of_int (Z.of_nat n))).
Proof.
  unfold JS.of_int, pretty, pretty_Z.
  destruct (Z.of_nat n) as [|p|p] eqn:E; [| |lia].
  - split; [reflexivity | repeat constructor].
  - unfold pretty, pretty_positive, pretty, pretty_N.
    destruct (decide (N.pos p = 0%N)) as [|_]; [discriminate|].
    split.
    + destruct (pretty_head (N.pos p) EmptyString) as (c & rest & d & Hc & Hd);
        [lia|].
      unfold JS.parseInt. rewrite Hc.
      destruct (digit_plain c d Hd) as (W & Hm & Hp & _).
      cbn [JS.skip_white]. rewrite W, Hm, Hp.
      unfold JS.unsigned_int. rewrite Hd, <- Hc.
      now rewrite digit_run_pretty.
    + apply pretty_no_underscore. constructor.
Qed.

Lemma split_chars_none c l :
  Forall (fun x => Ascii.eqb x c = false) l -> JS.split_chars c l = [l].
Proof.
  induction 1 as [|x l Hx _ IH]; simpl; [reflexivity|].
  now rewrite Hx, IH.
Qed.

Lemma split_chars_at c l1 l2 :
  Forall (fun x => Ascii.eqb x c = false) l1 ->
  JS.split_chars c (l1 ++ c :: l2) = l1 :: JS.split_chars c l2.
Proof.
  induction 1 as [|x l1 Hx _ IH]; simpl.
  - now rewrite Ascii.eqb_refl.
  - now rewrite Hx, IH.
Qed.

(** A key [memId_n] whose Memory id has no underscore is read as the
    Memory [memId] and the position [n]. *)
Lemma composite_key_read memId n :
  Forall (fun c => Ascii.eqb c "_" = false) (JS.chars memId) ->
  exists idxStr,
    JS.split "_" (memId +:+ "_" +:+ JS.of_int (Z.of_nat n)) = [memId; idxStr]
    /\ JS.parseInt idxStr = Some (Z.of_nat n).
Proof.
  intros Hid. destruct (parseInt_of_index n) as [Hparse Hclean].
  exists (JS.of_int (Z.of_nat n)). split; [|exact Hparse].
  unfold JS.split. rewrite !JSFacts.chars_app.
  change (JS.chars "_") with ["_"%char]. cbn [app].
  rewrite split_chars_at by exact Hid.
  rewrite split_chars_none by exact Hclean.
  cbn [List.map]. now rewrite !JSFacts.str_chars.
Qed.

(* ===================================================================== *)
(** ** Toggling completion *)
(* ===================================================================== *)

Lemma flip_flip s : flip (flip s) = s.
Proof. now destruct s. Qed.

Lemma with_structuredContent_same mem :
  Memory.with_structuredContent (Memory.structuredContent mem) mem = mem.
Proof. now destruct mem. Qed.

(** Toggling an item that has a status twice gives the item back. *)
Lemma toggle_item_twice rev item :
  Item.status item <> None ->
  Item.with_status
    (toggled_status rev
       (Item.status
          (Item.with_status (toggled_status rev (Item.status item)) item)))
    (Item.with_status (toggled_status rev (Item.status item)) item)
  = item.
Proof.
  destruct item as [t c d l r a td [st|]]; [|simpl; congruence]. intros _.
  unfold Item.with_status. simpl.
  destruct rev; simpl; now rewrite flip_flip.
Qed.

Lemma toggle_in_memory_twice rev memId i mem :
  (forall item, Memory.id mem = memId ->
                at_index (Memory.structuredContent mem) i = Some item ->
                Item.status item <> None) ->
  toggle_in_memory rev memId i (toggle_in_memory rev memId i mem) = mem.
Proof.
  intros Hst. unfold toggle_in_memory at 2.
  destruct (String.eqb_spec (Memory.id mem) memId) as [Hid|Hid].
  - destruct (at_index (Memory.structuredContent mem) i) as [item|] eqn:E.
    + destruct i as [z|]; [|discriminate E].
      unfold toggle_in_memory.
      cbn [Memory.with_structuredContent Memory.id Memory.structuredContent].
      rewrite Hid, String.eqb_refl.
      unfold at_index in *. destruct (z <? 0) eqn:Hz; [discriminate E|].
      rewrite list_lookup_insert_eq by (eapply lookup_lt_Some; exact E).
      cbn [Memory.with_structuredContent Memory.id Memory.structuredContent
           Memory.originalText Memory.rootCategory Memory.project
           Memory.subProject Memory.type Memory.createdAt Memory.tags
           Memory.attachedImage].
      rewrite list_insert_insert_eq, toggle_item_twice by eauto.
      rewrite list_insert_id by exact E. now destruct mem.
    + rewrite with_structuredContent_same.
      unfold toggle_in_memory. rewrite Hid, String.eqb_refl, E.
      apply with_structuredContent_same.
  - unfold toggle_in_memory.
    now destruct (String.eqb_spec (Memory.id mem) memId).
Qed.

Lemma map_twice_id {A} (f : A -> A) (l : list A) :
  (forall x, In x l -> f (f x) = x) -> List.map f (List.map f l) = l.
Proof.
  intros H. rewrite List.map_map. rewrite <- (List.map_id l) at 2.
  apply List.map_ext_in. exact H.
Qed.

(** The key of an item is split at its first underscore.  With a Memory
    "1_2" that holds one pending item, and a Memory "1" whose third item
    has no status, the key "1_2_0" of that pending item is read as
    item 2 of Memory "1": toggling it twice leaves Memory "1_2" as it
    was and gives the third item of Memory "1" a status it did not have,
    in both revisions. *)
Lemma toggle_twice_changes_another_memory :
  let item := fun s => Item.mk "Pack" "Todo" "bags" None None None None s in
  let addressed := Memory.mk "1_2" "trip" (Some "Travel") General None note
                     [item (Some pending)] 0 [] None in
  let other := Memory.mk "1" "list" (Some "Life") General None note
                 [item (Some pending); item (Some pending); item None] 0 []
                 None in
  let r := {| memories := [addressed; other]; tasks := [];
              availableCategories := defaultCategories |} in
  let id := Memory.id addressed +:+ "_" +:+ JS.of_int 0 in
  id = "1_2_0"
  /\ (exists it, Memory.structuredContent addressed !! 0%nat = Some it
                 /\ Item.status it = Some pending)
  /\ forall rev,
       handleTaskComplete rev id true (handleTaskComplete rev id true r) <> r.
Proof.
  intros item addressed other r id.
  split; [reflexivity|]. split; [eexists; split; reflexivity|].
  intros [|]; vm_compute; discriminate.
Qed.

(** C10.  Toggling completion twice with one identifier restores both
    collections, in both revisions, under two conditions on a Memory
    item.  For a Task nothing is needed: its status is one of the two
    values.  For a Memory item the identifier is read as the code reads
    it (the text before the first underscore names the Memory, the
    integer after it the position), and every item it selects is to have
    a status, "pending" or "completed".  So for the key [memId_n] of
    item [n] of a Memory whose id has no underscore (the ids the code
    makes are decimal time stamps, and "mock1" and "mock2"), the item is
    the one the key was made for, and toggling twice restores the
    collections when it has a status. *)
Theorem toggle_twice_restores :
  forall (rev : Revision) (r : Repo),
    (forall id,
       handleTaskComplete rev id false (handleTaskComplete rev id false r) = r)
    /\ (forall id,
          (forall memId rest mem item,
             JS.split "_" id = memId :: rest ->
             In mem (memories r) -> Memory.id mem = memId ->
             at_index (Memory.structuredContent mem)
                      (JS.parseInt_opt (head rest)) = Some item ->
             Item.status item <> None) ->
          handleTaskComplete rev id true (handleTaskComplete rev id true r) = r)
    /\ (forall memId (n : nat),
          Forall (fun c => Ascii.eqb c "_" = false) (JS.chars memId) ->
          (forall mem item,
             In mem (memories r) -> Memory.id mem = memId ->
             Memory.structuredContent mem !! n = Some item ->
             Item.status item <> None) ->
          let id := memId +:+ "_" +:+ JS.of_int (Z.of_nat n) in
          handleTaskComplete rev id true (handleTaskComplete rev id true r) = r).
Proof.
  intros rev r.
  assert (Hmem : forall id,
            (forall memId rest mem item,
               JS.split "_" id = memId :: rest ->
               In mem (memories r) -> Memory.id mem = memId ->
               at_index (Memory.structuredContent mem)
                        (JS.parseInt_opt (head rest)) = Some item ->
               Item.status item <> None) ->
            handleTaskComplete rev id true (handleTaskComplete rev id true r)
            = r).
  { intros id Hst. unfold handleTaskComplete.
    destruct (JS.split "_" id) as [|memId rest] eqn:Hsplit; [reflexivity|].
    cbn [memories tasks availableCategories].
    rewrite map_twice_id; [now destruct r|].
    intros mem Hin. apply toggle_in_memory_twice.
    intros item Hid Hat. eapply Hst; eauto. }
  split; [|split; [exact Hmem|]].
  - intros id. unfold handleTaskComplete.
    cbn [memories tasks availableCategories].
    rewrite map_twice_id; [now destruct r|].
    intros t _. destruct t as [tid title day st fb]. simpl.
    destruct (String.eqb_spec tid id); simpl.
    + destruct (String.eqb_spec tid id); [|contradiction].
      unfold Task.with_status. simpl. now rewrite flip_flip.
    + now destruct (String.eqb_spec tid id).
  - intros memId n Hclean Hst id. apply Hmem.
    intros memId' rest mem item Hsplit Hin Hid Hat.
    destruct (composite_key_read memId n Hclean) as (idxStr & Hs & Hp).
    subst id. rewrite Hs in Hsplit. injection Hsplit as <- <-.
    simpl in Hat. rewrite Hp in Hat. simpl in Hat.
    destruct (Z.ltb_spec (Z.of_nat n) 0); [lia|].
    rewrite Nat2Z.id in Hat. eapply Hst; eauto.
Qed.

(** The mock item of [RevB], addressed as the agenda does, "mock1_0". *)
Lemma toggle_twice_restores_witness :
  let r := initialRepoB 0 0 in
  Forall (fun c => Ascii.eqb c "_" = false) (JS.chars "mock1")
  /\ (forall mem item,
        In mem (memories r) -> Memory.id mem = "mock1" ->
        Memory.structuredContent mem !! 0%nat = Some item ->
        Item.status item <> None)
  /\ handleTaskComplete RevA "mock1_0" true r <> r
  /\ handleTaskComplete RevA "mock1_0" true
       (handleTaskComplete RevA "mock1_0" true r) = r.
Proof.
  intros r.
  assert (Hclean : Forall (fun c => Ascii.eqb c "_" = false)
                          (JS.chars "mock1")).
  { repeat constructor. }
  assert (Hst : forall mem item,
            In mem (memories r) -> Memory.id mem = "mock1" ->
            Memory.structuredContent mem !! 0%nat = Some item ->
            Item.status item <> None).
  { intros mem item [<-|[<-|[]]] Hid Hat; [|discriminate Hid].
    injection Hat as <-. discriminate. }
  split; [exact Hclean|]. split; [exact Hst|]. split; [discriminate|].
  destruct (toggle_twice_restores RevA r) as (_ & _ & Hkey).
  exact (Hkey "mock1" 0%nat Hclean Hst).
Defined.

(** *** The ids of the Memories the component makes *)

Lemma of_int_plain z :
  Forall (fun c => Ascii.eqb c "_" = false) (JS.chars (JS.of_int z)).
Proof.
  unfold JS.of_int, pretty, pretty_Z. destruct z as [|p|p].
  - repeat constructor.
  - unfold pretty, pretty_positive, pretty, pretty_N.
    destruct (decide (N.pos p = 0%N)) as [|_]; [discriminate|].
    apply pretty_no_underscore. constructor.
  - rewrite JSFacts.chars_app. apply Forall_app. split; [repeat constructor|].
    unfold pretty, pretty_positive, pretty, pretty_N.
    destruct (decide (N.pos p = 0%N)) as [|_]; [discriminate|].
    apply pretty_no_underscore. constructor.
Qed.

Lemma plain_ids_map (f : Memory -> Memory) ms :
  (forall m, Memory.id (f m) = Memory.id m) ->
  plain_ids ms -> plain_ids (List.map f ms).
Proof.
  intros Hf Hp. unfold plain_ids in *. rewrite Forall_forall in *.
  intros m' Hin. apply list_elem_of_In, in_map_iff in Hin as (m & <- & Hm).
  rewrite Hf. apply Hp. now apply list_elem_of_In.
Qed.

Lemma plain_ids_filter (f : Memory -> bool) ms :
  plain_ids ms -> plain_ids (List.filter f ms).
Proof.
  unfold plain_ids. rewrite !Forall_forall. intros Hp m Hin.
  apply list_elem_of_In, filter_In in Hin as [Hin _].
  apply Hp. now apply list_elem_of_In.
Qed.

Lemma update_item_plain_ids memoryId itemIndex updatedItem : forall ms ms',
  handleUpdateMemoryItem memoryId itemIndex updatedItem ms = Some ms' ->
  plain_ids ms -> plain_ids ms'.
Proof.
  unfold handleUpdateMemoryItem, plain_ids.
  induction ms as [|m ms IH]; intros ms' Hu Hp.
  - injection Hu as <-. constructor.
  - apply Forall_cons in Hp as [Hm Hp]. cbn [mapM] in Hu.
    destruct (String.eqb (Memory.id m) memoryId).
    + destruct (array_set _ _ _) as [newContent|]; [|discriminate Hu].
      cbn in Hu.
      destruct (mapM _ ms) as [ms0|] eqn:E; [|discriminate Hu].
      injection Hu as <-. constructor; [now destruct m | now apply IH].
    + cbn in Hu. destruct (mapM _ ms) as [ms0|] eqn:E; [|discriminate Hu].
      injection Hu as <-. constructor; [exact Hm | now apply IH].
Qed.

(** Whatever state it captured, the settlement of a gateway call adds at
    most one Memory, with a decimal time stamp for id. *)
Lemma process_input_plain_ids rev inputText selectedImage isCompressingImage
    clock planning processing captured prev handled :
  handleProcessInput rev inputText selectedImage isCompressingImage clock
    planning processing captured prev = Returns handled ->
  plain_ids (memories prev) -> plain_ids (memories (fst handled)).
Proof.
  unfold handleProcessInput, settled. intros Hrun Hp.
  destruct (ignores _ _ _ _); [now injection Hrun as <-|].
  destruct (getProjectHierarchy _ _) as [h| |].
  - destruct (goes_to_planner _ _).
    + destruct planning; now injection Hrun as <-.
    + destruct processing; injection Hrun as <-; [|exact Hp].
      constructor; [apply of_int_plain | exact Hp].
  - now injection Hrun as <-.
  - destruct (goes_to_planner _ _).
    + destruct planning; [discriminate | now injection Hrun as <-].
    + destruct processing; [discriminate | now injection Hrun as <-].
Qed.

Lemma apply_plain_ids `{Host} rev e r r' notices :
  apply rev e r = Some (r', notices) ->
  plain_ids (memories r) -> plain_ids (memories r').
Proof.
  intros Happ Hp. destruct e; simpl in Happ.
  - destruct (handleProcessInput _ _ _ _ _ _ _ _ _) as [handled| |] eqn:E;
      try discriminate Happ.
    injection Happ as ->.
    now apply (process_input_plain_ids _ _ _ _ _ _ _ _ _ _ E).
  - injection Happ as <- _. unfold handleTaskComplete.
    destruct isMemoryItem; [|exact Hp].
    destruct (JS.split "_" id); [exact Hp|]. cbn [memories].
    apply plain_ids_map; [|exact Hp]. intros m. unfold toggle_in_memory.
    destruct (String.eqb (Memory.id m) _); [|reflexivity].
    cbv zeta. destruct (at_index _ _) as [item|];
      [destruct (JS.parseInt_opt _)|]; now destruct m.
  - injection Happ as <- _. cbn [with_memories memories].
    unfold handleDeleteMemoryItem. apply plain_ids_filter, plain_ids_map;
      [|exact Hp].
    intros m. unfold delete_in_memory.
    destruct (String.eqb (Memory.id m) _); [now destruct m|reflexivity].
  - destruct (handleUpdateMemoryItem _ _ _ _) as [ms|] eqn:E;
      [|discriminate Happ].
    injection Happ as <- _. cbn [with_memories memories].
    eapply update_item_plain_ids; eauto.
  - injection Happ as <- _. unfold handleAddCategory.
    destruct (negb _); [exact Hp|]. now destruct (JS.includes _ _).
  - injection Happ as Happ. unfold handleDeleteCategory in Happ.
    destruct (_ <=? 1)%nat; injection Happ as <- _; exact Hp.
  - injection Happ as <- _. unfold handleUpdateCategoryName.
    destruct (_ || _)%bool; [exact Hp|]. cbn [memories].
    apply plain_ids_map; [|exact Hp]. intros m.
    destruct (Memory.rootCategory m) as [[c|]|n]; try reflexivity.
    destruct (String.eqb c oldName); [now destruct m | reflexivity].
  - injection Happ as Happ. unfold handleAddProject in Happ.
    destruct (negb (JS.truthy _)); [injection Happ as <- _; exact Hp|].
    destruct (negb (isProjectNameGloballyUnique _ _));
      injection Happ as <- _; [exact Hp|].
    constructor; [apply of_int_plain | exact Hp].
  - injection Happ as <- _. cbn [with_memories memories].
    now apply plain_ids_filter.
  - destruct (listed r oldName); [|discriminate Happ].
    injection Happ as Happ. unfold handleUpdateProjectName in Happ.
    destruct (_ || _)%bool; [injection Happ as <- _; exact Hp|].
    destruct (negb (isProjectNameGloballyUnique _ _));
      injection Happ as <- _; [exact Hp|].
    cbn [memories]. apply plain_ids_map; [|exact Hp]. intros m.
    destruct (String.eqb (Memory.project m) oldName);
      [now destruct m | reflexivity].
Qed.

(** No id of a Memory holds an underscore, in any state the handlers
    reach from a start of session: the key of an item is read as it was
    written. *)
Lemma reachable_plain_ids `{Host} rev r :
  reachable rev r -> plain_ids (memories r).
Proof.
  intros (r0 & es & H0 & Hrun).
  assert (P0 : plain_ids (memories r0)).
  { destruct rev; simpl in H0.
    - subst r0. constructor.
    - destruct H0 as (n1 & n2 & ->). repeat constructor. }
  clear H0. revert r0 Hrun P0.
  induction es as [|e es IH]; intros r0 Hrun P0; simpl in Hrun.
  - now injection Hrun as <-.
  - destruct (apply rev e r0) as [[r1 notices]|] eqn:E; [|discriminate].
    apply (IH r1 Hrun). eapply apply_plain_ids; eauto.
Qed.

(* ===================================================================== *)
(** ** The category list *)
(* ===================================================================== *)









(** A run of events of the controls stays within the reached states. *)
Lemma run_reached `{Host} rev es : forall r0 r,
  reached rev r0 -> forallb wired es = true -> run rev es r0 = Some r ->
  reached rev r.
Proof.
  induction es as [|e es IH]; intros r0 r Hr Hw Hrun; simpl in Hrun.
  - now injection Hrun as <-.
  - simpl in Hw. apply andb_prop in Hw as [He Hw].
    destruct (apply rev e r0) as [[r1 notices]|] eqn:E; [|discriminate].
    apply (IH r1 r); [|exact Hw|exact Hrun].
    eapply reached_event; eauto.
Qed.



(* ===================================================================== *)
(** ** Project names and their owners *)
(* ===================================================================== *)

Lemma used_name_not_unique ms name :
  In name (List.map Memory.project ms) -> name <> General ->
  isProjectNameGloballyUnique ms name = false.
Proof.
  intros Hin Hg. unfold isProjectNameGloballyUnique.
  destruct (String.eqb_spec name General); [contradiction|].
  apply JSFacts.includes_In in Hin. now rewrite Hin.
Qed.

(** The two handlers that take a project name from the user refuse one
    that, once trimmed, some Memory carries: creating a project under it,
    or renaming a project to it, changes nothing and raises a notice (a
    rename to the project's own name is dropped silently). *)
Lemma used_name_rejected `{Host} rev r :
  (forall targetCategory tempProjectName newProjectName newProjectCategory
          clock,
     let name := if JS.truthy_opt targetCategory
                 then tempProjectName else newProjectName in
     In (JS.trim name) (List.map Memory.project (memories r)) ->
     JS.truthy (JS.trim name) = true -> JS.trim name <> General ->
     exists notice,
       handleAddProject rev targetCategory tempProjectName newProjectName
         newProjectCategory clock r = (r, [notice]))
  /\ (forall oldName newName,
        In (JS.trim newName) (List.map Memory.project (memories r)) ->
        JS.truthy (JS.trim newName) = true -> JS.trim newName <> General ->
        fst (handleUpdateProjectName rev oldName newName r) = r
        /\ (newName <> oldName ->
            exists notice,
              snd (handleUpdateProjectName rev oldName newName r) = [notice])).
Proof.
  split.
  - intros targetCategory tempProjectName newProjectName newProjectCategory
           clock name Hin T Hg.
    unfold handleAddProject. fold name. rewrite T. simpl.
    rewrite (used_name_not_unique _ _ Hin Hg). simpl. eauto.
  - intros oldName newName Hin T Hg.
    unfold handleUpdateProjectName. rewrite T. simpl.
    destruct (String.eqb_spec newName oldName) as [E|E].
    + split; [reflexivity | contradiction].
    + rewrite (used_name_not_unique _ _ Hin Hg). simpl.
      split; [reflexivity | eauto].
Qed.

(** The name of a member of [Object.prototype], carried by a project
    made by hand under Travel and declared by the gateway: the handler,
    in one step, stores the Memory under the member found on the
    prototype of the reverse index, beside the placeholder under
    Travel. *)
Lemma inherited_name_gives_second_owner :
  forall rev : Revision,
    let start := match rev with
                 | RevA => initialRepoA
                 | RevB => initialRepoB 0 0
                 end in
    let declared := ProcessingResult.mk "Travel" "__proto__" "Osaka" note []
                      [] in
    exists r,
      run (H := utc_host) rev
        [ AddProject (Some "Travel") "__proto__" EmptyString "Travel"
            (fun _ => 5);
          ProcessInput "Okonomiyaki in Osaka" None false (fun _ => 9)
            (Rejected "unused") (Resolved declared) ]
        start = Some r
      /\ firstn 2 (List.map (fun m => (Memory.rootCategory m, Memory.project m))
                            (memories r))
         = [ (Builtin "__proto__", "__proto__");
             (Plain (Some "Travel"), "__proto__") ]
      /\ ~ unique_owner (memories r).
Proof.
  intros rev start declared. subst start declared.
  destruct rev; (eexists; split; [vm_compute; reflexivity|]);
    (split; [vm_compute; reflexivity|]); intros Hu;
    cbn [memories] in Hu;
    specialize (Hu _ _ (or_introl eq_refl) (or_intror (or_introl eq_refl))
                  eq_refl);
    cbn in Hu;
    assert (Hx : Builtin "__proto__" = Plain (Some "Travel"))
      by (apply Hu; discriminate); discriminate Hx.
Qed.

(** C2.  A gateway result is validated against the hierarchy that the
    handler captured when the input was submitted, and stored into the
    collection as it is when the call settles.  A session, in either
    revision: project Japan is made by hand under Travel; an input is
    submitted; while the gateway call is pending Japan is deleted and
    made again under Life; the call settles with the pair
    (Travel, Japan).  The handler finds Japan under Travel in the
    hierarchy it captured and stores the new Memory as (Travel, Japan),
    beside the placeholder (Life, Japan): project Japan has two root
    categories, in a state where each step before left it one. *)
Theorem late_settlement_gives_second_owner :
  forall rev : Revision,
    let start := match rev with
                 | RevA => initialRepoA
                 | RevB => initialRepoB 0 0
                 end in
    let declared := ProcessingResult.mk "Travel" "Japan" "Osaka" note []
                      [Item.mk "Okonomiyaki" "Food" "Dotonbori" None None
                         None None None] in
    exists (captured current final : Repo) (m1 m2 : Memory),
      run (H := utc_host) rev
        [AddProject (Some "Travel") "Japan" EmptyString "Travel" (fun _ => 5)]
        start = Some captured
      /\ run (H := utc_host) rev
           [ DeleteProject "Japan";
             AddProject (Some "Life") "Japan" EmptyString "Travel"
               (fun _ => 7) ]
           captured = Some current
      /\ handleProcessInput rev "Okonomiyaki in Osaka" None false
           (fun _ => 9) (Rejected "unused") (Resolved declared)
           captured current
         = Returns (final, [])
      /\ unique_owner (memories captured)
      /\ unique_owner (memories current)
      /\ reached (H := utc_host) rev final
      /\ In m1 (memories final) /\ In m2 (memories final)
      /\ Memory.project m1 = "Japan" /\ Memory.project m2 = "Japan"
      /\ Memory.rootCategory m1 = Some "Travel"
      /\ Memory.rootCategory m2 = Some "Life"
      /\ ~ unique_owner (memories final).
Proof.
  intros rev start declared.
  assert (Hstart : reached (H := utc_host) rev start).
  { apply reached_initial. subst start. destruct rev; simpl;
      [reflexivity | now exists 0, 0]. }
  set (es1 := [AddProject (Some "Travel") "Japan" EmptyString "Travel"
                 (fun _ => 5)]).
  set (es2 := [ DeleteProject "Japan";
                AddProject (Some "Life") "Japan" EmptyString "Travel"
                  (fun _ => 7) ]).
  destruct (run (H := utc_host) rev es1 start) as [captured|] eqn:E1;
    [|subst start; destruct rev; discriminate E1].
  destruct (run (H := utc_host) rev es2 captured) as [current|] eqn:E2;
    [|subst start; destruct rev; vm_compute in E1; injection E1 as <-;
      discriminate E2].
  assert (Hc : reached (H := utc_host) rev captured).
  { apply (run_reached rev es1 start captured Hstart); [reflexivity|exact E1]. }
  assert (Hn : reached (H := utc_host) rev current).
  { apply (run_reached rev es2 captured current Hc); [reflexivity|exact E2]. }
  destruct (handleProcessInput rev "Okonomiyaki in Osaka" None false
              (fun _ => 9) (Rejected "unused") (Resolved declared)
              captured current) as [[final notices]| |] eqn:E3;
    try (exfalso; subst start declared; destruct rev;
         vm_compute in E1; injection E1 as <-;
         vm_compute in E2; injection E2 as <-;
         vm_compute in E3; discriminate E3).
  assert (Hf : reached (H := utc_host) rev final).
  { eapply reached_settled; [exact Hc | exact Hn | exact E3]. }
  subst start declared.
  destruct rev;
    vm_compute in E1; injection E1 as <-;
    vm_compute in E2; injection E2 as <-;
    vm_compute in E3; injection E3 as <- <-.
  all: eexists _, _, _, _, _.
  all: split; [reflexivity|]; split; [reflexivity|]; split; [reflexivity|].
  all: split; [intros m1 m2 H1 H2 Hp Hg; simpl in H1, H2;
               intuition (subst; cbv in Hp, Hg |- *; congruence)|].
  all: split; [intros m1 m2 H1 H2 Hp Hg; simpl in H1, H2;
               intuition (subst; cbv in Hp, Hg |- *; congruence)|].
  all: split; [exact Hf|].
  all: split; [left; reflexivity|].
  all: split; [right; left; reflexivity|].
  all: repeat (split; [reflexivity|]).
  all: intros Hu;
    specialize (Hu _ _ (or_introl eq_refl) (or_intror (or_introl eq_refl))
                  eq_refl);
    cbn in Hu; assert (Hx : Plain (Some "Travel") = Plain (Some "Life"))
      by (apply Hu; discriminate); discriminate Hx.
Qed.

(* ===================================================================== *)
(** ** Failure of the classification call *)
(* ===================================================================== *)

Lemma processInput_rejects `{Host} reply :
  gateway_fails reply -> exists error, processInput reply = Rejected error.
Proof.
  destruct reply as [[text|]|error]; simpl; [|eauto..].
  intros [T|P].
  - rewrite T. eauto.
  - destruct (JS.truthy text); [|eauto]. rewrite P. eauto.
Qed.

(** C8.  When the classification call of [handleProcessInput] fails, by a
    rejected request, a response without text or a text that does not
    parse once its code fence is stripped, the handler returns normally
    with the three collections as they are (whatever state it captured,
    and whether or not the hierarchy could be derived from it) and
    exactly one notice, the failure message of the revision. *)
Theorem failed_classification_changes_nothing :
  forall (H : Host) (rev : Revision) (inputText : string)
         (selectedImage : option string) (isCompressingImage : bool)
         (clock : nat -> Z) (planning : Outcome PlanningResult)
         (reply : Outcome (option string)) (captured r : Repo),
    ignores rev inputText selectedImage isCompressingImage = false ->
    goes_to_planner inputText selectedImage = false ->
    gateway_fails reply ->
    handleProcessInput rev inputText selectedImage isCompressingImage clock
      planning (processInput reply) captured r
    = Returns (r, [match rev with
                   | RevA => "Processing failed. Check API key or input size."
                   | RevB => "Failed to process input. Please try again."
                   end]).
Proof.
  intros H rev inputText selectedImage isCompressingImage clock planning
         reply captured r Hguard Hroute Hfail.
  destruct (processInput_rejects reply Hfail) as [error ->].
  unfold handleProcessInput, settled. rewrite Hguard, Hroute.
  now destruct (getProjectHierarchy _ _).
Qed.

(** A fenced answer that is not JSON, against the mock data of [RevB]. *)
Lemma failed_classification_changes_nothing_witness :
  let reply := Resolved (Some "```json oops ```") in
  let r := initialRepoB 0 0 in
  ignores RevB "Dinner at Gwangjang market" None false = false
  /\ goes_to_planner "Dinner at Gwangjang market" None = false
  /\ gateway_fails (H := utc_host) reply
  /\ handleProcessInput RevB "Dinner at Gwangjang market" None false
       (fun _ => 0) (Rejected "unused") (processInput (H := utc_host) reply)
       r r
     = Returns (r, ["Failed to process input. Please try again."]).
Proof.
  intros reply r.
  split; [reflexivity|]. split; [reflexivity|].
  split; [right; reflexivity|].
  apply (failed_classification_changes_nothing utc_host RevB
           "Dinner at Gwangjang market" None false (fun _ => 0)
           (Rejected "unused") reply r r);
    [reflexivity | reflexivity | right; reflexivity].
Defined.

(* ===================================================================== *)
(** ** Backward delete after a tag *)
(* ===================================================================== *)

Section SortFacts.
Context {A : Type} (cmp : A -> A -> Z).

Lemma In_sort_insert x l y : In y (sort_insert cmp x l) <-> y = x \/ In y l.
Proof.
  induction l as [|z l IH]; simpl; [intuition|].
  destruct (0 <? cmp x z); simpl; [rewrite IH|]; intuition.
Qed.

Lemma In_sort l y : In y (sort cmp l) <-> In y l.
Proof.
  induction l as [|x l IH]; simpl; [tauto|].
  rewrite In_sort_insert, IH. intuition.
Qed.

End SortFacts.

(** Longest first. *)
Lemma allTags_sorted l :
  StronglySorted (fun a b => (String.length b <= String.length a)%nat)
    (sort (fun a b => Z.of_nat (String.length b) - Z.of_nat (String.length a))
          l).
Proof.
  induction l as [|x l IH]; simpl; [constructor|].
  set (cmp := fun a b => Z.of_nat (String.length b) - Z.of_nat (String.length a)).
  fold cmp in IH. revert IH. generalize (sort cmp l) as s. clear l.
  induction s as [|y s IHs]; intros Hs; simpl.
  - constructor; constructor.
  - apply StronglySorted_inv in Hs as [Hs Hy].
    destruct (Z.ltb_spec 0 (cmp x y)) as [Hlt|Hge]; unfold cmp in *.
    + constructor; [now apply IHs|].
      apply List.Forall_forall. intros z Hz.
      apply In_sort_insert in Hz as [->|Hz]; [lia|].
      rewrite List.Forall_forall in Hy. now apply Hy.
    + constructor; [now constructor|].
      constructor; [lia|].
      rewrite List.Forall_forall in Hy |- *. intros z Hz.
      specialize (Hy z Hz). simpl in Hy. lia.
Qed.

Lemma In_distinct xs x : In x (distinct xs) <-> In x xs.
Proof.
  unfold distinct.
  assert (G : forall seen,
            In x (fold_left (fun seen x => if JS.includes x seen then seen
                                           else seen ++ [x]) xs seen)
            <-> In x seen \/ In x xs).
  { induction xs as [|y xs IH]; intros seen; simpl; [tauto|].
    rewrite IH. destruct (JS.includes y seen) eqn:I.
    - apply JSFacts.includes_In in I. split; [tauto|].
      intros [H|[<-|H]]; tauto.
    - rewrite in_app_iff. simpl. tauto. }
  rewrite G. simpl. tauto.
Qed.

(** [find] returns the first match. *)
Lemma find_first {A} (f : A -> bool) l x :
  List.find f l = Some x ->
  exists l1 l2, l = l1 ++ x :: l2 /\ f x = true
                /\ forall y, In y l1 -> f y = false.
Proof.
  induction l as [|y l IH]; simpl; [discriminate|].
  destruct (f y) eqn:F.
  - intros [= <-]. exists [], l. repeat split; [assumption | intros z []].
  - intros H. destruct (IH H) as (l1 & l2 & -> & Fx & Hl1).
    exists (y :: l1), l2. repeat split; [assumption|].
    intros z [<-|Hz]; [assumption | now apply Hl1].
Qed.

(** The known tags: the categories and the non-empty project names. *)
Lemma In_allTags cats mems t :
  In t (allTags cats mems)
  <-> In t cats
      \/ (In t (List.map Memory.project mems) /\ JS.truthy t = true).
Proof.
  unfold allTags. rewrite In_sort, in_app_iff, List.filter_In, In_distinct.
  tauto.
Qed.

Lemma length_append a b :
  String.length (a +:+ b) = (String.length a + String.length b)%nat.
Proof.
  rewrite <- !JSFacts.length_chars, JSFacts.chars_app. apply List.length_app.
Qed.

Lemma append_assoc a b c : (a +:+ b) +:+ c = a +:+ (b +:+ c).
Proof.
  apply JSFacts.chars_inj. rewrite !JSFacts.chars_app.
  symmetry. apply List.app_assoc.
Qed.

Lemma clamp_nat len n : (n <= len)%nat -> JS.clamp len (Z.of_nat n) = n.
Proof.
  intros H. unfold JS.clamp.
  destruct (Z.ltb_spec (Z.of_nat n) 0); [lia|].
  rewrite Nat2Z.id. lia.
Qed.

Lemma slice_prefix s n :
  (n <= String.length s)%nat ->
  JS.slice s 0 (Z.of_nat n) = JS.str (firstn n (JS.chars s)).
Proof.
  intros H. unfold JS.slice. rewrite (clamp_nat _ n H).
  change 0 with (Z.of_nat 0). rewrite (clamp_nat _ 0%nat) by lia.
  now rewrite Nat.sub_0_r.
Qed.

Lemma slice_from_suffix s n :
  (n <= String.length s)%nat ->
  JS.slice_from s (Z.of_nat n) = JS.str (skipn n (JS.chars s)).
Proof. intros H. unfold JS.slice_from. now rewrite (clamp_nat _ n H). Qed.

(** The text is what is before the cursor, then what is after it. *)
Lemma slice_split s n :
  (n <= String.length s)%nat ->
  s = JS.slice s 0 (Z.of_nat n) +:+ JS.slice_from s (Z.of_nat n).
Proof.
  intros H. rewrite slice_prefix, slice_from_suffix by exact H.
  rewrite <- JSFacts.str_app, List.firstn_skipn. symmetry.
  apply JSFacts.str_chars.
Qed.

Lemma slice_of_append a b :
  JS.slice (a +:+ b) 0 (Z.of_nat (String.length a)) = a.
Proof.
  rewrite slice_prefix by (rewrite length_append; lia).
  rewrite JSFacts.chars_app, <- JSFacts.length_chars.
  rewrite List.firstn_app, Nat.sub_diag, List.firstn_all. simpl.
  rewrite List.app_nil_r. apply JSFacts.str_chars.
Qed.

(** C6.  With the cursor, and no selection, right after [/tag] where
    [tag] is a category or the project of some Memory (and not the empty
    name), Backspace is handled by the component: the text before the
    cursor ends with [/tag'] for a known tag [tag'] that is the longest
    known tag it ends with in that way (so at least as long as [tag]); the
    whole of [/tag'] leaves the text, the rest stays, and the cursor goes
    to where [/tag'] began. *)
Theorem backspace_removes_tag :
  forall (inputText : string) (cursor : nat) (cats : list string)
         (mems : list Memory) (tag before : string),
    JS.truthy tag = true ->
    In tag cats \/ In tag (List.map Memory.project mems) ->
    (cursor <= String.length inputText)%nat ->
    JS.slice inputText 0 (Z.of_nat cursor) = before +:+ "/" +:+ tag ->
    exists tag' before',
      (In tag' cats \/ In tag' (List.map Memory.project mems))
      /\ (String.length tag <= String.length tag')%nat
      /\ (forall t,
            In t cats \/ In t (List.map Memory.project mems) ->
            JS.truthy t = true ->
            JS.endsWith (JS.slice inputText 0 (Z.of_nat cursor)) ("/" +:+ t)
            = true ->
            (String.length t <= String.length tag')%nat)
      /\ inputText = before' +:+ ("/" +:+ tag')
                     +:+ JS.slice_from inputText (Z.of_nat cursor)
      /\ handleKeyDown "Backspace" cursor cursor inputText cats mems
         = Some (before' +:+ JS.slice_from inputText (Z.of_nat cursor),
                 Z.of_nat (String.length before')).
Proof.
  intros inputText cursor cats mems tag before Ttag Hknown Hcur Hends.
  set (textBefore := JS.slice inputText 0 (Z.of_nat cursor)) in *.
  set (tags := allTags cats mems).
  set (f := fun t => JS.endsWith textBefore ("/" +:+ t)).
  assert (Hin : In tag tags).
  { apply In_allTags. destruct Hknown; [now left | right; now split]. }
  assert (Hf : f tag = true).
  { apply JSFacts.endsWith_spec. now exists before. }
  destruct (List.find f tags) as [tag'|] eqn:Hfind.
  2:{ pose proof (List.find_none f tags Hfind tag Hin). congruence. }
  destruct (find_first f tags tag' Hfind) as (l1 & l2 & Htags & Hf' & Hl1).
  assert (Hlongest : forall t, In t tags -> f t = true ->
                       (String.length t <= String.length tag')%nat).
  { intros t Ht Hft. rewrite Htags in Ht.
    apply in_app_or in Ht as [Ht|[<-|Ht]].
    - rewrite (Hl1 t Ht) in Hft. discriminate.
    - lia.
    - pose proof (allTags_sorted
                    (cats ++ List.filter JS.truthy
                               (distinct (List.map Memory.project mems))))
        as Hs.
      change (sort _ _) with tags in Hs. rewrite Htags in Hs.
      apply StronglySorted_app_1_r, StronglySorted_inv in Hs as [_ Hs].
      rewrite List.Forall_forall in Hs. now apply Hs. }
  assert (Hlen : (String.length tag <= String.length tag')%nat)
    by now apply Hlongest.
  assert (Ttag' : JS.truthy tag' = true).
  { destruct tag'; [|reflexivity]. destruct tag; [discriminate|].
    simpl in Hlen. lia. }
  apply JSFacts.endsWith_spec in Hf' as [before' Hb'].
  assert (Hknown' : In tag' cats \/ In tag' (List.map Memory.project mems)).
  { assert (Ht' : In tag' tags) by (rewrite Htags; apply in_or_app; right; now left).
    apply In_allTags in Ht'. tauto. }
  assert (Hlen_before : Z.of_nat cursor - (Z.of_nat (String.length tag') + 1)
                        = Z.of_nat (String.length before')).
  { assert (E : String.length textBefore = cursor).
    { unfold textBefore. rewrite slice_prefix by exact Hcur.
      rewrite <- JSFacts.length_chars, JSFacts.chars_str.
      rewrite List.length_firstn, JSFacts.length_chars. lia. }
    rewrite Hb', !length_append in E. simpl in E. lia. }
  assert (Hsplit : inputText = before' +:+ ("/" +:+ tag')
                               +:+ JS.slice_from inputText (Z.of_nat cursor)).
  { rewrite <- append_assoc, <- Hb'. now apply slice_split. }
  exists tag', before'. split; [exact Hknown'|]. split; [exact Hlen|].
  split; [|split; [exact Hsplit|]].
  - intros t Hk Tt He. apply Hlongest; [|exact He].
    apply In_allTags. destruct Hk; [now left | right; now split].
  - unfold handleKeyDown. simpl String.eqb. cbv iota.
    rewrite Nat.eqb_refl. simpl negb. cbv iota.
    unfold matchedTag. fold textBefore. fold tags. fold f. rewrite Hfind.
    rewrite Ttag', Hlen_before. f_equal. f_equal. f_equal.
    rewrite Hsplit at 1. apply slice_of_append.
Qed.

(** The example of the specification, evaluated: "Korea Trip" is a
    project and "Korea" a category; the cursor is right after
    [/Korea Trip]. *)
Example backspace_after_korea_trip :
  handleKeyDown "Backspace" 14 14 "go /Korea Trip now" ["Travel"; "Korea"]
    [Memory.mk "mock1" "Mock" (Some "Travel") "Korea Trip" (Some "Seoul")
       note [] 0 [] None]
  = Some ("go  now", 3).
Proof. reflexivity. Qed.

Lemma backspace_removes_tag_witness :
  let mems := [Memory.mk "mock1" "Mock" (Some "Travel") "Korea Trip"
                 (Some "Seoul") note [] 0 [] None] in
  let cats := ["Travel"; "Korea"] in
  let inputText := "go /Korea Trip now" in
  JS.truthy "Korea Trip" = true
  /\ (In "Korea Trip" cats \/ In "Korea Trip" (List.map Memory.project mems))
  /\ (14 <= String.length inputText)%nat
  /\ JS.slice inputText 0 (Z.of_nat 14) = "go " +:+ "/" +:+ "Korea Trip"
  /\ exists tag' before',
       (In tag' cats \/ In tag' (List.map Memory.project mems))
       /\ (String.length "Korea Trip" <= String.length tag')%nat
       /\ (forall t,
             In t cats \/ In t (List.map Memory.project mems) ->
             JS.truthy t = true ->
             JS.endsWith (JS.slice inputText 0 (Z.of_nat 14)) ("/" +:+ t)
             = true ->
             (String.length t <= String.length tag')%nat)
       /\ inputText = before' +:+ ("/" +:+ tag')
                      +:+ JS.slice_from inputText (Z.of_nat 14)
       /\ handleKeyDown "Backspace" 14 14 inputText cats mems
          = Some (before' +:+ JS.slice_from inputText (Z.of_nat 14),
                  Z.of_nat (String.length before')).
Proof.
  intros mems cats inputText.
  split; [reflexivity|]. split; [right; now left|].
  split; [vm_compute; lia|]. split; [reflexivity|].
  apply (backspace_removes_tag inputText 14 cats mems "Korea Trip" "go ");
    [reflexivity | right; now left | vm_compute; lia | reflexivity].
Defined.

(* ===================================================================== *)
(** ** The agenda *)
(* ===================================================================== *)

(** The agenda is the Tasks of the plan day, in collection order, then the
    dated items of the Memories, Memory by Memory. *)
Lemma allItems_shape `{Host} now selectedDate r :
  allItems now selectedDate r
  = List.map of_task
      (List.filter (fun t => Task.day t =? planDayNumber now selectedDate)
                   (tasks r))
    ++ List.concat
         (List.map (memoryTasks_of (formatDate selectedDate)) (memories r)).
Proof. reflexivity. Qed.

Lemma ceil_div_multiple d : ceil_div (d * MS_PER_DAY) MS_PER_DAY = d.
Proof.
  unfold ceil_div. rewrite <- Z.mul_opp_l, Z.div_mul by discriminate. lia.
Qed.

(** A date picked in the calendar is a local midnight: a whole number of
    days from today's, and the plan day is that number plus one. *)
Lemma planDayNumber_of_midnight `{Host} now d :
  planDayNumber now (setHours0 now + d * MS_PER_DAY) = d + 1.
Proof.
  unfold planDayNumber.
  replace (setHours0 now + d * MS_PER_DAY - setHours0 now)
    with (d * MS_PER_DAY) by lia.
  now rewrite ceil_div_multiple.
Qed.

(** A selected date that carries a time of day, as the initial
    [new Date()] does, is counted one day late: any instant of today after
    midnight gives plan day 2. *)
Lemma planDayNumber_later_today `{Host} now k :
  0 < k <= MS_PER_DAY -> planDayNumber now (setHours0 now + k) = 2.
Proof.
  intros Hk. unfold planDayNumber.
  replace (setHours0 now + k - setHours0 now) with k by lia.
  unfold ceil_div.
  assert (E : - k / MS_PER_DAY = -1).
  { symmetry. apply (Z.div_unique_pos (- k) MS_PER_DAY (-1) (MS_PER_DAY - k));
      unfold MS_PER_DAY in *; lia. }
  rewrite E. reflexivity.
Qed.

(** C4, the failing input.  [RevB] opened on 15 October 2025 at 09:00
    (UTC): the selected date is the initial [new Date()], the same calendar
    day as today, zero whole days away.  The two Tasks of day 1 are to be
    on the agenda; the code computes plan day 2, and the agenda holds the
    Memory item of that date only.  The same date picked in the calendar
    (its midnight) shows them. *)
Theorem agenda_of_initial_date_skips_day_one :
  let now := 1760518800000 in
  let selectedDate := now in
  let r := initialRepoB now now in
  local (Host := utc_host) selectedDate
  = local (Host := utc_host) (setHours0 (Host := utc_host) now)
  /\ formatDate (H := utc_host) selectedDate = "2025.10.15"
  /\ List.map Task.day (tasks r) = [0 + 1; 0 + 1]
  /\ planDayNumber (H := utc_host) now selectedDate = 2
  /\ List.map agenda_title (allItems (H := utc_host) now selectedDate r)
     = ["Gyeongbokgung Palace"]
  /\ List.map agenda_title
       (allItems (H := utc_host) now (setHours0 (Host := utc_host) now) r)
     = ["Day 1: Check flights"; "Day 1: Pack luggage"; "Gyeongbokgung Palace"].
Proof. repeat split; vm_compute; reflexivity. Qed.

(* ===================================================================== *)
(** ** The memory browser *)
(* ===================================================================== *)

(** No folder is named "General": the Memories of that project are shown
    in the flat list only. *)
Lemma no_General_folder `{Host} rev selectedRootCategory expandedProjects
    mems view f :
  renderMemoryView rev selectedRootCategory expandedProjects mems
  = Returns view ->
  In f (folders view) ->
  projectName f <> General.
Proof.
  unfold renderMemoryView. intros Hv.
  apply and_then_Returns in Hv as (g & _ & [= <-]).
  cbn [folders memory_list]. intros Hf.
  apply List.in_map_iff in Hf as (e & <- & He).
  apply List.filter_In in He as [_ He]. cbn [folder_of projectName].
  apply negb_true_iff in He. now apply String.eqb_neq.
Qed.

(** C7, the failing input.  Project "Korea Trip" has two sub-projects;
    under "Seoul" a Memory dated 2025.12.01 was captured before one dated
    2025.10.15.  [RevA] shows the two cards in the order of capture, the
    later date first; [RevB], which sorts, shows them by ascending date. *)
Theorem folder_cards_unsorted_in_RevA :
  let item d := Item.mk "Visit" "Sightseeing" "to see" None None None
                  (Some d) (Some pending) in
  let m1 := Memory.mk "m1" "palace" (Some "Travel") "Korea Trip"
              (Some "Seoul") note [item "2025.12.01"] 0 [] None in
  let m2 := Memory.mk "m2" "tower" (Some "Travel") "Korea Trip"
              (Some "Seoul") note [item "2025.10.15"] 0 [] None in
  let m3 := Memory.mk "m3" "beach" (Some "Travel") "Korea Trip"
              (Some "Busan") note [item "2025.11.05"] 0 [] None in
  let dates rev :=
    match renderMemoryView (H := utc_host) rev "All" ["Korea Trip"]
            [m1; m2; m3] with
    | Returns view =>
        Some (List.map
                (fun f => (projectName f,
                           List.map (fun b => (subProjectName b,
                                               List.map displayDate (cards b)))
                                    (default [] (content f))))
                (folders view))
    | _ => None
    end in
  dates RevA = Some [("Korea Trip", [("Seoul", ["2025.12.01"; "2025.10.15"]);
                                     ("Busan", ["2025.11.05"])])]
  /\ String.ltb "2025.10.15" "2025.12.01" = true
  /\ dates RevB = Some [("Korea Trip", [("Seoul", ["2025.10.15"; "2025.12.01"]);
                                        ("Busan", ["2025.11.05"])])].
Proof. repeat split; vm_compute; reflexivity. Qed.

(* ===================================================================== *)
(** ** The derived hierarchy, characterised *)
(* ===================================================================== *)

(** X1.  [getProjectHierarchy] returns a hierarchy exactly in the
    derivable states: "__proto__" is no category, and every Memory with a
    project to count has a string for category, one that is in the
    category list if [Object.prototype] has a member of that name.  The
    keys of the hierarchy it returns are the available categories and
    the categories that own a project; the projects under a key are the
    ones the key owns, each listed once, and "General" is never among
    them. *)
Theorem hierarchy_characterised :
  forall (cats : list string) (mems : list Memory),
    ((exists h, getProjectHierarchy cats mems = Returns h)
     <-> derivable cats mems = true)
    /\ forall h c,
         getProjectHierarchy cats mems = Returns h ->
         (is_Some (Obj.get c h) <-> In c cats \/ exists p, owns mems c p)
         /\ (forall p, lists h c p <-> owns mems c p)
         /\ (forall projs, Obj.get c h = Some projs ->
               NoDup projs /\ ~ In General projs).
Proof.
  intros cats mems. split; [apply hierarchy_returns|].
  intros h c Hh.
  destruct (hierarchy_facts cats mems h Hh c) as (K1 & K2 & _ & K4 & K5).
  pose proof (lists_owns cats mems h c) as Hl.
  split; [|split].
  - split; [exact K1|]. intros [Hin|[p Hp]]; [now apply K2 | eauto].
  - intros p. now apply Hl.
  - intros projs G. destruct (K5 projs G) as [N S]. split; [exact N|].
    intros Hg. apply S in Hg.
    destruct Hg as (m & _ & _ & _ & _ & _ & Hne). now apply Hne.
Qed.

(** The mock data of [RevB]; two states in which the deriver does not
    return: a counted Memory under a category named like a member of
    [Object.prototype] that is not in the list, and a category
    "__proto__". *)
Lemma hierarchy_of_mock_data :
  getProjectHierarchy defaultCategories (memories (initialRepoB 0 0))
  = Returns [("Travel", ["Korea Trip"]); ("Learning", []);
             ("Inspiration", []); ("Work", []); ("Life", [])]
  /\ getProjectHierarchy ["Travel"]
       [Memory.mk "1" "note" (Some "constructor") "Crane" None note [] 0 []
          None]
     = Throws
  /\ getProjectHierarchy ["Travel"; "constructor"]
       [Memory.mk "1" "note" (Some "constructor") "Crane" None note [] 0 []
          None]
     = Returns [("Travel", []); ("constructor", ["Crane"])]
  /\ getProjectHierarchy ["Travel"; "__proto__"] [] = Untraced.
Proof. repeat split; vm_compute; reflexivity. Qed.

(* ===================================================================== *)
(** ** What the gateway is offered, and how its replies are read *)
(* ===================================================================== *)

Lemma enriched_get (h : Obj.t (list string)) ks : forall acc c,
  Obj.get c
    (fold_left
       (fun enriched cat =>
          Obj.set cat (enrich (default [] (Obj.get cat h))) enriched) ks acc)
  = if JS.includes c ks then Some (enrich (default [] (Obj.get c h)))
    else Obj.get c acc.
Proof.
  induction ks as [|k ks IH]; intros acc c; simpl; [reflexivity|].
  rewrite IH. destruct (JS.includes c ks) eqn:I.
  - now rewrite orb_true_r.
  - rewrite orb_false_r. destruct (String.eqb_spec c k) as [->|Hne].
    + apply get_set_same.
    + now apply get_set_other.
Qed.

Lemma In_enrich projects p :
  In p (enrich projects) <-> p = General \/ In p projects.
Proof.
  unfold enrich. destruct (JS.includes General projects) eqn:I.
  - apply JSFacts.includes_In in I. split; [now right|].
    intros [->|Hp]; assumption.
  - rewrite in_app_iff. simpl. intuition.
Qed.

Lemma enriched_value (h : Obj.t (list string)) c :
  In c (Obj.keys h) ->
  Obj.get c (enrichedHierarchy h)
  = Some (enrich (default [] (Obj.get c h))).
Proof.
  intros Hin. unfold enrichedHierarchy. rewrite enriched_get.
  apply JSFacts.includes_In in Hin. now rewrite Hin.
Qed.

(** X2.  In the hierarchy sent with a classification request every
    category keeps its projects and has "General" beside them; the two
    lists the response schema is built from are never empty, every
    category of the hierarchy is an allowed category, and "General" is
    always an allowed project. *)
Theorem general_always_offered :
  forall (h : Obj.t (list string)),
    (forall c, In c (Obj.keys h) ->
       exists projs,
         Obj.get c (enrichedHierarchy h) = Some projs
         /\ (forall p, In p projs <->
                       p = General \/ In p (default [] (Obj.get c h)))
         /\ In c (safeCategories h)
         /\ (forall p, In p projs -> In p (safeProjects h)))
    /\ safeCategories h <> []
    /\ In General (safeProjects h).
Proof.
  intros h.
  assert (Hv : forall c projs,
             Obj.get c (enrichedHierarchy h) = Some projs ->
             In c (Obj.keys (enrichedHierarchy h))
             /\ forall p, In p projs ->
                  In p (distinct (List.concat
                                    (Obj.values (enrichedHierarchy h))))).
  { intros c projs G. apply get_In in G. apply In_entries in G. split.
    - unfold Obj.keys. apply in_map_iff. now exists (c, projs).
    - intros p Hp. apply In_distinct. apply in_concat. exists projs.
      split; [|exact Hp]. unfold Obj.values. apply in_map_iff.
      now exists (c, projs). }
  assert (Hne : forall {A} (l : list A) x, In x l -> (0 <? length l)%nat = true).
  { intros A [|y l] x; [intros []|reflexivity]. }
  split; [|split].
  - intros c Hc. pose proof (enriched_value h c Hc) as G.
    destruct (Hv _ _ G) as [Hk Hp].
    eexists. split; [exact G|]. split; [apply In_enrich|]. split.
    + unfold safeCategories. simpl. now rewrite (Hne _ _ _ Hk).
    + intros p Hin. unfold safeProjects. simpl.
      now rewrite (Hne _ _ _ (Hp p Hin)); apply Hp.
  - unfold safeCategories. simpl.
    destruct (Obj.keys (enrichedHierarchy h)); simpl; discriminate.
  - unfold safeProjects. simpl.
    destruct (distinct (List.concat (Obj.values (enrichedHierarchy h))))
      as [|x l] eqn:E; simpl; [now left|].
    destruct (Obj.keys h) as [|c ks] eqn:K.
    + unfold enrichedHierarchy in E. rewrite K in E. discriminate.
    + assert (Hc : In c (Obj.keys h)) by (rewrite K; now left).
      pose proof (enriched_value h c Hc) as G.
      destruct (Hv _ _ G) as [_ Hp].
      specialize (Hp General (proj2 (In_enrich _ _) (or_introl eq_refl))).
      exact Hp.
Qed.

Lemma general_always_offered_witness :
  let h : Obj.t (list string) := [("Travel", []); ("Life", [])] in
  exists projs,
    Obj.get "Life" (enrichedHierarchy h) = Some projs
    /\ (forall p, In p projs <->
                  p = General \/ In p (default [] (Obj.get "Life" h)))
    /\ In "Life" (safeCategories h)
    /\ (forall p, In p projs -> In p (safeProjects h)).
Proof.
  apply (proj1 (general_always_offered [("Travel", []); ("Life", [])])).
  vm_compute. right. now left.
Defined.

Lemma skip_white_blank w l :
  forallb JS.is_white w = true -> JS.skip_white (w ++ l) = JS.skip_white l.
Proof.
  induction w as [|c w IH]; simpl; [reflexivity|].
  intros Hw. apply andb_prop in Hw as [Hc Hw]. rewrite Hc. now apply IH.
Qed.

Lemma forallb_rev {A} (f : A -> bool) l :
  forallb f l = true -> forallb f (rev l) = true.
Proof.
  rewrite !forallb_forall. intros Hl x Hx. apply Hl. now apply in_rev.
Qed.

Lemma trimmed_clean s :
  JS.trim s = s ->
  JS.clean_head (JS.chars s) /\ JS.clean_head (rev (JS.chars s)).
Proof.
  intros Ht. apply (f_equal JS.chars) in Ht. unfold JS.trim in Ht.
  rewrite JSFacts.chars_str in Ht. split.
  - rewrite <- Ht. apply JSFacts.trim_end_clean, JSFacts.skip_white_clean.
  - rewrite <- Ht. rewrite rev_involutive. apply JSFacts.skip_white_clean.
Qed.

(** A run that is clean at both ends is what trimming leaves of it
    wrapped in white space. *)
Lemma trim_wrapped w1 w2 x :
  forallb JS.is_white w1 = true -> forallb JS.is_white w2 = true ->
  JS.clean_head x -> JS.clean_head (rev x) -> x <> [] ->
  rev (JS.skip_white (rev (JS.skip_white (w1 ++ x ++ w2)))) = x.
Proof.
  intros H1 H2 Hx Hr Hne. rewrite skip_white_blank by exact H1.
  rewrite (JSFacts.skip_white_fixed (x ++ w2)).
  2:{ destruct x; [contradiction | exact Hx]. }
  rewrite rev_app_distr, skip_white_blank by now apply forallb_rev.
  rewrite (JSFacts.skip_white_fixed (rev x)) by exact Hr.
  apply rev_involutive.
Qed.

Lemma strip_fence_closed l w :
  forallb JS.is_white w = true -> JS.clean_head (rev l) ->
  strip_fence_end (l ++ w ++ JS.chars "```") = l.
Proof.
  intros Hw Hl. unfold strip_fence_end.
  replace (rev (l ++ w ++ JS.chars "```"))
    with ("`"%char :: "`"%char :: "`"%char :: (rev w ++ rev l))
    by (rewrite !rev_app_distr; reflexivity).
  rewrite skip_white_blank by now apply forallb_rev.
  rewrite JSFacts.skip_white_fixed by exact Hl. apply rev_involutive.
Qed.

Lemma cleanJson_json_fence ws1 ws2 ws3 ws4 body :
  blank ws1 = true -> blank ws2 = true -> blank ws3 = true ->
  blank ws4 = true -> JS.trim body = body ->
  cleanJson (ws1 +:+ "```json" +:+ ws2 +:+ body +:+ ws3 +:+ "```" +:+ ws4)
  = body.
Proof.
  unfold blank. intros H1 H2 H3 H4 Hb.
  destruct (trimmed_clean body Hb) as [Hh Ht].
  set (x := JS.chars "```json" ++ JS.chars ws2 ++ JS.chars body
            ++ JS.chars ws3 ++ JS.chars "```").
  assert (Ex : JS.chars (ws1 +:+ "```json" +:+ ws2 +:+ body +:+ ws3
                         +:+ "```" +:+ ws4)
               = JS.chars ws1 ++ x ++ JS.chars ws4).
  { subst x. rewrite !JSFacts.chars_app, <- !app_assoc. reflexivity. }
  unfold cleanJson.
  assert (T : JS.truthy (ws1 +:+ "```json" +:+ ws2 +:+ body +:+ ws3
                         +:+ "```" +:+ ws4) = true).
  { apply JSFacts.truthy_nonempty. intros E.
    apply (f_equal JS.chars) in E. rewrite Ex in E.
    destruct (JS.chars ws1); discriminate. }
  rewrite T. simpl negb. cbv iota.
  assert (Etrim : JS.trim (ws1 +:+ "```json" +:+ ws2 +:+ body +:+ ws3
                           +:+ "```" +:+ ws4) = JS.str x).
  { unfold JS.trim. rewrite Ex. f_equal.
    apply trim_wrapped;
      [exact H1 | exact H4 | reflexivity
      | subst x; rewrite !rev_app_distr; reflexivity
      | subst x; simpl; discriminate]. }
  rewrite Etrim. unfold JS.startsWith. rewrite JSFacts.chars_str.
  assert (P : JS.is_prefix (JS.chars "```json") x = true).
  { apply JSFacts.is_prefix_spec. eexists. reflexivity. }
  rewrite P.
  assert (S : skipn 7 x = JS.chars ws2 ++ JS.chars body
                          ++ JS.chars ws3 ++ JS.chars "```")
    by reflexivity.
  rewrite S, skip_white_blank by exact H2.
  rewrite <- (JSFacts.str_chars body) at 2. f_equal.
  destruct (JS.chars body) as [|b bs] eqn:Eb.
  - rewrite app_nil_l, skip_white_blank by exact H3. reflexivity.
  - rewrite JSFacts.skip_white_fixed by exact Hh.
    now apply strip_fence_closed.
Qed.

Lemma cleanJson_bare body :
  JS.trim body = body -> JS.truthy body = true ->
  JS.startsWith body "```" = false -> cleanJson body = body.
Proof.
  intros Hb T Hs. unfold cleanJson. rewrite T, Hb, Hs. simpl.
  destruct (JS.startsWith body "```json") eqn:Hj; [|reflexivity].
  unfold JS.startsWith in Hj, Hs.
  apply JSFacts.is_prefix_spec in Hj as [r Hr].
  assert (JS.is_prefix (JS.chars "```") (JS.chars body) = true); [|congruence].
  apply JSFacts.is_prefix_spec. rewrite Hr. eexists. reflexivity.
Qed.

(** X3.  A reply whose payload is wrapped in a [```json] code fence, with
    any white space around the fence and around the payload, is read as
    the payload alone: [cleanJson] returns the payload, and both
    [processInput] and [generatePlan] settle as they do on the bare
    payload. *)
Theorem fenced_reply_read_as_bare :
  forall (H : Host) (ws1 ws2 ws3 ws4 body : string),
    blank ws1 = true -> blank ws2 = true -> blank ws3 = true ->
    blank ws4 = true ->
    JS.trim body = body -> JS.truthy body = true ->
    JS.startsWith body "```" = false ->
    let fenced :=
      ws1 +:+ "```json" +:+ ws2 +:+ body +:+ ws3 +:+ "```" +:+ ws4 in
    cleanJson fenced = body
    /\ processInput (Resolved (Some fenced))
       = processInput (Resolved (Some body))
    /\ generatePlan (Resolved (Some fenced))
       = generatePlan (Resolved (Some body)).
Proof.
  intros H ws1 ws2 ws3 ws4 body H1 H2 H3 H4 Hb T Hs fenced.
  pose proof (cleanJson_json_fence ws1 ws2 ws3 ws4 body H1 H2 H3 H4 Hb) as E.
  pose proof (cleanJson_bare body Hb T Hs) as E'.
  fold fenced in E.
  assert (Tf : JS.truthy fenced = true).
  { apply JSFacts.truthy_nonempty. intros Ef.
    apply (f_equal JS.chars) in Ef. subst fenced.
    rewrite !JSFacts.chars_app in Ef.
    destruct (JS.chars ws1); discriminate. }
  split; [exact E|]. unfold processInput, generatePlan.
  now rewrite Tf, T, E, E'.
Qed.

Lemma fenced_reply_read_as_bare_witness :
  let body := "{}" in
  let nl := String "010" EmptyString in
  let fenced := EmptyString +:+ "```json" +:+ nl +:+ body +:+ nl
                +:+ "```" +:+ " " in
  cleanJson fenced = body
  /\ @processInput utc_host (Resolved (Some fenced))
     = @processInput utc_host (Resolved (Some body))
  /\ @generatePlan utc_host (Resolved (Some fenced))
     = @generatePlan utc_host (Resolved (Some body)).
Proof.
  apply (fenced_reply_read_as_bare utc_host EmptyString
           (String "010" EmptyString) (String "010" EmptyString) " " "{}");
    reflexivity.
Defined.

(* ===================================================================== *)
(** ** The category list under the controls of the component *)
(* ===================================================================== *)



Lemma map_keeps_ids (f : Memory -> Memory) ms :
  (forall m, Memory.id (f m) = Memory.id m) ->
  List.map Memory.id (List.map f ms) = List.map Memory.id ms.
Proof.
  intros Hf. induction ms as [|m ms IH]; simpl; [reflexivity|].
  now rewrite Hf, IH.
Qed.

Lemma truthy_trim s : JS.truthy (JS.trim s) = true -> JS.truthy s = true.
Proof. destruct s; [discriminate | reflexivity]. Qed.

(** X5.  A category rename that takes effect (the new name is not blank
    and differs from the old) leaves no trace of the old name: no Memory
    and no entry of the category list carries it, it is no key of a
    hierarchy derived afterwards, every project the old name owned is
    owned by the new one, and the other categories keep theirs.  The
    Memories are the same ones, in the same order: a Memory of another
    category is as it was, and a Memory of the old name differs in its
    root category alone.  The category list keeps its length and its
    other names, and the Tasks are as they were. *)
Theorem category_rename_cascades :
  forall (oldName newName : string) (r : Repo),
    JS.truthy (JS.trim newName) = true -> newName <> oldName ->
    let r' := handleUpdateCategoryName oldName newName r in
    (forall m, In m (memories r') -> Memory.rootCategory m <> Some oldName)
    /\ ~ In oldName (availableCategories r')
    /\ (In oldName (availableCategories r) ->
        In newName (availableCategories r'))
    /\ (forall c, c <> oldName -> In c (availableCategories r) ->
                  In c (availableCategories r'))
    /\ length (availableCategories r') = length (availableCategories r)
    /\ (forall p, owns (memories r) oldName p -> owns (memories r') newName p)
    /\ (forall c p, c <> oldName ->
          owns (memories r) c p -> owns (memories r') c p)
    /\ (forall h,
          getProjectHierarchy (availableCategories r') (memories r')
          = Returns h ->
          Obj.get oldName h = None)
    /\ Forall2
         (fun m m' =>
            (Memory.rootCategory m <> Some oldName /\ m' = m)
            \/ (Memory.rootCategory m = Some oldName
                /\ m' = Memory.with_rootCategory newName m))
         (memories r) (memories r')
    /\ tasks r' = tasks r.
Proof.
  intros old new r T Hne r'.
  assert (E : r' = {| memories :=
                        List.map (fun m =>
                                    match Memory.rootCategory m with
                                    | Plain (Some c) =>
                                        if String.eqb c old
                                        then Memory.with_rootCategory new m
                                        else m
                                    | _ => m
                                    end) (memories r);
                      tasks := tasks r;
                      availableCategories :=
                        List.map (fun c => if String.eqb c old then new else c)
                                 (availableCategories r) |}).
  { subst r'. unfold handleUpdateCategoryName. rewrite T. simpl.
    destruct (String.eqb_spec new old); [contradiction | reflexivity]. }
  assert (Hm : forall m, In m (memories r') ->
                         Memory.rootCategory m <> Some old).
  { rewrite E. cbn [memories]. intros m Hin.
    apply in_map_iff in Hin as (m0 & <- & _).
    destruct (Memory.rootCategory m0) as [[c|]|n] eqn:C; try congruence.
    destruct (String.eqb_spec c old) as [->|Hc].
    - destruct m0; simpl. congruence.
    - congruence. }
  assert (Hc : ~ In old (availableCategories r')).
  { rewrite E. cbn [availableCategories]. intros Hin.
    apply in_map_iff in Hin as (c & Hc & _).
    destruct (String.eqb_spec c old); congruence. }
  split; [exact Hm|]. split; [exact Hc|].
  split; [|split; [|split; [|split; [|split; [|split; [|split]]]]]].
  - intros Hin. rewrite E. cbn [availableCategories].
    apply in_map_iff. exists old. now rewrite String.eqb_refl.
  - intros c Hco Hin. rewrite E. cbn [availableCategories].
    apply in_map_iff. exists c. split; [|exact Hin].
    now destruct (String.eqb_spec c old).
  - rewrite E. cbn [availableCategories]. apply length_map.
  - intros p (m & Hin & Hr & Hp & _ & Tp & Hg).
    exists (Memory.with_rootCategory new m). rewrite E. cbn [memories].
    split; [|destruct m; simpl in *; repeat split; auto using truthy_trim].
    apply in_map_iff. exists m. split; [|exact Hin].
    now rewrite Hr, String.eqb_refl.
  - intros c p Hco (m & Hin & Hr & Hp & Tc & Tp & Hg).
    exists m. rewrite E. cbn [memories].
    split; [|repeat split; auto].
    apply in_map_iff. exists m. split; [|exact Hin]. rewrite Hr.
    destruct (String.eqb_spec c old); [contradiction | reflexivity].
  - intros h Hh. destruct (Obj.get old h) as [projs|] eqn:G; [|reflexivity].
    destruct (hierarchy_facts _ _ h Hh old) as (K & _).
    destruct K as [K|(p & m & Hin & Hr & _)]; [now rewrite G | contradiction|].
    now destruct (Hm m Hin).
  - rewrite E. cbn [memories]. clear E Hm Hc.
    induction (memories r) as [|m ms IH]; simpl; constructor; [|exact IH].
    destruct (Memory.rootCategory m) as [[c|]|n] eqn:C;
      try (left; split; [congruence | reflexivity]).
    destruct (String.eqb_spec c old) as [->|Hco].
    + right. split; reflexivity.
    + left. split; [congruence | reflexivity].
  - now rewrite E.
Qed.

Lemma category_rename_cascades_witness :
  let r := initialRepoB 0 0 in
  let r' := handleUpdateCategoryName "Travel" "Trips" r in
  (forall m, In m (memories r') -> Memory.rootCategory m <> Some "Travel")
  /\ ~ In "Travel" (availableCategories r')
  /\ (In "Travel" (availableCategories r) -> In "Trips" (availableCategories r'))
  /\ (forall c, c <> "Travel" -> In c (availableCategories r) ->
                In c (availableCategories r'))
  /\ length (availableCategories r') = length (availableCategories r)
  /\ (forall p, owns (memories r) "Travel" p -> owns (memories r') "Trips" p)
  /\ (forall c p, c <> "Travel" ->
        owns (memories r) c p -> owns (memories r') c p)
  /\ (forall h,
        getProjectHierarchy (availableCategories r') (memories r')
        = Returns h ->
        Obj.get "Travel" h = None)
  /\ Forall2
       (fun m m' =>
          (Memory.rootCategory m <> Some "Travel" /\ m' = m)
          \/ (Memory.rootCategory m = Some "Travel"
              /\ m' = Memory.with_rootCategory "Trips" m))
       (memories r) (memories r')
  /\ tasks r' = tasks r.
Proof.
  apply (category_rename_cascades "Travel" "Trips" (initialRepoB 0 0));
    [reflexivity | discriminate].
Defined.

(* ===================================================================== *)
(** ** Projects made and unmade by hand *)
(* ===================================================================== *)

Lemma delete_project_frees ms p :
  p <> General ->
  isProjectNameGloballyUnique (handleDeleteProject p ms) p = true.
Proof.
  intros Hg. unfold isProjectNameGloballyUnique.
  destruct (String.eqb_spec p General); [contradiction|].
  apply negb_true_iff, JSFacts.includes_false. intros Hin.
  apply in_map_iff in Hin as (m & Hp & Hm).
  apply filter_In in Hm as [_ Hm]. rewrite Hp, String.eqb_refl in Hm.
  discriminate.
Qed.

Lemma add_project_accepted `{Host} rev cat name newName newCat clock r :
  JS.truthy cat = true -> JS.truthy (JS.trim name) = true ->
  isProjectNameGloballyUnique (memories r) (JS.trim name) = true ->
  exists m,
    handleAddProject rev (Some cat) name newName newCat clock r
    = (with_memories (m :: memories r) r, [])
    /\ Memory.id m = JS.of_int (clock 0%nat)
    /\ Memory.originalText m = ManualProjectCreation
    /\ Memory.rootCategory m = Some cat
    /\ Memory.project m = JS.trim name
    /\ length (Memory.structuredContent m) = 1%nat.
Proof.
  intros Tc Tn U. unfold handleAddProject.
  cbn [JS.truthy_opt JS.or_else]. rewrite Tc, Tn, U. cbn [negb].
  eexists. split; [reflexivity|]. repeat split.
Qed.

(** X6.  Deleting a project removes every Memory of that name and no
    other; the name is then free, so creating it again from the structure
    manager, under any category, is accepted, and that category is then
    the only owner of the name. *)
Theorem deleted_project_can_be_recreated :
  forall (H : Host) (rev : Revision) (p cat name newName newCat : string)
         (clock : nat -> Z) (r : Repo),
    JS.trim name = p -> JS.truthy p = true -> p <> General ->
    JS.truthy cat = true ->
    let r1 := with_memories (handleDeleteProject p (memories r)) r in
    (forall m, In m (memories r1) <->
               In m (memories r) /\ Memory.project m <> p)
    /\ exists m,
         handleAddProject rev (Some cat) name newName newCat clock r1
         = (with_memories (m :: memories r1) r1, [])
         /\ Memory.project m = p /\ Memory.rootCategory m = Some cat
         /\ (forall c, owns (m :: memories r1) c p <-> c = cat).
Proof.
  intros H rev p cat name newName newCat clock r Hn Tp Hg Tc r1.
  assert (Hf : forall m, In m (memories r1) <->
                         In m (memories r) /\ Memory.project m <> p).
  { intros m. subst r1. cbn [with_memories memories].
    unfold handleDeleteProject. rewrite filter_In.
    destruct (String.eqb_spec (Memory.project m) p); simpl;
      intuition (discriminate || congruence). }
  split; [exact Hf|].
  destruct (add_project_accepted rev cat name newName newCat clock r1)
    as (m & E & _ & _ & Hc & Hp & _); auto.
  { now rewrite Hn. }
  { rewrite Hn. subst r1. cbn [with_memories memories].
    now apply delete_project_frees. }
  exists m. split; [exact E|]. rewrite Hn in Hp.
  split; [exact Hp|]. split; [exact Hc|].
  intros c. split.
  - intros (m' & [<-|Hin] & Hr & Hp' & _); [congruence|].
    apply Hf in Hin as [_ Hin]. contradiction.
  - intros ->. exists m. repeat split; auto. now left.
Qed.

Lemma deleted_project_can_be_recreated_witness :
  let r1 := with_memories
              (handleDeleteProject "Korea Trip" (memories (initialRepoB 0 0)))
              (initialRepoB 0 0) in
  (forall m, In m (memories r1) <->
             In m (memories (initialRepoB 0 0))
             /\ Memory.project m <> "Korea Trip")
  /\ exists m,
       @handleAddProject utc_host RevB (Some "Life") " Korea Trip "
         EmptyString "Travel" (fun _ => 7) r1
       = (with_memories (m :: memories r1) r1, [])
       /\ Memory.project m = "Korea Trip" /\ Memory.rootCategory m = Some "Life"
       /\ (forall c, owns (m :: memories r1) c "Korea Trip" <-> c = "Life").
Proof.
  apply (deleted_project_can_be_recreated utc_host RevB "Korea Trip" "Life"
           " Korea Trip " EmptyString "Travel" (fun _ => 7)
           (initialRepoB 0 0));
    [reflexivity | reflexivity | discriminate | reflexivity].
Defined.

Lemma owns_listed r c p :
  derivable (availableCategories r) (memories r) = true ->
  owns (memories r) c p -> listed r p = true.
Proof.
  intros D Ho. apply hierarchy_returns in D as [h Hh].
  apply (hierarchy_complete _ _ h c p Hh) in Ho.
  destruct Ho as (projs & G & Hp). unfold listed. rewrite Hh.
  apply existsb_exists.
  exists (c, projs). split; [now apply get_In|].
  now apply JSFacts.includes_In.
Qed.

Lemma delete_in_memory_files_well cats memoryId k m :
  files_well cats (delete_in_memory memoryId k m) = files_well cats m.
Proof.
  unfold delete_in_memory.
  destruct (String.eqb (Memory.id m) memoryId); [|reflexivity].
  now destruct m.
Qed.

(** Deleting an item takes no state out of the reach of the deriver. *)
Lemma delete_item_derivable cats memoryId k ms :
  derivable cats ms = true ->
  derivable cats (handleDeleteMemoryItem memoryId k ms) = true.
Proof.
  unfold derivable. intros D. apply andb_prop in D as [D1 D2].
  rewrite D1. cbn [negb andb]. unfold handleDeleteMemoryItem.
  rewrite forallb_forall in D2. apply forallb_forall. intros m Hm.
  apply filter_In in Hm as [Hm _].
  apply in_map_iff in Hm as (m0 & <- & Hm0).
  rewrite delete_in_memory_files_well. now apply D2.
Qed.

(** X7.  A project made by hand outlives its items: once
    [handleAddProject] has accepted a name, deleting any item of the
    placeholder Memory (the initial one included) leaves the project
    owned by its category and its name taken; after the initial item is
    deleted the placeholder is there with no items.  The structure
    manager lists the project as long as it lists anything: when the
    hierarchy could be derived before, and the category the project was
    made under is in the category list or is not the name of a member of
    [Object.prototype], the hierarchy is derived afterwards and lists the
    project. *)
Theorem manual_project_outlives_its_item :
  forall (H : Host) (rev : Revision) (cat name newName newCat : string)
         (clock : nat -> Z) (k : Z) (r : Repo),
    JS.truthy cat = true -> JS.truthy (JS.trim name) = true ->
    JS.trim name <> General ->
    isProjectNameGloballyUnique (memories r) (JS.trim name) = true ->
    let r1 := fst (handleAddProject rev (Some cat) name newName newCat clock r) in
    let ms2 := handleDeleteMemoryItem (JS.of_int (clock 0%nat)) k (memories r1) in
    owns (memories r1) cat (JS.trim name)
    /\ owns ms2 cat (JS.trim name)
    /\ (derivable (availableCategories r) (memories r) = true ->
        In cat (availableCategories r) \/ Obj.on_prototype cat = false ->
        (exists h,
           getProjectHierarchy (availableCategories r1) ms2 = Returns h
           /\ lists h cat (JS.trim name))
        /\ listed (with_memories ms2 r1) (JS.trim name) = true)
    /\ isProjectNameGloballyUnique ms2 (JS.trim name) = false
    /\ (k = 0 -> exists m,
          In m ms2 /\ Memory.project m = JS.trim name
          /\ Memory.structuredContent m = []).
Proof.
  intros H rev cat name newName newCat clock k r Tc Tn Hg U r1 ms2.
  destruct (add_project_accepted rev cat name newName newCat clock r Tc Tn U)
    as (m & E & Hid & Ho & Hc & Hp & Hl).
  assert (E1 : memories r1 = m :: memories r) by (subst r1; now rewrite E).
  assert (E2 : availableCategories r1 = availableCategories r)
    by (subst r1; now rewrite E).
  set (m' := delete_in_memory (JS.of_int (clock 0%nat)) k m).
  assert (Hm' : m' = Memory.with_structuredContent
                       (filter_index k 0 (Memory.structuredContent m)) m).
  { subst m'. unfold delete_in_memory. now rewrite Hid, String.eqb_refl. }
  assert (Hin : In m' ms2).
  { subst ms2. unfold handleDeleteMemoryItem. rewrite E1. cbn [List.map].
    apply filter_In. split; [now left|].
    rewrite Hm'. unfold keeps. destruct m; simpl in *.
    rewrite Ho, String.eqb_refl. apply orb_true_r. }
  assert (O1 : owns (memories r1) cat (JS.trim name)).
  { exists m. rewrite E1. repeat split; auto. now left. }
  assert (O2 : owns ms2 cat (JS.trim name)).
  { exists m'. split; [exact Hin|]. rewrite Hm'.
    destruct m; simpl in *. repeat split; auto. }
  split; [exact O1|]. split; [exact O2|]. split; [|split].
  - intros D Hcat.
    assert (D2 : derivable (availableCategories r1) ms2 = true).
    { subst ms2. apply delete_item_derivable. rewrite E1, E2.
      unfold derivable in *. apply andb_prop in D as [D1 D2].
      rewrite D1. cbn [negb andb forallb]. rewrite D2, andb_true_r.
      unfold files_well. rewrite Hc.
      destruct Hcat as [Hcat|Hcat].
      - apply JSFacts.includes_In in Hcat. rewrite Hcat. apply orb_true_r.
      - rewrite Hcat, andb_false_r. reflexivity. }
    split.
    + pose proof D2 as D3. apply hierarchy_returns in D3 as [h Hh].
      exists h. split; [exact Hh|].
      now apply (hierarchy_complete _ _ h cat _ Hh).
    + now apply (owns_listed (with_memories ms2 r1) cat).
  - apply used_name_not_unique; [|exact Hg].
    apply in_map_iff. exists m'. split; [|exact Hin].
    rewrite Hm'. now destruct m.
  - intros ->. exists m'. split; [exact Hin|]. rewrite Hm'.
    destruct m as [? ? ? ? ? ? sc ? ? ?]; simpl in *.
    split; [exact Hp|]. destruct sc as [|x [|y sc]]; try discriminate.
    reflexivity.
Qed.

Lemma manual_project_outlives_its_item_witness :
  let r1 := fst (@handleAddProject utc_host RevA (Some "Work") "Thesis"
                   EmptyString "Travel" (fun _ => 5) initialRepoA) in
  let ms2 := handleDeleteMemoryItem (JS.of_int 5) 0 (memories r1) in
  owns (memories r1) "Work" (JS.trim "Thesis")
  /\ owns ms2 "Work" (JS.trim "Thesis")
  /\ (derivable (availableCategories initialRepoA) (memories initialRepoA)
      = true ->
      In "Work" (availableCategories initialRepoA)
      \/ Obj.on_prototype "Work" = false ->
      (exists h,
         getProjectHierarchy (availableCategories r1) ms2 = Returns h
         /\ lists h "Work" (JS.trim "Thesis"))
      /\ listed (with_memories ms2 r1) (JS.trim "Thesis") = true)
  /\ isProjectNameGloballyUnique ms2 (JS.trim "Thesis") = false
  /\ (0 = 0 -> exists m,
        In m ms2 /\ Memory.project m = JS.trim "Thesis"
        /\ Memory.structuredContent m = []).
Proof.
  apply (manual_project_outlives_its_item utc_host RevA "Work" "Thesis"
           EmptyString "Travel" (fun _ => 5) 0 initialRepoA);
    [reflexivity | reflexivity | discriminate | reflexivity].
Defined.

(* ===================================================================== *)
(** ** Plans and items on the agenda *)
(* ===================================================================== *)

Lemma planDayNumber_window `{Host} now selectedDate d :
  (d - 1) * MS_PER_DAY < selectedDate - setHours0 now <= d * MS_PER_DAY ->
  planDayNumber now selectedDate = d + 1.
Proof.
  intros Hw. unfold planDayNumber, ceil_div.
  assert (E : - (selectedDate - setHours0 now) / MS_PER_DAY = - d).
  { symmetry.
    apply (Z.div_unique_pos _ MS_PER_DAY (- d)
             (d * MS_PER_DAY - (selectedDate - setHours0 now)));
      unfold MS_PER_DAY in *; lia. }
  rewrite E. lia.
Qed.

Lemma plan_tasks_lookup clock p i day title :
  PlanningResult.tasks p !! i = Some (day, title) ->
  plan_tasks clock p !! i
  = Some (Task.mk (JS.of_int (clock i) +:+ JS.of_int (Z.of_nat i))
                  ("Day " +:+ JS.of_int day +:+ ": " +:+ title)
                  day pending None).
Proof.
  intros Hl. unfold plan_tasks. rewrite list_lookup_imap, Hl. reflexivity.
Qed.

(** X8.  A plan the gateway returns, in a state from which the
    hierarchy can be derived, is stored as one pending Task per entry,
    the Memories untouched, and the Task of day [d] is on the agenda of
    every selected instant that is later than today's midnight by more
    than [d - 2] times 86400000 ms and by at most [d - 1] times
    86400000 ms.  On the agenda of any instant, the Tasks shown are those
    of the plan day computed for it. *)
Theorem planned_task_on_its_day :
  forall (H : Host) (rev : Revision) (inputText : string)
         (selectedImage : option string) (isCompressingImage : bool)
         (clock : nat -> Z) (processing : Outcome ProcessingResult)
         (p : PlanningResult) (captured prev : Repo)
         (now selectedDate : Z) (i : nat) (day : Z) (title : string),
    ignores rev inputText selectedImage isCompressingImage = false ->
    goes_to_planner inputText selectedImage = true ->
    derivable (availableCategories captured) (memories captured) = true ->
    PlanningResult.tasks p !! i = Some (day, title) ->
    (day - 2) * MS_PER_DAY < selectedDate - setHours0 now
      <= (day - 1) * MS_PER_DAY ->
    exists r',
      handleProcessInput rev inputText selectedImage isCompressingImage
        clock (Resolved p) processing captured prev = Returns (r', [])
      /\ memories r' = memories prev
      /\ tasks r' = tasks prev ++ plan_tasks clock p
      /\ In {| agenda_id := JS.of_int (clock i) +:+ JS.of_int (Z.of_nat i);
               agenda_title := "Day " +:+ JS.of_int day +:+ ": " +:+ title;
               agenda_status := pending;
               isMemory := false;
               tag := Some "Coach Plan";
               agenda_day := Some day;
               agenda_feedback := None |}
            (allItems now selectedDate r')
      /\ (forall anyDate e,
            In e (allItems now anyDate r') -> isMemory e = false ->
            agenda_day e = Some (planDayNumber now anyDate)).
Proof.
  intros H rev inputText selectedImage isCompressingImage clock processing p
         captured prev now selectedDate i day title Hi Hg D Hl Hw.
  apply hierarchy_returns in D as [h Hh].
  set (r' := {| memories := memories prev;
                tasks := tasks prev ++ plan_tasks clock p;
                availableCategories := availableCategories prev |}).
  assert (E : r' = {| memories := memories prev;
                      tasks := tasks prev ++ plan_tasks clock p;
                      availableCategories := availableCategories prev |})
    by reflexivity.
  exists r'. split.
  { unfold handleProcessInput, settled. now rewrite Hi, Hh, Hg. }
  assert (Hd : planDayNumber now selectedDate = day).
  { rewrite (planDayNumber_window now selectedDate (day - 1)); lia. }
  split; [now rewrite E|]. split; [now rewrite E|]. split.
  - unfold allItems. apply in_or_app. left.
    apply in_map_iff.
    exists (Task.mk (JS.of_int (clock i) +:+ JS.of_int (Z.of_nat i))
                    ("Day " +:+ JS.of_int day +:+ ": " +:+ title)
                    day pending None).
    split; [reflexivity|]. unfold standardTasks. apply filter_In. split.
    + rewrite E. cbn [tasks]. apply in_or_app. right.
      apply list_elem_of_In. eapply list_elem_of_lookup_2.
      now apply plan_tasks_lookup.
    + cbn [Task.day]. rewrite Hd. apply Z.eqb_refl.
  - intros anyDate e Hin Hm. unfold allItems in Hin.
    apply in_app_or in Hin as [Hin|Hin].
    + apply in_map_iff in Hin as (t & <- & Ht).
      unfold standardTasks in Ht. apply filter_In in Ht as [_ Ht].
      apply Z.eqb_eq in Ht. cbn [of_task agenda_day]. now rewrite Ht.
    + unfold memoryTasks in Hin. apply in_concat in Hin as (l & Hl' & Hin).
      apply in_map_iff in Hl' as (mem & <- & _).
      unfold memoryTasks_of in Hin. apply list_elem_of_In in Hin.
      apply list_elem_of_omap in Hin as (x & Hx & Hsome).
      apply list_elem_of_lookup in Hx as (j & Hj).
      rewrite list_lookup_imap in Hj.
      destruct (Memory.structuredContent mem !! j) as [item|];
        [|discriminate Hj].
      injection Hj as <-. destruct (targets _ item); [|discriminate Hsome].
      injection Hsome as <-. discriminate Hm.
Qed.

Lemma planned_task_on_its_day_witness :
  let p := PlanningResult.mk "Run" [(1, "Shoes"); (2, "Jog")] in
  exists r',
    @handleProcessInput RevB "I want to run" None false (fun _ => 7)
      (Resolved p) (Rejected "unused") initialRepoA initialRepoA
    = Returns (r', [])
    /\ memories r' = memories initialRepoA
    /\ tasks r' = tasks initialRepoA ++ plan_tasks (fun _ => 7) p
    /\ In {| agenda_id := JS.of_int 7 +:+ JS.of_int (Z.of_nat 1);
             agenda_title := "Day " +:+ JS.of_int 2 +:+ ": " +:+ "Jog";
             agenda_status := pending;
             isMemory := false;
             tag := Some "Coach Plan";
             agenda_day := Some 2;
             agenda_feedback := None |}
          (@allItems utc_host 0 MS_PER_DAY r')
    /\ (forall anyDate e,
          In e (@allItems utc_host 0 anyDate r') -> isMemory e = false ->
          agenda_day e = Some (@planDayNumber utc_host 0 anyDate)).
Proof.
  apply (planned_task_on_its_day utc_host RevB "I want to run" None false
           (fun _ => 7) (Rejected "unused")
           (PlanningResult.mk "Run" [(1, "Shoes"); (2, "Jog")])
           initialRepoA initialRepoA 0 MS_PER_DAY 1%nat 2 "Jog");
    [reflexivity | reflexivity | reflexivity | reflexivity
    | vm_compute; split; [reflexivity | discriminate]].
Defined.

Lemma In_memoryTasks formatted ms mem k item :
  In mem ms -> Memory.structuredContent mem !! k = Some item ->
  targets formatted item = true ->
  exists e,
    In e (memoryTasks formatted ms)
    /\ agenda_id e = Memory.id mem +:+ "_" +:+ JS.of_int (Z.of_nat k)
    /\ agenda_title e = Item.title item
    /\ agenda_status e = default pending (Item.status item)
    /\ isMemory e = true.
Proof.
  intros Hin Hk Ht. eexists. split.
  - unfold memoryTasks. apply in_concat. eexists. split.
    + apply in_map_iff. exists mem. split; [reflexivity | exact Hin].
    + unfold memoryTasks_of. apply list_elem_of_In.
      apply list_elem_of_omap. eexists. split.
      * eapply list_elem_of_lookup_2. rewrite list_lookup_imap, Hk.
        simpl. rewrite Ht. reflexivity.
      * reflexivity.
  - repeat split.
Qed.

(** X9.  The identifier the agenda gives a Memory item leads back to
    that item: for an item with a status, shown on the agenda of its
    target date, completing the entry flips the status of the item, and
    the agenda of the same date then shows the entry, under the same
    identifier and title, with the other status.  Tasks and categories
    are untouched.  (Memory ids hold no underscore: they are decimal time
    stamps, or "mock1" and "mock2".) *)
Theorem agenda_entry_toggles_its_item :
  forall (H : Host) (rev : Revision) (now selectedDate : Z) (r : Repo)
         (mem : Memory) (k : nat) (item : StructuredItem) (st : Status),
    In mem (memories r) ->
    Forall (fun c => Ascii.eqb c "_" = false) (JS.chars (Memory.id mem)) ->
    Memory.structuredContent mem !! k = Some item ->
    Item.targetDate item = Some (formatDate selectedDate) ->
    Item.status item = Some st ->
    let id := Memory.id mem +:+ "_" +:+ JS.of_int (Z.of_nat k) in
    let r' := handleTaskComplete rev id true r in
    (exists e, In e (allItems now selectedDate r)
               /\ agenda_id e = id /\ agenda_title e = Item.title item
               /\ agenda_status e = st /\ isMemory e = true)
    /\ (exists e', In e' (allItems now selectedDate r')
                   /\ agenda_id e' = id /\ agenda_title e' = Item.title item
                   /\ agenda_status e' = flip st /\ isMemory e' = true)
    /\ tasks r' = tasks r
    /\ availableCategories r' = availableCategories r.
Proof.
  intros H rev now selectedDate r mem k item st Hin Hid Hk Hd Hs id r'.
  assert (Ht : targets (formatDate selectedDate) item = true).
  { unfold targets. rewrite Hd. apply String.eqb_refl. }
  destruct (composite_key_read (Memory.id mem) k Hid) as (idxStr & Hsplit & Hp).
  assert (E : r' = {| memories :=
                        List.map (toggle_in_memory rev (Memory.id mem)
                                    (Some (Z.of_nat k))) (memories r);
                      tasks := tasks r;
                      availableCategories := availableCategories r |}).
  { subst r' id. unfold handleTaskComplete. rewrite Hsplit.
    cbn [head JS.parseInt_opt]. now rewrite Hp. }
  set (item' := Item.with_status (flip st) item).
  set (mem' := Memory.with_structuredContent
                 (<[k := item']> (Memory.structuredContent mem)) mem).
  assert (Em : toggle_in_memory rev (Memory.id mem) (Some (Z.of_nat k)) mem
               = mem').
  { unfold toggle_in_memory. rewrite String.eqb_refl. unfold at_index.
    destruct (Z.ltb_spec (Z.of_nat k) 0) as [?|_]; [lia|].
    rewrite Nat2Z.id, Hk, Hs. subst mem' item'. now destruct rev. }
  split; [|split; [|split]].
  - destruct (In_memoryTasks (formatDate selectedDate) (memories r) mem k item
                Hin Hk Ht) as (e & He & Hi & Hti & Hst & Hm).
    exists e. split; [unfold allItems; apply in_or_app; now right|].
    rewrite Hs in Hst. auto.
  - assert (Hk' : Memory.structuredContent mem' !! k = Some item').
    { subst mem'. destruct mem; simpl in *.
      apply list_lookup_insert_eq. eapply lookup_lt_Some; eauto. }
    assert (Hin' : In mem' (memories r')).
    { rewrite E. cbn [memories]. apply in_map_iff. exists mem. now split. }
    assert (Ht' : targets (formatDate selectedDate) item' = true).
    { subst item'. destruct item; simpl in *. exact Ht. }
    destruct (In_memoryTasks (formatDate selectedDate) (memories r') mem' k
                item' Hin' Hk' Ht') as (e & He & Hi & Hti & Hst & Hm).
    exists e. split; [unfold allItems; apply in_or_app; now right|].
    subst mem' item'. destruct mem, item; simpl in *. auto.
  - now rewrite E.
  - now rewrite E.
Qed.

Lemma agenda_entry_toggles_its_item_witness :
  let r := initialRepoB 0 0 in
  let sel := 1760486400000 in
  let id := "mock1" +:+ "_" +:+ JS.of_int (Z.of_nat 0) in
  let r' := handleTaskComplete RevB id true r in
  (exists e, In e (@allItems utc_host sel sel r)
             /\ agenda_id e = id /\ agenda_title e = "Gyeongbokgung Palace"
             /\ agenda_status e = pending /\ isMemory e = true)
  /\ (exists e', In e' (@allItems utc_host sel sel r')
                 /\ agenda_id e' = id
                 /\ agenda_title e' = "Gyeongbokgung Palace"
                 /\ agenda_status e' = flip pending /\ isMemory e' = true)
  /\ tasks r' = tasks r
  /\ availableCategories r' = availableCategories r.
Proof.
  apply (agenda_entry_toggles_its_item utc_host RevB 1760486400000
           1760486400000 (initialRepoB 0 0)
           (Memory.mk "mock1" "Mock" (Some "Travel") "Korea Trip"
              (Some "Seoul") note
              [ Item.mk "Gyeongbokgung Palace" "Sightseeing"
                  "Wear Hanbok for free entry." (Some "Seoul") (Some 5) None
                  (Some "2025.10.15") (Some pending) ]
              0 [] None)
           0%nat
           (Item.mk "Gyeongbokgung Palace" "Sightseeing"
              "Wear Hanbok for free entry." (Some "Seoul") (Some 5) None
              (Some "2025.10.15") (Some pending))
           pending).
  - now left.
  - repeat constructor.
  - reflexivity.
  - vm_compute. reflexivity.
  - reflexivity.
Defined.

(* ===================================================================== *)
(** ** The title of a planned Task on the agenda *)
(* ===================================================================== *)

Lemma pretty_go_digits x : forall s,
  exists ds,
    JS.chars (pretty_N_go x s) = ds ++ JS.chars s
    /\ Forall (fun c => is_Some (JS.digit c)) ds
    /\ ((0 < x)%N -> ds <> []).
Proof.
  induction (N.lt_wf_0 x) as [x _ IH]. intros s.
  destruct (N.eq_dec x 0%N) as [->|Hx].
  - rewrite pretty_N_go_0. exists []. repeat split; [constructor | lia].
  - assert (Hpos : (0 < x)%N) by lia.
    rewrite pretty_N_go_step by exact Hpos.
    destruct (IH (x / 10)%N (N.div_lt x 10 Hpos eq_refl)
                 (String (pretty_N_char (x mod 10)%N) s))
      as (ds & E & Hd & _).
    exists (ds ++ [pretty_N_char (x mod 10)%N]). split; [|split].
    + rewrite E, <- app_assoc. reflexivity.
    + apply Forall_app. split; [exact Hd|]. constructor; [|constructor].
      rewrite digit_of_char by (apply N.mod_lt; lia). eauto.
    + intros _. destruct ds; discriminate.
Qed.

Lemma of_int_digits day :
  0 <= day ->
  JS.chars (JS.of_int day) <> []
  /\ Forall (fun c => is_Some (JS.digit c)) (JS.chars (JS.of_int day)).
Proof.
  intros Hd. unfold JS.of_int, pretty, pretty_Z.
  destruct day as [|p|p]; [| |lia].
  - split; [discriminate|]. repeat constructor. vm_compute. eauto.
  - unfold pretty, pretty_positive, pretty, pretty_N.
    destruct (decide (N.pos p = 0%N)) as [|_]; [discriminate|].
    destruct (pretty_go_digits (N.pos p) EmptyString) as (ds & E & Hf & Hne).
    rewrite E. simpl. rewrite app_nil_r. split; [apply Hne; lia | exact Hf].
Qed.

Lemma digit_prefix_app ds c rest :
  Forall (fun c => is_Some (JS.digit c)) ds -> JS.digit c = None ->
  digit_prefix (ds ++ c :: rest) = ds.
Proof.
  intros Hf Hc. induction Hf as [|d ds [v Hv] _ IH]; simpl.
  - now rewrite Hc.
  - now rewrite Hv, IH.
Qed.

(** X10.  The agenda shows the title of a planned Task without the
    day prefix that [handleProcessInput] put before it: for a day number
    that is not negative, the title "Day d: t" of the stored Task is shown
    as [t], its leading white space dropped. *)
Theorem plan_title_shown_bare :
  forall (clock : nat -> Z) (p : PlanningResult) (i : nat) (day : Z)
         (title : string),
    0 <= day ->
    PlanningResult.tasks p !! i = Some (day, title) ->
    exists t,
      plan_tasks clock p !! i = Some t
      /\ Task.title t = "Day " +:+ JS.of_int day +:+ ": " +:+ title
      /\ displayTitle (Task.title t) = JS.str (JS.skip_white (JS.chars title)).
Proof.
  intros clock p i day title Hd Hl.
  eexists. split; [exact (plan_tasks_lookup clock p i day title Hl)|].
  split; [reflexivity|].
  cbn [Task.title]. destruct (of_int_digits day Hd) as [Hne Hf].
  unfold displayTitle.
  assert (E : JS.chars ("Day " +:+ JS.of_int day +:+ ": " +:+ title)
              = "D"%char :: "a"%char :: "y"%char :: " "%char
                :: (JS.chars (JS.of_int day)
                    ++ ":"%char :: " "%char :: JS.chars title)).
  { rewrite !JSFacts.chars_app. reflexivity. }
  rewrite E. rewrite digit_prefix_app by (exact Hf || reflexivity).
  destruct (JS.chars (JS.of_int day)) as [|d ds] eqn:Ed; [contradiction|].
  rewrite <- Ed. rewrite drop_app_length. reflexivity.
Qed.

Lemma plan_title_shown_bare_witness :
  exists t,
    plan_tasks (fun _ => 7) (PlanningResult.mk "Run" [(12, "Buy shoes")])
      !! 0%nat = Some t
    /\ Task.title t = "Day " +:+ JS.of_int 12 +:+ ": " +:+ "Buy shoes"
    /\ displayTitle (Task.title t)
       = JS.str (JS.skip_white (JS.chars "Buy shoes")).
Proof.
  apply (plan_title_shown_bare (fun _ => 7)
           (PlanningResult.mk "Run" [(12, "Buy shoes")]) 0%nat 12 "Buy shoes");
    [lia | reflexivity].
Defined.

(* ===================================================================== *)
(** ** The chat *)
(* ===================================================================== *)

Lemma replace_thinking_settled reply clock l : forall n,
  (forall msg, In msg l -> is_thinking msg = false) ->
  replace_thinking reply clock n l = l.
Proof.
  induction l as [|msg l IH]; intros n Hl; simpl; [reflexivity|].
  rewrite (Hl msg) by now left. f_equal. apply IH.
  intros m Hm. apply Hl. now right.
Qed.

Lemma replace_thinking_app reply clock l1 l2 : forall n,
  (forall msg, In msg l1 -> is_thinking msg = false) ->
  replace_thinking reply clock n (l1 ++ l2)
  = l1 ++ replace_thinking reply clock n l2.
Proof.
  induction l1 as [|msg l1 IH]; intros n Hl; simpl; [reflexivity|].
  rewrite (Hl msg) by now left. f_equal. apply IH.
  intros m Hm. apply Hl. now right.
Qed.

Lemma or_else_truthy a b : JS.truthy b = true -> JS.truthy (JS.or_else a b) = true.
Proof.
  intros Hb. destruct a as [s|]; simpl; [|exact Hb].
  destruct (JS.truthy s) eqn:T; [exact T | exact Hb].
Qed.

(** X11.  One exchange in the chat, no placeholder of an earlier exchange
    pending: whatever becomes of the request to the gateway
    ([getAgentResponse] answers with a fixed text when it fails, and never
    with an empty text), the chat grows by the message as typed and by the
    answer, in that order, the earlier messages untouched.  Should the
    handler's own [catch] run, every message that reads "Thinking..." is
    dropped, one the user typed included, and nothing else. *)
Theorem chat_exchange :
  forall (chatInput : string) (clock : nat -> Z)
         (coachChat : list Chat.Message),
    JS.truthy (JS.trim chatInput) = true ->
    (forall msg, In msg coachChat -> is_thinking msg = false) ->
    (forall reply,
       let answer := getAgentResponse reply in
       handleSendChatMessage chatInput clock (Resolved answer) coachChat
       = coachChat ++ [ Chat.mk Chat.user chatInput (clock 0%nat);
                        Chat.mk Chat.model answer (clock 2%nat) ]
       /\ JS.truthy answer = true)
    /\ (forall error,
          handleSendChatMessage chatInput clock (Rejected error) coachChat
          = List.filter (fun msg => negb (String.eqb (Chat.text msg) Thinking))
                        coachChat
            ++ (if String.eqb chatInput Thinking then []
                else [Chat.mk Chat.user chatInput (clock 0%nat)])).
Proof.
  intros chatInput clock coachChat T Hc. split.
  - intros reply answer. split.
    + unfold handleSendChatMessage. rewrite T. cbn [negb].
      rewrite <- app_assoc. rewrite replace_thinking_app by exact Hc.
      reflexivity.
    + subst answer. destruct reply as [responseText|error]; simpl;
        [now apply or_else_truthy | reflexivity].
  - intros error. unfold handleSendChatMessage. rewrite T. cbn [negb].
    rewrite !List.filter_app. cbn [List.filter Chat.text].
    rewrite String.eqb_refl. cbn [negb]. rewrite app_nil_r.
    now destruct (String.eqb chatInput Thinking).
Qed.

Lemma chat_exchange_witness :
  let greeting := Chat.mk Chat.model "Hello! I'm MyOS. Ask me anything!" 1 in
  (forall reply,
     let answer := getAgentResponse reply in
     handleSendChatMessage "Where to eat?" (fun n => Z.of_nat n + 2)
       (Resolved answer) [greeting]
     = [greeting] ++ [ Chat.mk Chat.user "Where to eat?" (Z.of_nat 0 + 2);
                       Chat.mk Chat.model answer (Z.of_nat 2 + 2) ]
     /\ JS.truthy answer = true)
  /\ (forall error,
        handleSendChatMessage "Where to eat?" (fun n => Z.of_nat n + 2)
          (Rejected error) [greeting]
        = List.filter (fun msg => negb (String.eqb (Chat.text msg) Thinking))
                      [greeting]
          ++ (if String.eqb "Where to eat?" Thinking then []
              else [Chat.mk Chat.user "Where to eat?" (Z.of_nat 0 + 2)])).
Proof.
  apply (chat_exchange "Where to eat?" (fun n => Z.of_nat n + 2)
           [Chat.mk Chat.model "Hello! I'm MyOS. Ask me anything!" 1]).
  - reflexivity.
  - intros msg [<-|[]]. reflexivity.
Defined.

(* ===================================================================== *)
(** ** Folders *)
(* ===================================================================== *)

Lemma In_set_delete x s y : In y (set_delete x s) <-> In y s /\ y <> x.
Proof.
  unfold set_delete. rewrite filter_In.
  destruct (String.eqb_spec y x); simpl; intuition (discriminate || congruence).
Qed.

Lemma In_set_add x s y : In y (set_add x s) <-> In y s \/ y = x.
Proof.
  unfold set_add. destruct (JS.includes x s) eqn:I.
  - apply JSFacts.includes_In in I. split; [now left|].
    intros [H| ->]; assumption.
  - rewrite in_app_iff. simpl. intuition.
Qed.

(** X12.  Toggling a folder flips whether that folder is open and no
    other; toggling it again gives back the open folders there were.  In
    the memory browser only the toggled folder changes between showing
    its content and hiding it. *)
Theorem toggle_folder_flips_one :
  forall (projectName : string) (expandedProjects : list string),
    let toggled := toggleFolder projectName expandedProjects in
    (In projectName toggled <-> ~ In projectName expandedProjects)
    /\ (forall q, q <> projectName ->
          (In q toggled <-> In q expandedProjects))
    /\ (forall q, In q (toggleFolder projectName toggled)
                  <-> In q expandedProjects)
    /\ (forall (H : Host) rev entry,
          fst entry <> projectName ->
          folder_of rev toggled entry = folder_of rev expandedProjects entry)
    /\ (forall (H : Host) rev entry,
          fst entry = projectName ->
          is_Some (content (folder_of rev toggled entry))
          <-> content (folder_of rev expandedProjects entry) = None).
Proof.
  intros p s toggled.
  assert (H1 : In p toggled <-> ~ In p s).
  { subst toggled. unfold toggleFolder. destruct (JS.includes p s) eqn:I.
    - apply JSFacts.includes_In in I. rewrite In_set_delete. tauto.
    - apply JSFacts.includes_false in I. rewrite In_set_add. tauto. }
  assert (H2 : forall q, q <> p -> (In q toggled <-> In q s)).
  { intros q Hq. subst toggled. unfold toggleFolder.
    destruct (JS.includes p s);
      [rewrite In_set_delete | rewrite In_set_add]; tauto. }
  assert (Hinc : forall q l l', (In q l <-> In q l') ->
                                JS.includes q l = JS.includes q l').
  { intros q l l' Hq.
    destruct (JS.includes q l) eqn:A, (JS.includes q l') eqn:B; try reflexivity.
    - apply JSFacts.includes_In, Hq, JSFacts.includes_In in A. congruence.
    - apply JSFacts.includes_In, Hq, JSFacts.includes_In in B. congruence. }
  split; [exact H1|]. split; [exact H2|]. split; [|split].
  - intros q. destruct (String.eqb_spec q p) as [->|Hq].
    + unfold toggleFolder at 1. destruct (JS.includes p toggled) eqn:I.
      * apply JSFacts.includes_In in I. rewrite In_set_delete.
        apply H1 in I. tauto.
      * apply JSFacts.includes_false in I. rewrite In_set_add.
        destruct (JS.includes p s) eqn:I'.
        -- apply JSFacts.includes_In in I'. tauto.
        -- apply JSFacts.includes_false in I'. tauto.
    + unfold toggleFolder at 1.
      destruct (JS.includes p toggled);
        [rewrite In_set_delete | rewrite In_set_add];
        rewrite (H2 q Hq); tauto.
  - intros H rev entry Hne. unfold folder_of.
    now rewrite (Hinc (fst entry) toggled s (H2 _ Hne)).
  - intros H rev entry He. unfold folder_of. cbn [content]. rewrite He.
    destruct (JS.includes p toggled) eqn:A, (JS.includes p s) eqn:B.
    + apply JSFacts.includes_In in A, B. apply H1 in A. contradiction.
    + split; eauto.
    + split; [intros [x Hx]; discriminate | discriminate].
    + apply JSFacts.includes_false in A, B. rewrite H1 in A. tauto.
Qed.

(* ===================================================================== *)
(** ** Tag suggestions *)
(* ===================================================================== *)

Lemma slice_from_of_append a b :
  JS.slice_from (a +:+ b) (Z.of_nat (String.length a)) = b.
Proof.
  rewrite slice_from_suffix by (rewrite length_append; lia).
  rewrite JSFacts.chars_app, <- JSFacts.length_chars.
  rewrite drop_app_length. apply JSFacts.str_chars.
Qed.

Lemma last_index_absent c l : forall i,
  Forall (fun x => Ascii.eqb x c = false) l -> last_index_from c l i = None.
Proof.
  induction l as [|x l IH]; intros i Hl; simpl; [reflexivity|].
  apply Forall_cons in Hl as [Hx Hl]. now rewrite IH, Hx.
Qed.

Lemma last_index_found c pre post : forall i,
  Forall (fun x => Ascii.eqb x c = false) post ->
  last_index_from c (pre ++ c :: post) i = Some (i + length pre)%nat.
Proof.
  induction pre as [|x pre IH]; intros i Hp; simpl.
  - rewrite last_index_absent by exact Hp.
    rewrite Ascii.eqb_refl. f_equal. lia.
  - rewrite IH by exact Hp. f_equal. lia.
Qed.

(** X13.  In [RevA], with the cursor right after a slash and a term
    typed after it (no slash and no line break in the term, fewer than
    fifty characters), the suggestion box is open on that term; choosing a
    tag then puts the slash, the tag and one space in the place of the
    slash and the term, leaves the text before and after as it was,
    closes the box, and sets the cursor right after the space. *)
Theorem tag_selection_replaces_term :
  forall (before term after tag : string),
    Forall (fun c => Ascii.eqb c "/" = false) (JS.chars term) ->
    JS.str_includes term (String "010" EmptyString) = false ->
    (String.length term < 50)%nat ->
    let val := before +:+ "/" +:+ term +:+ after in
    let cursor := String.length (before +:+ "/" +:+ term) in
    let ui := handleInputChangeA val cursor in
    ui = {| ui_inputText := val; showTagSuggestions := true;
            tagSearchTerm := term;
            activeTagIndex := Some (String.length before) |}
    /\ handleTagSelectionA tag ui
       = ({| ui_inputText := before +:+ "/" +:+ tag +:+ " " +:+ after;
             showTagSuggestions := false;
             tagSearchTerm := EmptyString;
             activeTagIndex := None |},
          Some (Z.of_nat (String.length (before +:+ "/" +:+ tag +:+ " ")))).
Proof.
  intros before term after tag Hs Hn Hl val cursor ui.
  assert (Ev : val = (before +:+ "/" +:+ term) +:+ after).
  { subst val. now rewrite !append_assoc. }
  assert (Eb : JS.slice val 0 (Z.of_nat cursor) = before +:+ "/" +:+ term).
  { rewrite Ev. apply slice_of_append. }
  assert (Ei : lastIndexOf "/" (before +:+ "/" +:+ term)
               = Some (String.length before)).
  { unfold lastIndexOf. rewrite JSFacts.chars_app.
    change (JS.chars ("/" +:+ term)) with ("/"%char :: JS.chars term).
    rewrite last_index_found by exact Hs.
    now rewrite JSFacts.length_chars. }
  assert (Et : JS.slice_from (before +:+ "/" +:+ term)
                 (Z.of_nat (String.length before) + 1) = term).
  { replace (Z.of_nat (String.length before) + 1)
      with (Z.of_nat (String.length (before +:+ "/")))
      by (rewrite length_append; simpl; lia).
    rewrite <- append_assoc. apply slice_from_of_append. }
  assert (Eui : ui = {| ui_inputText := val; showTagSuggestions := true;
                        tagSearchTerm := term;
                        activeTagIndex := Some (String.length before) |}).
  { subst ui. unfold handleInputChangeA. rewrite Eb, Ei, Et, Hn.
    apply Nat.ltb_lt in Hl. now rewrite Hl. }
  split; [exact Eui|]. rewrite Eui. unfold handleTagSelectionA.
  cbn [activeTagIndex ui_inputText tagSearchTerm].
  assert (E1 : JS.slice val 0 (Z.of_nat (String.length before)) = before).
  { subst val. apply slice_of_append. }
  assert (E2 : JS.slice_from val
                 (Z.of_nat (String.length before) + 1
                  + Z.of_nat (String.length term)) = after).
  { replace (Z.of_nat (String.length before) + 1
             + Z.of_nat (String.length term))
      with (Z.of_nat (String.length (before +:+ "/" +:+ term)))
      by (rewrite !length_append; simpl; lia).
    rewrite Ev. apply slice_from_of_append. }
  rewrite E1, E2. f_equal. f_equal. rewrite !length_append. simpl. lia.
Qed.

Lemma tag_selection_replaces_term_witness :
  let val := "lunch " +:+ "/" +:+ "ko" +:+ " today" in
  let cursor := String.length ("lunch " +:+ "/" +:+ "ko") in
  let ui := handleInputChangeA val cursor in
  ui = {| ui_inputText := val; showTagSuggestions := true;
          tagSearchTerm := "ko";
          activeTagIndex := Some (String.length "lunch ") |}
  /\ handleTagSelectionA "Korea Trip" ui
     = ({| ui_inputText := "lunch " +:+ "/" +:+ "Korea Trip" +:+ " "
                           +:+ " today";
           showTagSuggestions := false;
           tagSearchTerm := EmptyString;
           activeTagIndex := None |},
        Some (Z.of_nat (String.length
                          ("lunch " +:+ "/" +:+ "Korea Trip" +:+ " ")))).
Proof.
  apply (tag_selection_replaces_term "lunch " "ko" " today" "Korea Trip");
    [repeat constructor | reflexivity | simpl; lia].
Defined.

Lemma trim_not_ends_white s : JS.endsWith (JS.trim s) " " = false.
Proof.
  unfold JS.endsWith, JS.trim. rewrite JSFacts.chars_str, rev_involutive.
  pose proof (JSFacts.skip_white_clean (rev (JS.skip_white (JS.chars s)))) as C.
  destruct (JS.skip_white (rev (JS.skip_white (JS.chars s)))) as [|c l];
    [reflexivity|].
  change (JS.is_white c = false) in C.
  change (rev (JS.chars " ")) with [" "%char]. cbn [JS.is_prefix].
  destruct (Ascii.eqb_spec " " c) as [<-|]; [discriminate C | reflexivity].
Qed.

Lemma trimEnd_slash body ws :
  blank ws = true -> trimEnd (body +:+ "/" +:+ ws) = body +:+ "/".
Proof.
  unfold blank. intros Hw. unfold trimEnd.
  rewrite !JSFacts.chars_app.
  change (JS.chars "/") with ["/"%char].
  replace (rev (JS.chars body ++ ["/"%char] ++ JS.chars ws))
    with (rev (JS.chars ws) ++ "/"%char :: rev (JS.chars body))
    by (rewrite !rev_app_distr, <- app_assoc; reflexivity).
  rewrite skip_white_blank by now apply forallb_rev.
  cbn [JS.skip_white]. change (JS.is_white "/") with false. cbv iota.
  change (rev ("/"%char :: rev (JS.chars body)))
    with (rev (rev (JS.chars body)) ++ ["/"%char]).
  rewrite rev_involutive, JSFacts.str_app, JSFacts.str_chars. reflexivity.
Qed.

(** X14.  In [RevB] typing opens the suggestion box when the text, white
    space at its ends apart, ends with a slash, and never closes it: the
    second test of [handleInputChange] asks whether a trimmed text ends
    with a space, which it never does.  Choosing a tag when the text ends
    with a slash (white space after it apart) puts the tag and one space
    after that slash and drops the white space; otherwise it appends a
    space, a slash, the tag and a space to the text as it is. *)
Theorem tag_box_in_RevB :
  forall (tag : string),
    (forall val shown,
       handleInputChangeB val shown
       = (val, (JS.endsWith (JS.trim val) "/" || shown)%bool))
    /\ (forall body ws,
          blank ws = true ->
          handleTagSelectionB tag (body +:+ "/" +:+ ws)
          = body +:+ "/" +:+ tag +:+ " ")
    /\ (forall prev,
          JS.endsWith (trimEnd prev) "/" = false ->
          handleTagSelectionB tag prev = prev +:+ " /" +:+ tag +:+ " ").
Proof.
  intros tag. split; [|split].
  - intros val shown. unfold handleInputChangeB.
    rewrite trim_not_ends_white.
    now destruct (JS.endsWith (JS.trim val) "/").
  - intros body ws Hw. unfold handleTagSelectionB.
    rewrite (trimEnd_slash body ws Hw).
    assert (E : JS.endsWith (body +:+ "/") "/" = true).
    { apply JSFacts.endsWith_spec. now exists body. }
    rewrite E. f_equal. unfold JS.slice.
    rewrite length_append. simpl String.length.
    replace (JS.clamp (String.length body + 1) 0) with 0%nat by reflexivity.
    replace (JS.clamp (String.length body + 1) (-1)) with (String.length body)
      by (unfold JS.clamp; simpl; lia).
    rewrite Nat.sub_0_r, JSFacts.chars_app, drop_0.
    rewrite <- JSFacts.length_chars, take_app_length.
    apply JSFacts.str_chars.
  - intros prev He. unfold handleTagSelectionB. now rewrite He.
Qed.

(* ===================================================================== *)
(** ** Highlighting *)
(* ===================================================================== *)








(* ===================================================================== *)
(** ** The badge of a folder *)
(* ===================================================================== *)

Section Counting.
Context {V : Type} (w : string * V -> nat).



End Counting.













(* ===================================================================== *)
(** ** Editing an item *)
(* ===================================================================== *)

(** X17.  An edit saved from a card, whose index is within the items of
    the Memory it names, replaces that item and nothing else: the
    collection keeps its length and order, the Memories of another id are
    untouched, and in the Memory addressed the item at the index is the
    edited one, the item count and every other item as before. *)
Theorem edited_item_is_replaced :
  forall (memoryId : string) (k : nat) (updatedItem : StructuredItem)
         (prev : list Memory),
    (forall m, In m prev -> Memory.id m = memoryId ->
               (k < length (Memory.structuredContent m))%nat) ->
    exists ms,
      handleUpdateMemoryItem memoryId k updatedItem prev = Some ms
      /\ length ms = length prev
      /\ forall i m, prev !! i = Some m ->
           exists m',
             ms !! i = Some m'
             /\ (Memory.id m <> memoryId -> m' = m)
             /\ (Memory.id m = memoryId ->
                 m' = Memory.with_structuredContent
                        (<[k := updatedItem]> (Memory.structuredContent m)) m
                 /\ Memory.structuredContent m' !! k = Some updatedItem
                 /\ length (Memory.structuredContent m')
                    = length (Memory.structuredContent m)
                 /\ forall j, j <> k ->
                      Memory.structuredContent m' !! j
                      = Memory.structuredContent m !! j).
Proof.
  intros memoryId k item prev. unfold handleUpdateMemoryItem.
  induction prev as [|m0 prev IH]; intros Hk.
  - exists []. repeat split. intros i m Hl. discriminate Hl.
  - destruct IH as (ms & E & Hlen & Hall).
    { intros m Hm. apply Hk. now right. }
    set (m0' := if String.eqb (Memory.id m0) memoryId
                then Memory.with_structuredContent
                       (<[k := item]> (Memory.structuredContent m0)) m0
                else m0).
    exists (m0' :: ms). split; [|split].
    + cbn [mapM]. rewrite E. subst m0'.
      destruct (String.eqb_spec (Memory.id m0) memoryId) as [Hid|Hid];
        [|reflexivity].
      unfold array_set.
      pose proof (Hk m0 (or_introl eq_refl) Hid) as Hlt.
      apply Nat.ltb_lt in Hlt. rewrite Hlt. reflexivity.
    + simpl. now rewrite Hlen.
    + intros [|i] m Hl; [|now apply Hall].
      injection Hl as <-. exists m0'. split; [reflexivity|]. subst m0'.
      destruct (String.eqb_spec (Memory.id m0) memoryId) as [Hid|Hid].
      * split; [contradiction|]. intros _. split; [reflexivity|].
        pose proof (Hk m0 (or_introl eq_refl) Hid) as Hlt.
        destruct m0; simpl in *. split; [|split].
        -- now apply list_lookup_insert_eq.
        -- apply length_insert.
        -- intros j Hj. now apply list_lookup_insert_ne.
      * split; [reflexivity | contradiction].
Qed.

Lemma edited_item_is_replaced_witness :
  let x := Item.mk "Palace" "Sightseeing" "Go early." None None None None
             (Some pending) in
  exists ms,
    handleUpdateMemoryItem "mock1" 0 x (memories (initialRepoB 0 0)) = Some ms
    /\ length ms = length (memories (initialRepoB 0 0))
    /\ forall i m, memories (initialRepoB 0 0) !! i = Some m ->
         exists m',
           ms !! i = Some m'
           /\ (Memory.id m <> "mock1" -> m' = m)
           /\ (Memory.id m = "mock1" ->
               m' = Memory.with_structuredContent
                      (<[0%nat := x]> (Memory.structuredContent m)) m
               /\ Memory.structuredContent m' !! 0%nat = Some x
               /\ length (Memory.structuredContent m')
                  = length (Memory.structuredContent m)
               /\ forall j, j <> 0%nat ->
                    Memory.structuredContent m' !! j
                    = Memory.structuredContent m !! j).
Proof.
  apply (edited_item_is_replaced "mock1" 0
           (Item.mk "Palace" "Sightseeing" "Go early." None None None None
              (Some pending))
           (memories (initialRepoB 0 0))).
  intros m [<-|[<-|[]]]; simpl; intros E; [lia | discriminate E].
Defined.

(* ===================================================================== *)
(** ** One set of tags for the box, the backdrop and the backward delete *)
(* ===================================================================== *)

(** X18.  Every tag the suggestion box offers (in [RevA] the tags that
    contain the term typed, in [RevB] all of them) is a tag the
    highlighter knows, so it is highlighted whole once chosen; and unless
    it is the empty name, it is a tag the backward delete knows, so it is
    removed whole. *)
Theorem offered_tags_are_known :
  forall (term : string) (cats : list string) (mems : list Memory)
         (t : string),
    In t (filteredSuggestions term cats mems)
    \/ In t (suggestionTags cats mems) ->
    In t (highlightAlternatives cats mems)
    /\ (JS.truthy t = true -> In t (allTags cats mems)).
Proof.
  intros term cats mems t Hin.
  assert (Hs : In t (suggestionTags cats mems)).
  { destruct Hin as [Hin|Hin]; [|exact Hin].
    unfold filteredSuggestions in Hin.
    destruct (JS.truthy term); [|exact Hin].
    now apply filter_In in Hin as [Hin _]. }
  split.
  - unfold highlightAlternatives.
    set (cmp := fun a b : string =>
                  Z.of_nat (String.length b) - Z.of_nat (String.length a)).
    assert (Hsort : In t (sort cmp (suggestionTags cats mems)))
      by now apply In_sort.
    destruct (sort cmp (suggestionTags cats mems)); [destruct Hsort|].
    exact Hsort.
  - intros T. apply In_allTags. unfold suggestionTags in Hs.
    apply in_app_or in Hs as [Hs|Hs]; [now left|]. right.
    apply filter_In in Hs as [Hs _]. apply (proj1 (In_distinct _ _)) in Hs.
    now split.
Qed.

Lemma offered_tags_are_known_witness :
  In "Korea Trip"
     (highlightAlternatives defaultCategories (memories (initialRepoB 0 0)))
  /\ (JS.truthy "Korea Trip" = true ->
      In "Korea Trip"
         (allTags defaultCategories (memories (initialRepoB 0 0)))).
Proof.
  apply (offered_tags_are_known "ko" defaultCategories
           (memories (initialRepoB 0 0)) "Korea Trip").
  left. vm_compute. left. reflexivity.
Defined.

(* ===================================================================== *)
(** ** The schema of the request and the validation of the reply *)
(* ===================================================================== *)

Lemma enriched_origin (h : Obj.t (list string)) ks : forall acc c projs,
  In (c, projs)
     (fold_left
        (fun enriched cat =>
           Obj.set cat (enrich (default [] (Obj.get cat h))) enriched) ks acc) ->
  In (c, projs) acc \/ projs = enrich (default [] (Obj.get c h)).
Proof.
  induction ks as [|k ks IH]; intros acc c projs Hin; simpl in Hin;
    [now left|].
  apply IH in Hin as [Hin|Hin]; [|now right].
  apply In_set in Hin as [[= -> ->]|Hin]; [now right | now left].
Qed.

Lemma safeProjects_origin (h : Obj.t (list string)) p :
  In p (safeProjects h) ->
  p = General \/ exists c, lists h c p.
Proof.
  unfold safeProjects. cbv zeta.
  destruct (0 <? length _)%nat; [|intros [<-|[]]; now left].
  rewrite In_distinct, in_concat. intros (projs & Hv & Hp).
  unfold Obj.values in Hv. apply in_map_iff in Hv as ([c projs'] & E & Hin).
  simpl in E. subst projs'. apply (proj1 (In_entries _ _)) in Hin.
  unfold enrichedHierarchy in Hin.
  apply enriched_origin in Hin as [ [] | -> ].
  apply In_enrich in Hp as [->|Hp]; [now left|]. right. exists c.
  destruct (Obj.get c h) as [projs|] eqn:G; [|destruct Hp].
  now exists projs.
Qed.

(** X19.  The schema and the validation agree on projects: a project
    name taken from the list the response schema allows (made of a
    hierarchy the deriver returned), whatever the category declared with
    it, is stored as it is, never demoted to "General".  Unless it is
    "General" or "__proto__", it is stored under a category that owns
    it.  A project "__proto__" is never entered in the reverse index
    (the assignment is dropped), and the validation stores it under what
    it finds on the prototype of the index, which owns nothing. *)
Theorem enum_projects_pass_validation :
  forall (cats : list string) (mems : list Memory)
         (h : Obj.t (list string)) (c p : string),
    getProjectHierarchy cats mems = Returns h ->
    In p (safeProjects h) ->
    let final := reconcile cats (projectToCategoryMap h) (Some c) p in
    snd final = p
    /\ (p <> General -> p <> "__proto__" ->
        exists owner, fst final = Some owner /\ owns mems owner p)
    /\ (p = "__proto__" -> fst final = Builtin "__proto__").
Proof.
  intros cats mems h c p Hh Hin final. subst final. unfold reconcile.
  destruct (String.eqb_spec p General) as [->|Hg].
  { split; [reflexivity|]. split; [contradiction | discriminate]. }
  apply safeProjects_origin in Hin as [->|[c0 Hl]]; [contradiction|].
  apply (lists_owns cats mems h c0 p Hh) in Hl.
  pose proof (index_get_derived cats mems h p Hh) as D.
  destruct (index_get (projectToCategoryMap h) p) as [owner| |] eqn:L.
  - destruct D as (Ho & Hn & T). rewrite T. cbn [fst snd].
    split; [reflexivity|]. split; [eauto | contradiction].
  - destruct D as (P & [->|Hno]); [|now destruct (Hno c0)].
    cbn [fst snd]. split; [reflexivity|]. split; [contradiction | reflexivity].
  - destruct D as (_ & Hno). now destruct (Hno c0).
Qed.

Lemma enum_projects_pass_validation_witness :
  let cats := defaultCategories in
  let mems := memories (initialRepoB 0 0) in
  let h := [("Travel", ["Korea Trip"]); ("Learning", []);
            ("Inspiration", []); ("Work", []); ("Life", [])] in
  let final := reconcile cats (projectToCategoryMap h) (Some "Life")
                 "Korea Trip" in
  getProjectHierarchy cats mems = Returns h
  /\ In "Korea Trip" (safeProjects h)
  /\ snd final = "Korea Trip"
  /\ ("Korea Trip" <> General -> "Korea Trip" <> "__proto__" ->
      exists owner, fst final = Some owner /\ owns mems owner "Korea Trip")
  /\ ("Korea Trip" = "__proto__" -> fst final = Builtin "__proto__").
Proof.
  split; [vm_compute; reflexivity|].
  split; [vm_compute; left; reflexivity|].
  apply (enum_projects_pass_validation defaultCategories
           (memories (initialRepoB 0 0))
           [("Travel", ["Korea Trip"]); ("Learning", []);
            ("Inspiration", []); ("Work", []); ("Life", [])]
           "Life" "Korea Trip").
  - vm_compute. reflexivity.
  - vm_compute. left. reflexivity.
Defined.

(* ===================================================================== *)
(** ** Dates on the agenda *)
(* ===================================================================== *)

Lemma digits_split y1 : forall y2 r1 r2,
  Forall (fun c => is_Some (JS.digit c)) y1 ->
  Forall (fun c => is_Some (JS.digit c)) y2 ->
  y1 ++ "."%char :: r1 = y2 ++ "."%char :: r2 -> y1 = y2 /\ r1 = r2.
Proof.
  induction y1 as [|a y1 IH]; intros [|b y2] r1 r2 H1 H2 E; simpl in E.
  - now injection E as <-.
  - injection E as <- _. apply Forall_cons in H2 as [[v Hv] _].
    discriminate Hv.
  - injection E as -> _. apply Forall_cons in H1 as [[v Hv] _].
    discriminate Hv.
  - injection E as -> E. apply Forall_cons in H1 as [_ H1].
    apply Forall_cons in H2 as [_ H2].
    destruct (IH y2 r1 r2 H1 H2 E) as [-> ->]. now split.
Qed.

Lemma padStart2_digits s :
  Forall (fun c => is_Some (JS.digit c)) (JS.chars s) ->
  Forall (fun c => is_Some (JS.digit c)) (JS.chars (JS.padStart2 s)).
Proof.
  intros Hs. unfold JS.padStart2.
  destruct s as [|a [|b s]]; [| |exact Hs].
  - repeat constructor; vm_compute; eauto.
  - constructor; [vm_compute; eauto | exact Hs].
Qed.

(** Two-digit fields are told apart. *)
Lemma padStart2_table a b :
  0 <= a <= 31 -> 0 <= b <= 31 ->
  JS.padStart2 (JS.of_int a) = JS.padStart2 (JS.of_int b) -> a = b.
Proof.
  intros Ha Hb E.
  assert (T : forallb
                (fun x =>
                   forallb
                     (fun y =>
                        implb (String.eqb
                                 (JS.padStart2 (JS.of_int (Z.of_nat x)))
                                 (JS.padStart2 (JS.of_int (Z.of_nat y))))
                              (Nat.eqb x y))
                     (seq 0 32))
                (seq 0 32) = true) by (vm_compute; reflexivity).
  assert (Ia : In (Z.to_nat a) (seq 0 32)) by (apply in_seq; lia).
  assert (Ib : In (Z.to_nat b) (seq 0 32)) by (apply in_seq; lia).
  pose proof (proj1 (forallb_forall _ _) T _ Ia) as T1. cbv beta in T1.
  pose proof (proj1 (forallb_forall _ _) T1 _ Ib) as T2. cbv beta in T2.
  rewrite !Z2Nat.id in T2 by lia.
  rewrite E, String.eqb_refl in T2. cbn [implb] in T2.
  apply Nat.eqb_eq in T2. lia.
Qed.

Lemma format_fields_inj d1 d2 :
  calendar_fields d1 -> calendar_fields d2 ->
  format_fields d1 = format_fields d2 -> d1 = d2.
Proof.
  intros (Hy1 & Hm1 & Hd1) (Hy2 & Hm2 & Hd2) E.
  apply (f_equal JS.chars) in E. unfold format_fields in E.
  rewrite !JSFacts.chars_app in E.
  change (JS.chars ".") with ["."%char] in E. cbn [app] in E.
  apply digits_split in E as [Ey E];
    [|apply of_int_digits; lia | apply of_int_digits; lia].
  apply digits_split in E as [Em Ed];
    [|apply padStart2_digits, of_int_digits; lia
     |apply padStart2_digits, of_int_digits; lia].
  apply JSFacts.chars_inj in Ey, Em, Ed.
  apply (inj pretty) in Ey.
  apply padStart2_table in Em; [|lia|lia].
  apply padStart2_table in Ed; [|lia|lia].
  destruct d1, d2; simpl in *. f_equal; lia.
Qed.

(** X20.  A dated item is on the agenda of its calendar day and of no
    other: for two instants whose calendar fields are those of a date
    (year not negative, month 0 to 11, day 1 to 31), [formatDate] gives
    the same text exactly when the year, the month and the day agree, and
    the test of the agenda loop holds for an item dated by the one, on the
    agenda of the other, exactly then. *)
Theorem dated_item_on_its_day_only :
  forall (H : Host) (t selectedDate : Z),
    calendar_fields (local t) -> calendar_fields (local selectedDate) ->
    (formatDate t = formatDate selectedDate <-> local t = local selectedDate)
    /\ (forall item,
          Item.targetDate item = Some (formatDate t) ->
          (targets (formatDate selectedDate) item = true
           <-> local t = local selectedDate)).
Proof.
  intros H t s Ht Hs.
  assert (E : formatDate t = formatDate s <-> local t = local s).
  { unfold formatDate. split; [now apply format_fields_inj | now intros ->]. }
  split; [exact E|]. intros item Hd. unfold targets. rewrite Hd, <- E.
  destruct (String.eqb_spec (formatDate t) (formatDate s)); split;
    congruence.
Qed.

Lemma dated_item_on_its_day_only_witness :
  (@formatDate utc_host 1760518800000 = @formatDate utc_host 1760486400000
   <-> @local utc_host 1760518800000 = @local utc_host 1760486400000)
  /\ (forall item,
        Item.targetDate item = Some (@formatDate utc_host 1760518800000) ->
        (targets (@formatDate utc_host 1760486400000) item = true
         <-> @local utc_host 1760518800000 = @local utc_host 1760486400000)).
Proof.
  apply (dated_item_on_its_day_only utc_host 1760518800000 1760486400000);
    vm_compute; repeat split; discriminate.
Defined.
